(** * train.py: the training script of the Wide ResNet / Fixup repository

    A shallow embedding of [src/train.py] and the properties of its
    bookkeeping: the running-average meter, the learning-rate schedule, the
    top-k accuracy, checkpoint saving and resuming, and the epoch loop.

    Numbers.  Python [int]s are [Z].  The script is modelled at two levels.
    The program as a whole (its control flow, what it writes, prints and
    leaves alone) computes with exact rationals [Q] in place of Python
    [float]s, and lists classes of equal score by ascending index; what is
    stated on this level are comparisons, maxima, exceptions and frame
    properties, with equalities between rationals written [==] ([Qeq]).
    The numbers the functions return are IEEE 754 numbers: module [Binary]
    models [AverageMeter], [adjust_learning_rate] and [accuracy] once more
    with binary64 and float32 arithmetic, rounding included, and leaves the
    order of equal scores to the library.  What is stated about a returned
    value is stated there.

    Exceptions.  A call either returns a value or raises; [Res A] is
    [exn + A], with the exception classes the script can meet.

    Effects.  The globals of the script ([args], [best_prec1]) and the
    outside world (files, standard output, the TensorBoard sink, the clock)
    form the record [World]; effectful functions live in the monad [M], which
    threads the world and keeps it when an exception is raised.  The objects
    a function mutates in place ([model], [optimizer]) are passed in and
    returned. *)

From Stdlib Require Import ZArith QArith Qminmax Lia Lqa List.
From Stdlib Require Import Floats.SpecFloat.
From stdpp Require Import base strings gmap list sorting.

Local Open Scope Z_scope.

(** ** Exceptions *)

Inductive exn : Type :=
| ZeroDivisionError
| AssertionError
| ValueError
| IndexError
| RuntimeError
| UnpicklingError
| FileNotFoundError
| OverflowError.

Definition Res (A : Type) : Type := (exn + A)%type.

Definition res_bind {A B : Type} (r : Res A) (f : A -> Res B) : Res B :=
  match r with
  | inl e => inl e
  | inr a => f a
  end.

(** Comparisons of Python numbers, as booleans. *)
Definition Qltb (x y : Q) : bool := negb (Qle_bool y x).

(** [max(a, b)] of Python: the first argument unless the second is strictly
    greater. *)
Definition py_max2 (a b : Q) : Q := if Qltb a b then b else a.

(** ** AverageMeter

    With exact numbers; [Binary.AverageMeter] below is the meter with the
    rounding of binary64. *)

Module AverageMeter.

Record t : Type := Meter {
  val : Q;
  avg : Q;
  sum : Q;
  count : Z
}.

(** [reset]: all four fields become 0. *)
Definition reset : t := Meter 0 0 0 0.

(** The three assignments of [update] that come before the division:
    [self.val = val; self.sum += val * n; self.count += n]. *)
Definition accumulate (self : t) (v : Q) (n : Z) : t :=
  Meter v (avg self) (sum self + v * inject_Z n)%Q (count self + n).

(** [update(val, n)].  The last statement [self.avg = self.sum / self.count]
    raises [ZeroDivisionError] when the new count is 0. *)
Definition update (self : t) (v : Q) (n : Z) : Res t :=
  let s := accumulate self v n in
  if count s =? 0 then inl ZeroDivisionError
  else inr (Meter (val s) (sum s / inject_Z (count s))%Q (sum s) (count s)).

(** A sequence of calls [update(v1,w1); ...; update(vn,wn)], in order; the
    first call that raises ends the sequence. *)
Fixpoint updates (self : t) (calls : list (Q * Z)) : Res t :=
  match calls with
  | [] => inr self
  | (v, n) :: rest => res_bind (update self v n) (fun s => updates s rest)
  end.


Fixpoint total_weight (calls : list (Q * Z)) : Z :=
  match calls with
  | [] => 0
  | (_, n) :: rest => n + total_weight rest
  end.

(** Every cumulative weight [w1 + ... + wi] (i >= 1), starting from the
    count [c] already in the meter, is non-zero. *)
Fixpoint prefixes_nonzero (c : Z) (calls : list (Q * Z)) : bool :=
  match calls with
  | [] => true
  | (_, n) :: rest => negb (c + n =? 0) && prefixes_nonzero (c + n) rest
  end.

End AverageMeter.

(** ** Command-line arguments *)

Module Args.

Record t : Type := Make {
  dataset : string;
  epochs : Z;
  start_epoch : Z;
  batch_size : Z;
  lr : Q;
  momentum : Q;
  nesterov : bool;
  weight_decay : Q;
  print_freq : Z;
  layers : Z;
  widen_factor : Z;
  batchnorm : bool;
  fixup : bool;
  droprate : Q;
  cutout : bool;
  n_holes : Z;
  length : Z;
  augment : bool;
  resume : string;
  name : string;
  tensorboard : bool
}.

(** The defaults of the argument parser. *)
Definition default : t :=
  Make "cifar10" 200 0 128 0.1 0.9 true 0.0005 10 28 10 true true 0 false 1 16
       true "" "WideResNet-28-10" false.

(** [args.start_epoch = e]. *)
Definition set_start_epoch (a : t) (e : Z) : t :=
  Make (dataset a) (epochs a) e (batch_size a) (lr a) (momentum a)
       (nesterov a) (weight_decay a) (print_freq a) (layers a)
       (widen_factor a) (batchnorm a) (fixup a) (droprate a) (cutout a)
       (n_holes a) (length a) (augment a) (resume a) (name a) (tensorboard a).

End Args.

(** ** The optimizer's parameter groups

    A parameter group is a Python dict from option names to values. *)

Inductive hyper : Type :=
| HFloat (q : Q)
| HBool (b : bool).

Record Optimizer (Buffers : Type) : Type := MkOptimizer {
  param_groups : list (gmap string hyper);
  buffers : Buffers
}.
Arguments MkOptimizer {Buffers} _ _.
Arguments param_groups {Buffers} _.
Arguments buffers {Buffers} _.

(** ** Tensors of class scores

    A two-dimensional tensor of shape (batch, classes): the rows and the
    size of dimension 1, which is defined also when there is no row. *)

Record scores : Type := Scores {
  ncols : nat;
  rows : list (list Q)
}.

Definition wf_scores (o : scores) : bool :=
  forallb (fun r => Nat.eqb (List.length r) (ncols o)) (rows o).

(** ** Sequencing of calls that may raise *)

Declare Scope res_scope.
Delimit Scope res_scope with res.
Notation "'let!' x ':=' m 'in' k" := (res_bind m (fun x => k))
  (at level 10, x name, m at level 100, k at level 200) : res_scope.

Fixpoint res_mapM {A B : Type} (f : A -> Res B) (l : list A) : Res (list B) :=
  match l with
  | [] => inr []
  | x :: r =>
      (let! y := f x in
       let! ys := res_mapM f r in
       inr (y :: ys))%res
  end.

(** ** accuracy: precision at k *)

(** [max(topk)]; raises [ValueError] on an empty tuple. *)
Definition py_max (l : list Z) : Res Z :=
  match l with
  | [] => inl ValueError
  | x :: r => inr (fold_left Z.max r x)
  end.

(** The slice [l[:k]] of Python: a negative [k] counts from the end. *)
Definition py_slice_to {A : Type} (k : Z) (l : list A) : list A :=
  if 0 <=? k then take (Z.to_nat k) l
  else take (List.length l - Z.to_nat (- k))%nat l.

Definition score (row : list Q) (j : nat) : Q := nth j row 0%Q.

(** An order in which [topk(..., largest=True, sorted=True)] may list the
    classes of one row: by descending score, and here equal scores by
    ascending index.  The library promises the first only; [Binary.is_topk]
    below says what holds of every listing. *)
Definition ranks_beforeb (row : list Q) (j l : nat) : bool :=
  Qltb (score row l) (score row j)
  || (Qeq_bool (score row j) (score row l) && (j <=? l)%nat).

Definition ranks_before (row : list Q) : relation nat :=
  fun j l => ranks_beforeb row j l = true.

#[global] Instance ranks_before_dec (row : list Q) : RelDecision (ranks_before row) :=
  fun j l => decide (ranks_beforeb row j l = true).

(** The classes of a row in that order. *)
Definition ranking (row : list Q) : list nat :=
  merge_sort (ranks_before row) (seq 0 (List.length row)).

Definition topk_row (k : nat) (row : list Q) : list nat :=
  take k (ranking row).

(** [output.topk(maxk, 1, True, True)]: the indices of the [maxk] largest
    entries of each row; raises when [maxk] is not within the size of
    dimension 1. *)
Definition tensor_topk (output : scores) (maxk : Z) : Res (list (list nat)) :=
  if (maxk <? 0) || (Z.of_nat (ncols output) <? maxk) then inl RuntimeError
  else inr (map (topk_row (Z.to_nat maxk)) (rows output)).

(** [m.t()] for a matrix with [n] columns. *)
Definition transpose {A : Type} (n : nat) (m : list (list A)) : list (list A) :=
  map (fun c => omap (fun r : list A => r !! c) m) (seq 0 n).

(** [target.view(1, -1).expand_as(pred)] where [pred] has shape
    (nrows, batch): the row of labels is repeated; a single label is also
    broadcast along the batch; any other length does not fit. *)
Definition expand_target (target : list Z) (nrows batch : nat)
  : Res (list (list Z)) :=
  if (List.length target =? batch)%nat then inr (replicate nrows target)
  else match target with
       | [t] => inr (replicate nrows (replicate batch t))
       | _ => inl RuntimeError
       end.

Fixpoint count_true (l : list bool) : nat :=
  match l with
  | [] => 0
  | b :: r => ((if b then 1 else 0) + count_true r)%nat
  end.

(** [accuracy] with exact numbers and the order above; [Binary.accuracy]
    is the function with float32 results and the library's order. *)
Definition accuracy (output : scores) (target : list Z) (topk : list Z)
  : Res (list Q) :=
  (let! maxk := py_max topk in
   let batch_size := Z.of_nat (List.length target) in
   let! pred := tensor_topk output maxk in
   let pred := transpose (Z.to_nat maxk) pred in
   let! expanded :=
     expand_target target (Z.to_nat maxk) (List.length (rows output)) in
   let correct :=
     zip_with (zip_with (fun (p : nat) (t : Z) => Z.of_nat p =? t)) pred expanded in
   res_mapM (fun k =>
     let correct_k := count_true (concat (py_slice_to k correct)) in
     if batch_size =? 0 then inl ZeroDivisionError
     else inr (inject_Z (Z.of_nat correct_k) * (100 / inject_Z batch_size))%Q)
     topk)%res.

(** Precision at k for this order.  The rank of a class in a row is the
    number of classes listed before it: those of strictly higher score, and
    those of equal score and lower index. *)
Definition rank (row : list Q) (l : nat) : nat :=
  List.length (filter (fun j => j ≠ l ∧ ranks_before row j l) (seq 0 (List.length row))).

(** The label is among the [k] highest-scoring classes of the row. *)
Definition in_top_k (k : nat) (row : list Q) (label : Z) : bool :=
  (0 <=? label) && (Z.to_nat label <? List.length row)%nat
  && (rank row (Z.to_nat label) <? k)%nat.

(** The number of samples of the batch whose label is among the [k]
    highest-scoring classes. *)
Definition hits (k : nat) (output : scores) (target : list Z) : nat :=
  count_true (zip_with (in_top_k k) (rows output) target).

(** * Binary floating point

    The definitions above compute with exact rationals.  That is enough for
    what the script decides by comparing numbers and for what it leaves
    unchanged, and those properties are stated on them.  The numbers
    themselves are IEEE 754 numbers: a Python [float] is a binary64, and
    the tensor in which [accuracy] computes its result holds float32.  The
    functions whose results are such numbers are modelled a second time
    here, operation by operation as the source writes them, with the
    arithmetic of the standard library's [SpecFloat]: every operation rounds
    to nearest, ties to even. *)

Module Binary.

Definition float64 : Type := spec_float.
Definition float32 : Type := spec_float.

Definition add64 : float64 -> float64 -> float64 := SFadd 53 1024.
Definition mul64 : float64 -> float64 -> float64 := SFmul 53 1024.
Definition div64 : float64 -> float64 -> float64 := SFdiv 53 1024.
Definition mul32 : float32 -> float32 -> float32 := SFmul 24 128.

(** The number of a format nearest to a rational. *)
Definition nearest (prec emax : Z) (q : Q) : spec_float :=
  match Qnum q with
  | Z0 => S754_zero false
  | Zpos p =>
      SFdiv prec emax (S754_finite false p 0) (S754_finite false (Qden q) 0)
  | Zneg p =>
      SFdiv prec emax (S754_finite true p 0) (S754_finite false (Qden q) 0)
  end.

(** A decimal literal of the source, or the text of a command-line option
    of type [float], read as a binary64. *)
Definition float_of_literal (q : Q) : float64 := nearest 53 1024 q.

(** The same for float32; used to name values, not by the script. *)
Definition float32_of_literal (q : Q) : float32 := nearest 24 128 q.

Definition is_finite (x : spec_float) : bool :=
  match x with
  | S754_zero _ | S754_finite _ _ _ => true
  | _ => false
  end.

(** The binary64 nearest to an integer. *)
Definition to_float64 (n : Z) : float64 := binary_normalize 53 1024 n 0 false.

(** The conversion of the [int] operand of [float * int] and
    [float / int]; raises [OverflowError] (int too large to convert to
    float) when the nearest binary64 is not finite. *)
Definition float_of_int (n : Z) : Res float64 :=
  let x := to_float64 n in
  if is_finite x then inr x else inl OverflowError.

(** A Python [float] as a float32, as when a tensor of that type is
    multiplied by it. *)
Definition to_float32 (x : float64) : float32 :=
  match x with
  | S754_finite s m e => binary_round 24 128 s m e
  | _ => x
  end.

(** [t.float().sum(0)] for a tensor [t] of booleans of which [n] are true:
    the entries are 1.0 and 0.0, so every partial sum is an integer; below
    2^24 float32 holds these exactly, in whatever order the library adds. *)
Definition float32_of_count (n : nat) : float32 :=
  binary_normalize 24 128 (Z.of_nat n) 0 false.

(** The rational a finite number of either format stands for. *)
Definition value (x : spec_float) : option Q :=
  match x with
  | S754_zero _ => Some 0%Q
  | S754_finite s m e => Some (inject_Z (cond_Zopp s (Zpos m)) * 2 ^ e)%Q
  | _ => None
  end.

(** ** AverageMeter, on floats

    The script passes a [float] as value and an [int] as weight.  [reset]
    stores the integer 0 in the three numeric fields; adding a float to it
    and dividing it give what the float 0.0 gives. *)

Module AverageMeter.

Record t : Type := Meter {
  val : float64;
  avg : float64;
  sum : float64;
  count : Z
}.

Definition reset : t :=
  Meter (S754_zero false) (S754_zero false) (S754_zero false) 0.

(** [self.val = val; self.sum += val * n; self.count += n;
    self.avg = self.sum / self.count] *)
Definition update (self : t) (v : float64) (n : Z) : Res t :=
  (let! fn := float_of_int n in
   let sum' := add64 (sum self) (mul64 v fn) in
   let count' := count self + n in
   let! fc := float_of_int count' in
   if count' =? 0 then inl ZeroDivisionError
   else inr (Meter v (div64 sum' fc) sum' count'))%res.

Fixpoint updates (self : t) (calls : list (float64 * Z)) : Res t :=
  match calls with
  | [] => inr self
  | (v, n) :: rest => res_bind (update self v n) (fun s => updates s rest)
  end.

(** The sum as the calls build it, from [s]: one rounded product and one
    rounded addition per call, in call order. *)
Fixpoint running_sum (s : float64) (calls : list (float64 * Z)) : float64 :=
  match calls with
  | [] => s
  | (v, n) :: rest => running_sum (add64 s (mul64 v (to_float64 n))) rest
  end.

Fixpoint total_weight (calls : list (float64 * Z)) : Z :=
  match calls with
  | [] => 0
  | (_, n) :: rest => n + total_weight rest
  end.

(** The exact weighted mean of the values of the calls. *)
Fixpoint exact_weighted_sum (calls : list (float64 * Z)) : option Q :=
  match calls with
  | [] => Some 0%Q
  | (v, n) :: rest =>
      match value v, exact_weighted_sum rest with
      | Some q, Some s => Some (q * inject_Z n + s)%Q
      | _, _ => None
      end
  end.

(** Every weight, and every cumulative weight starting from the count [c]
    already in the meter, converts to a float, and no cumulative weight
    is 0. *)
Fixpoint divisible (c : Z) (calls : list (float64 * Z)) : bool :=
  match calls with
  | [] => true
  | (_, n) :: rest =>
      is_finite (to_float64 n) && is_finite (to_float64 (c + n))
      && negb (c + n =? 0) && divisible (c + n) rest
  end.

End AverageMeter.

(** ** adjust_learning_rate, on floats *)

Inductive hyper : Type :=
| HFloat (x : float64)
| HBool (b : bool).

(** The default logger of [tensorboard_logger]: its directory once
    configured, and the values logged. *)
Record Logger : Type := MkLogger {
  tb_dir : option string;
  tb_log : list (string * float64 * Z)
}.

Definition log_value (name : string) (value : float64) (step : Z) (l : Logger)
  : Res Logger :=
  match tb_dir l with
  | None => inl ValueError
  | Some _ => inr (MkLogger (tb_dir l) (tb_log l ++ [(name, value, step)]))
  end.

(** [args.lr], which [argparse] reads with [float]. *)
Definition args_lr (a : Args.t) : float64 := float_of_literal (Args.lr a).

(** [0.2 ** int(epoch >= t)]: the power is 0.2 itself for the exponent 1
    and 1.0 for the exponent 0. *)
Definition decay (epoch t : Z) : float64 :=
  if epoch >=? t then float_of_literal 0.2 else float_of_literal 1.

(** The function on the parameter groups of the optimizer and the logger;
    [args] is the global. *)
Definition adjust_learning_rate (a : Args.t)
  (param_groups : list (gmap string hyper)) (epoch : Z) (l : Logger)
  : Res (list (gmap string hyper) * Logger) :=
  (let lr :=
     mul64 (args_lr a)
           (mul64 (mul64 (decay epoch 60) (decay epoch 120)) (decay epoch 160)) in
   let! l' := (if Args.tensorboard a
               then log_value "learning_rate" lr epoch l else inr l) in
   inr (map (fun param_group => <["lr" := HFloat lr]> param_group) param_groups,
        l'))%res.

(** The multipliers the three factors multiply to. *)
Definition multiplier (e : Z) : float64 :=
  if e <? 60 then float_of_literal 1
  else if e <? 120 then float_of_literal 0.2
  else if e <? 160 then float_of_literal 0.04000000000000001
  else float_of_literal 0.008000000000000002.

(** ** accuracy, on floats

    The scores are compared only, so a row of scores stays a list of
    rationals, the values of its finite float32 entries.  The result is
    float32. *)

(** What [topk(k, 1, True, True)] promises of the indices it lists for one
    row: [k] distinct classes of the row, by non-increasing score, and no
    class left out scores more than a class listed.  Which of several
    classes of equal score come first, or are listed at all, is the
    library's choice. *)
Record is_topk (k : nat) (row : list Q) (l : list nat) : Prop := IsTopk {
  topk_length : List.length l = k;
  topk_NoDup : NoDup l;
  topk_range : forall j : nat, j ∈ l -> (j < List.length row)%nat;
  topk_sorted :
    StronglySorted (fun a b : nat => (score row b <= score row a)%Q) l;
  topk_largest :
    forall j a : nat,
      (j < List.length row)%nat -> j ∉ l -> a ∈ l ->
      (score row j <= score row a)%Q
}.

Section Accuracy.

(** The indices the library lists: [topk_indices k row]. *)
Variable topk_indices : nat -> list Q -> list nat.

Definition tensor_topk (output : scores) (maxk : Z) : Res (list (list nat)) :=
  if (maxk <? 0) || (Z.of_nat (ncols output) <? maxk) then inl RuntimeError
  else inr (map (topk_indices (Z.to_nat maxk)) (rows output)).

Definition accuracy (output : scores) (target : list Z) (topk : list Z)
  : Res (list float32) :=
  (let! maxk := py_max topk in
   let batch_size := Z.of_nat (List.length target) in
   let! pred := tensor_topk output maxk in
   let pred := transpose (Z.to_nat maxk) pred in
   let! expanded :=
     expand_target target (Z.to_nat maxk) (List.length (rows output)) in
   let correct :=
     zip_with (zip_with (fun (p : nat) (t : Z) => Z.of_nat p =? t)) pred expanded in
   res_mapM (fun k =>
     let correct_k :=
       float32_of_count (count_true (concat (py_slice_to k correct))) in
     let! b := float_of_int batch_size in
     if batch_size =? 0 then inl ZeroDivisionError
     else inr (mul32 correct_k (to_float32 (div64 (float_of_literal 100) b))))
     topk)%res.

(** The label is one of the first [k] classes listed. *)
Definition listed (k : nat) (l : list nat) (label : Z) : bool :=
  bool_decide (0 <= label /\ Z.to_nat label ∈ take k l).

(** The number of samples whose label is one of the first [k] of the
    [maxk] classes listed for them. *)
Definition listed_hits (maxk k : nat) (output : scores) (target : list Z) : nat :=
  count_true
    (zip_with (fun row t => listed k (topk_indices maxk row) t)
              (rows output) target).

End Accuracy.

(** The rows [correct[:k]] keeps of the [maxk] rows of [correct]. *)
Definition rows_kept (maxk : nat) (k : Z) : nat :=
  if 0 <=? k then Nat.min (Z.to_nat k) maxk else (maxk - Z.to_nat (- k))%nat.

(** [correct_k * (100.0 / batch_size)] for a count and a batch size. *)
Definition percent32 (correct_k : nat) (batch_size : Z) : float32 :=
  mul32 (float32_of_count correct_k)
        (to_float32 (div64 (float_of_literal 100) (to_float64 batch_size))).

(** The number of other classes of a row that score at least as much as
    class [t], and the number that score strictly more. *)
Definition others_at_least (row : list Q) (t : nat) : nat :=
  List.length
    (filter (fun j : nat => j ≠ t /\ Qle_bool (score row t) (score row j) = true)
            (seq 0 (List.length row))).

Definition others_above (row : list Q) (t : nat) : nat :=
  List.length
    (filter (fun j : nat => Qltb (score row t) (score row j) = true)
            (seq 0 (List.length row))).

(** The label is among the [k] highest-scoring classes however equal scores
    are ordered: fewer than [k] other classes score at least as much. *)
Definition surely_in_top_k (k : nat) (row : list Q) (label : Z) : bool :=
  (0 <=? label) && (Z.to_nat label <? List.length row)%nat
  && (others_at_least row (Z.to_nat label) <? k)%nat.

(** The label is among the [k] highest-scoring classes for some order of
    the equal scores: fewer than [k] classes score strictly more. *)
Definition possibly_in_top_k (k : nat) (row : list Q) (label : Z) : bool :=
  (0 <=? label) && (Z.to_nat label <? List.length row)%nat
  && (others_above row (Z.to_nat label) <? k)%nat.

Definition sure_hits (k : nat) (output : scores) (target : list Z) : nat :=
  count_true (zip_with (surely_in_top_k k) (rows output) target).

Definition possible_hits (k : nat) (output : scores) (target : list Z) : nat :=
  count_true (zip_with (possibly_in_top_k k) (rows output) target).

End Binary.

(** ** The deep-learning framework

    The network, the loss, automatic differentiation, the optimizer step,
    the data loaders and the clock belong to libraries outside the script.
    The script only composes them; they are the operations of this
    interface.  What is random in them (initial weights, dropout, the
    shuffling of a loader) is part of the given functions: [forward] is the
    output the network gives, and [train_loader a e] are the batches, in
    order, of the pass of epoch [e].  Moving tensors to a device and
    replicating the model over devices change no value and have no
    counterpart here. *)

(** The base name of the events file [tensorboard_logger] opens in its log
    directory: ["events.out.tfevents."], then the start time and the host
    name.  A base name holds no ["/"]. *)
Fixpoint slash_free (s : string) : bool :=
  match s with
  | EmptyString => true
  | String c r => negb (String.eqb (String c EmptyString) "/") && slash_free r
  end.

Definition events_name (s : string) : bool :=
  String.prefix "events.out.tfevents." s && slash_free s.

Class Framework : Type := {
  StateDict : Type;
  Grad : Type;
  Buffers : Type;
  Sample : Type;
  (** [WideResNet(layers, num_classes, widen_factor, droprate, use_bn,
      use_fixup)]: the parameters of a freshly constructed network. *)
  WideResNet : Z -> Z -> Z -> Q -> bool -> bool -> StateDict;
  (** the total number of elements of the parameters *)
  nelement : StateDict -> Z;
  (** [model(input)], in training or in evaluation mode: the scores, and the
      state of the network afterwards (in training mode a forward pass
      updates the running statistics of its normalization layers, which are
      part of the state) *)
  forward : StateDict -> bool -> list Sample -> scores * StateDict;
  (** [nn.CrossEntropyLoss()] *)
  criterion : scores -> list Z -> Q;
  (** the gradient buffers before any backward pass *)
  no_grad : Grad;
  (** [optimizer.zero_grad()] *)
  zero_grad : Grad -> Grad;
  (** [loss.backward()]: accumulates the gradient of the loss on the batch *)
  backward : StateDict -> list Sample -> list Z -> Grad -> Grad;
  (** the momentum buffers of a fresh optimizer *)
  no_buffers : Buffers;
  (** [optimizer.step()] *)
  sgd_step : list (gmap string hyper) -> Buffers -> StateDict -> Grad
             -> StateDict * Buffers;
  train_loader : Args.t -> Z -> list (list Sample * list Z);
  val_loader : Args.t -> Z -> list (list Sample * list Z);
  (** the reading of the [n]-th call of [time.time()] *)
  time_at : nat -> Q;
  (** the base name of the events file of this process *)
  events_file : string;
  events_file_name : events_name events_file = true;
  (** in evaluation mode a forward pass leaves the state as it is *)
  forward_eval :
    forall (sd : StateDict) (input : list Sample), (forward sd false input).2 = sd
}.

Section Script.

Context `{Framework}.

Record Model : Type := MkModel {
  state_dict : StateDict;
  grads : Grad;
  training : bool
}.

(** The record [save_checkpoint] is given by [main]. *)
Record Checkpoint : Type := MkCheckpoint {
  ck_epoch : Z;
  ck_state_dict : StateDict;
  ck_best_prec1 : Q
}.

(** A file holds a serialized checkpoint record or something else. *)
Inductive file : Type :=
| Pickled (c : Checkpoint)
| Other.

Inductive fs_op : Type :=
| OpMakedirs (directory : string)
| OpSave (path : string) (c : Checkpoint)
| OpCopyfile (src dst : string).

(** The lines the script prints; a meter is shown by its [val] and [avg]. *)
Inductive msg : Type :=
| MsgNumParams (n : Z)
| MsgLoading (path : string)
| MsgLoaded (path : string) (epoch : Z)
| MsgNoCheckpoint (path : string)
| MsgTrain (epoch : Z) (i len : nat) (batch_time losses top1 : Q * Q)
| MsgTest (i len : nat) (batch_time losses top1 : Q * Q)
| MsgPrec1 (avg : Q)
| MsgBestAccuracy (best : Q).

Record World : Type := MkWorld {
  args : Args.t;
  best_prec1 : Q;
  files : gmap string file;
  dirs : gset string;
  fs_log : list fs_op;
  stdout : list msg;
  tb_dir : option string;
  tb_log : list (string * Q * Z);
  clock : nat
}.

(** The world at the start of the process: [best_prec1 = 0], nothing
    printed or logged yet. *)
Definition initial_world (a : Args.t) (fs : gmap string file) (ds : gset string)
  : World :=
  MkWorld a 0 fs ds [] [] None [] 0.

Definition set_args (f : Args.t -> Args.t) (w : World) : World :=
  MkWorld (f (args w)) (best_prec1 w) (files w) (dirs w) (fs_log w) (stdout w)
          (tb_dir w) (tb_log w) (clock w).
Definition set_best_prec1 (b : Q) (w : World) : World :=
  MkWorld (args w) b (files w) (dirs w) (fs_log w) (stdout w)
          (tb_dir w) (tb_log w) (clock w).
Definition set_files (f : gmap string file -> gmap string file) (w : World) : World :=
  MkWorld (args w) (best_prec1 w) (f (files w)) (dirs w) (fs_log w) (stdout w)
          (tb_dir w) (tb_log w) (clock w).
Definition set_dirs (f : gset string -> gset string) (w : World) : World :=
  MkWorld (args w) (best_prec1 w) (files w) (f (dirs w)) (fs_log w) (stdout w)
          (tb_dir w) (tb_log w) (clock w).
Definition set_fs_log (f : list fs_op -> list fs_op) (w : World) : World :=
  MkWorld (args w) (best_prec1 w) (files w) (dirs w) (f (fs_log w)) (stdout w)
          (tb_dir w) (tb_log w) (clock w).
Definition set_stdout (f : list msg -> list msg) (w : World) : World :=
  MkWorld (args w) (best_prec1 w) (files w) (dirs w) (fs_log w) (f (stdout w))
          (tb_dir w) (tb_log w) (clock w).
Definition set_tb_dir (d : option string) (w : World) : World :=
  MkWorld (args w) (best_prec1 w) (files w) (dirs w) (fs_log w) (stdout w)
          d (tb_log w) (clock w).
Definition set_tb_log (f : list (string * Q * Z) -> list (string * Q * Z))
  (w : World) : World :=
  MkWorld (args w) (best_prec1 w) (files w) (dirs w) (fs_log w) (stdout w)
          (tb_dir w) (f (tb_log w)) (clock w).
Definition set_clock (f : nat -> nat) (w : World) : World :=
  MkWorld (args w) (best_prec1 w) (files w) (dirs w) (fs_log w) (stdout w)
          (tb_dir w) (tb_log w) (f (clock w)).

(** *** The monad of the script *)

Definition M (A : Type) : Type := World -> Res A * World.

Definition ret {A : Type} (a : A) : M A := fun w => (inr a, w).

Definition bind {A B : Type} (m : M A) (f : A -> M B) : M B :=
  fun w =>
    match m w with
    | (inl e, w') => (inl e, w')
    | (inr a, w') => f a w'
    end.

Definition raise {A : Type} (e : exn) : M A := fun w => (inl e, w).
Definition lift {A : Type} (r : Res A) : M A := fun w => (r, w).
Definition gets {A : Type} (f : World -> A) : M A := fun w => (inr (f w), w).
Definition modify (f : World -> World) : M unit := fun w => (inr tt, f w).

End Script.

Declare Scope m_scope.
Delimit Scope m_scope with M.
Notation "'let!' x ':=' m 'in' k" := (bind m (fun x => k))
  (at level 10, x name, m at level 100, k at level 200) : m_scope.
Notation "'let!' ' p ':=' m 'in' k" := (bind m (fun p => k))
  (at level 10, p strict pattern, m at level 100, k at level 200) : m_scope.
Notation "m ;; k" := (bind m (fun _ => k))
  (at level 100, k at level 200, right associativity) : m_scope.

Section Program.

Context `{Framework}.

Local Open Scope m_scope.

(** A [for] loop over a list, threading the variables the body assigns. *)
Fixpoint for_each {X S : Type} (body : X -> S -> M S) (xs : list X) (s : S)
  : M S :=
  match xs with
  | [] => ret s
  | x :: rest => let! s' := body x s in for_each body rest s'
  end.

(** [enumerate(l)] *)
Definition enumerate {X : Type} (l : list X) : list (nat * X) :=
  zip (seq 0 (List.length l)) l.

(** [range(a, b)] *)
Definition range (a b : Z) : list Z := seqZ a (b - a).

(** *** Output, TensorBoard, clock *)

Definition print (m : msg) : M unit :=
  modify (set_stdout (fun out => out ++ [m])).

(** [os.path.isfile(path)] *)
Definition isfile (path : string) (w : World) : bool :=
  bool_decide (is_Some (files w !! path)).

(** [os.path.exists(path)].  Directories are recorded with the trailing
    ["/"] with which [save_checkpoint] names them. *)
Definition path_exists (path : string) (w : World) : bool :=
  bool_decide (path ∈ dirs w) || isfile path w.

(** The events file of the logger of [logdir]. *)
Definition events_path (logdir : string) : string :=
  logdir +:+ "/" +:+ events_file.

(** [configure(logdir)] of tensorboard_logger: sets the default logger,
    once.  The logger makes its directory when there is none and opens a
    fresh events file in it; these are calls of the library, not of the
    script, and [fs_log] does not list them. *)
Definition configure (logdir : string) : M unit :=
  fun w =>
    match tb_dir w with
    | Some _ => (inl ValueError, w)
    | None =>
        let directory := logdir +:+ "/" in
        (inr tt,
         set_tb_dir (Some logdir)
           (set_files (fun fs => <[events_path logdir := Other]> fs)
              (set_dirs (fun d => if path_exists directory w then d
                                  else d ∪ {[directory]}) w)))
    end.

(** [log_value(name, value, step)]: needs the default logger. *)
Definition log_value (name : string) (value : Q) (step : Z) : M unit :=
  fun w =>
    match tb_dir w with
    | None => (inl ValueError, w)
    | Some _ => (inr tt, set_tb_log (fun l => l ++ [(name, value, step)]) w)
    end.

(** [time.time()] *)
Definition time_time : M Q :=
  fun w => (inr (time_at (clock w)), set_clock S w).

(** *** Files *)

(** [os.makedirs(directory)] *)
Definition makedirs (directory : string) : M unit :=
  modify (fun w =>
    set_fs_log (fun l => l ++ [OpMakedirs directory])
      (set_dirs (fun d => d ∪ {[directory]}) w)).

(** [torch.save(state, path)] *)
Definition torch_save (state : Checkpoint) (path : string) : M unit :=
  modify (fun w =>
    set_fs_log (fun l => l ++ [OpSave path state])
      (set_files (fun fs => <[path := Pickled state]> fs) w)).

(** [torch.load(path)] *)
Definition torch_load (path : string) : M Checkpoint :=
  fun w =>
    match files w !! path with
    | Some (Pickled c) => (inr c, w)
    | Some Other => (inl UnpicklingError, w)
    | None => (inl FileNotFoundError, w)
    end.

(** [shutil.copyfile(src, dst)] *)
Definition copyfile (src dst : string) : M unit :=
  fun w =>
    match files w !! src with
    | Some f =>
        (inr tt,
         set_fs_log (fun l => l ++ [OpCopyfile src dst])
           (set_files (fun fs => <[dst := f]> fs) w))
    | None => (inl FileNotFoundError, w)
    end.

Definition checkpoint_dir (name : string) : string := "runs/" +:+ name +:+ "/".

Definition save_checkpoint (state : Checkpoint) (is_best : bool)
  (filename : string) : M unit :=
  let! a := gets args in
  let directory := checkpoint_dir (Args.name a) in
  let! found := gets (path_exists directory) in
  (if negb found then makedirs directory else ret tt) ;;
  let filename := directory +:+ filename in
  torch_save state filename ;;
  if is_best
  then copyfile filename (checkpoint_dir (Args.name a) +:+ "model_best.pth.tar")
  else ret tt.

(** *** The learning-rate schedule *)

(** [0.2 ** int(epoch >= t)], with exact numbers; [Binary.decay] is the
    binary64 factor. *)
Definition decay (epoch t : Z) : Q := (0.2 ^ Z.b2z (epoch >=? t))%Q.

Definition adjust_learning_rate (optimizer : Optimizer Buffers) (epoch : Z)
  : M (Optimizer Buffers) :=
  let! a := gets args in
  let lr := (Args.lr a * (decay epoch 60 * decay epoch 120 * decay epoch 160))%Q in
  (if Args.tensorboard a then log_value "learning_rate" lr epoch else ret tt) ;;
  ret (MkOptimizer
         (map (fun param_group => <["lr" := HFloat lr]> param_group)
              (param_groups optimizer))
         (buffers optimizer)).

(** *** One pass over a loader *)

(** [res[0]] *)
Definition first_item {A : Type} (l : list A) : Res A :=
  match l with
  | x :: _ => inr x
  | [] => inl IndexError
  end.

Definition shown (m : AverageMeter.t) : Q * Q :=
  (AverageMeter.val m, AverageMeter.avg m).

(** The variables of the loop of [train]. *)
Record train_vars : Type := TrainVars {
  tr_model : Model;
  tr_optimizer : Optimizer Buffers;
  tr_batch_time : AverageMeter.t;
  tr_losses : AverageMeter.t;
  tr_top1 : AverageMeter.t;
  tr_end : Q
}.

Definition train_batch (epoch : Z) (len : nat)
  (item : nat * (list Sample * list Z)) (v : train_vars) : M train_vars :=
  let '(i, (input, target)) := item in
  let model := tr_model v in
  let optimizer := tr_optimizer v in
  let '(output, sd) := forward (state_dict model) (training model) input in
  let loss := criterion output target in
  let! res := lift (accuracy output target [1]) in
  let! prec1 := lift (first_item res) in
  let size0 := Z.of_nat (List.length input) in
  let! losses := lift (AverageMeter.update (tr_losses v) loss size0) in
  let! top1 := lift (AverageMeter.update (tr_top1 v) prec1 size0) in
  let g := zero_grad (grads model) in
  let g := backward sd input target g in
  let '(sd, buf) := sgd_step (param_groups optimizer) (buffers optimizer) sd g in
  let model := MkModel sd g (training model) in
  let optimizer := MkOptimizer (param_groups optimizer) buf in
  let! now := time_time in
  let! batch_time :=
    lift (AverageMeter.update (tr_batch_time v) (now - tr_end v)%Q 1) in
  let! end_ := time_time in
  let! a := gets args in
  (if Args.print_freq a =? 0 then raise ZeroDivisionError
   else if Z.of_nat i mod Args.print_freq a =? 0
        then print (MsgTrain epoch i len (shown batch_time) (shown losses)
                             (shown top1))
        else ret tt) ;;
  ret (TrainVars model optimizer batch_time losses top1 end_).

Definition train (model : Model) (optimizer : Optimizer Buffers) (epoch : Z)
  : M (Model * Optimizer Buffers) :=
  let model := MkModel (state_dict model) (grads model) true in
  let! end_ := time_time in
  let! a := gets args in
  let batches := train_loader a epoch in
  let! v := for_each (train_batch epoch (List.length batches)) (enumerate batches)
              (TrainVars model optimizer AverageMeter.reset AverageMeter.reset
                         AverageMeter.reset end_) in
  (if Args.tensorboard a
   then log_value "train_loss" (AverageMeter.avg (tr_losses v)) epoch ;;
        log_value "train_acc" (AverageMeter.avg (tr_top1 v)) epoch
   else ret tt) ;;
  ret (tr_model v, tr_optimizer v).

(** The variables of the loop of [validate]. *)
Record val_vars : Type := ValVars {
  va_model : Model;
  va_batch_time : AverageMeter.t;
  va_losses : AverageMeter.t;
  va_top1 : AverageMeter.t;
  va_end : Q
}.

Definition validate_batch (len : nat)
  (item : nat * (list Sample * list Z)) (v : val_vars) : M val_vars :=
  let '(i, (input, target)) := item in
  let model := va_model v in
  let '(output, sd) := forward (state_dict model) (training model) input in
  let model := MkModel sd (grads model) (training model) in
  let loss := criterion output target in
  let! res := lift (accuracy output target [1]) in
  let! prec1 := lift (first_item res) in
  let size0 := Z.of_nat (List.length input) in
  let! losses := lift (AverageMeter.update (va_losses v) loss size0) in
  let! top1 := lift (AverageMeter.update (va_top1 v) prec1 size0) in
  let! now := time_time in
  let! batch_time :=
    lift (AverageMeter.update (va_batch_time v) (now - va_end v)%Q 1) in
  let! end_ := time_time in
  let! a := gets args in
  (if Args.print_freq a =? 0 then raise ZeroDivisionError
   else if Z.of_nat i mod Args.print_freq a =? 0
        then print (MsgTest i len (shown batch_time) (shown losses) (shown top1))
        else ret tt) ;;
  ret (ValVars model batch_time losses top1 end_).

(** The loop of [validate], from fresh meters. *)
Definition validate_loop (model : Model) (epoch : Z) : M val_vars :=
  let! end_ := time_time in
  let! a := gets args in
  let batches := val_loader a epoch in
  for_each (validate_batch (List.length batches)) (enumerate batches)
    (ValVars model AverageMeter.reset AverageMeter.reset AverageMeter.reset end_).

(** [validate] returns [top1.avg]; the model is returned too, as
    [model.eval()] and the forward passes have left it. *)
Definition validate (model : Model) (epoch : Z) : M (Q * Model) :=
  let model := MkModel (state_dict model) (grads model) false in
  let! v := validate_loop model epoch in
  print (MsgPrec1 (AverageMeter.avg (va_top1 v))) ;;
  let! a := gets args in
  (if Args.tensorboard a
   then log_value "val_loss" (AverageMeter.avg (va_losses v)) epoch ;;
        log_value "val_acc" (AverageMeter.avg (va_top1 v)) epoch
   else ret tt) ;;
  ret (AverageMeter.avg (va_top1 v), va_model v).

(** *** main *)

(** [model.load_state_dict(sd)] *)
Definition load_state_dict (model : Model) (sd : StateDict) : Model :=
  MkModel sd (grads model) (training model).

(** The block [if args.resume: ...] of [main]. *)
Definition resume_checkpoint (model : Model) : M Model :=
  let! a := gets args in
  if negb (String.eqb (Args.resume a) "")
  then
    let! found := gets (isfile (Args.resume a)) in
    if found
    then
      print (MsgLoading (Args.resume a)) ;;
      let! checkpoint := torch_load (Args.resume a) in
      modify (set_args (fun a => Args.set_start_epoch a (ck_epoch checkpoint))) ;;
      modify (set_best_prec1 (ck_best_prec1 checkpoint)) ;;
      let model := load_state_dict model (ck_state_dict checkpoint) in
      print (MsgLoaded (Args.resume a) (ck_epoch checkpoint)) ;;
      ret model
    else
      print (MsgNoCheckpoint (Args.resume a)) ;;
      ret model
  else ret model.

(** [torch.optim.SGD(model.parameters(), lr, momentum=..., nesterov=...,
    weight_decay=...)]: one parameter group with the options as defaults. *)
Definition SGD (lr momentum : Q) (nesterov : bool) (weight_decay : Q)
  : Optimizer Buffers :=
  MkOptimizer
    [ <["lr" := HFloat lr]>
      (<["momentum" := HFloat momentum]>
      (<["dampening" := HFloat 0]>
      (<["weight_decay" := HFloat weight_decay]>
      (<["nesterov" := HBool nesterov]> ∅)))) ]
    no_buffers.

(** The body of the loop [for epoch in range(args.start_epoch, args.epochs)]. *)
Definition epoch_body (epoch : Z) (s : Model * Optimizer Buffers)
  : M (Model * Optimizer Buffers) :=
  let '(model, optimizer) := s in
  let! optimizer := adjust_learning_rate optimizer (epoch + 1) in
  let! ' (model, optimizer) := train model optimizer epoch in
  let! ' (prec1, model) := validate model epoch in
  let! best := gets best_prec1 in
  let is_best := Qltb best prec1 in
  modify (set_best_prec1 (py_max2 prec1 best)) ;;
  let! best := gets best_prec1 in
  save_checkpoint (MkCheckpoint (epoch + 1) (state_dict model) best) is_best
                  "checkpoint.pth.tar" ;;
  ret (model, optimizer).

(** The loop over a list of epochs. *)
Definition epoch_loop (epochs : list Z) (s : Model * Optimizer Buffers)
  : M (Model * Optimizer Buffers) :=
  for_each epoch_body epochs s.

(** [main] after the resume block: the optimizer, the loop, the last line. *)
Definition main_from (model : Model) : M unit :=
  let! a := gets args in
  let optimizer :=
    SGD (Args.lr a) (Args.momentum a) (Args.nesterov a) (Args.weight_decay a) in
  epoch_loop (range (Args.start_epoch a) (Args.epochs a)) (model, optimizer) ;;
  let! best := gets best_prec1 in
  print (MsgBestAccuracy best).

(** The network [main] constructs. *)
Definition fresh_model (a : Args.t) : Model :=
  MkModel
    (WideResNet (Args.layers a)
                (if String.eqb (Args.dataset a) "cifar10" then 10 else 100)
                (Args.widen_factor a) (Args.droprate a) (Args.batchnorm a)
                (Args.fixup a))
    no_grad true.

Definition main : M unit :=
  let! a := gets args in
  (if Args.tensorboard a then configure ("runs/" +:+ Args.name a) else ret tt) ;;
  (if String.eqb (Args.dataset a) "cifar10" || String.eqb (Args.dataset a) "cifar100"
   then ret tt else raise AssertionError) ;;
  let model := fresh_model a in
  print (MsgNumParams (nelement (state_dict model))) ;;
  let! model := resume_checkpoint model in
  main_from model.

End Program.

(** ** Notions of the specification *)

(** The learning-rate multiplier of the specification, by epoch number,
    as an exact number. *)
Definition schedule (e : Z) : Q :=
  if e <? 60 then 1%Q
  else if e <? 120 then 0.2%Q
  else if e <? 160 then 0.04%Q
  else 0.008%Q.

(** The TensorBoard logger is configured whenever the flag asks for it;
    [main] configures it first thing. *)
Definition tb_ready `{Framework} (w : World) : Prop :=
  Args.tensorboard (args w) = true -> is_Some (tb_dir w).

Section Notions.

Context `{Framework}.

(** The two files of a run. *)
Definition checkpoint_path (name : string) : string :=
  checkpoint_dir name +:+ "checkpoint.pth.tar".

Definition best_path (name : string) : string :=
  checkpoint_dir name +:+ "model_best.pth.tar".

(** The validation accuracies a run has reported: the values of its
    [" * Prec@1"] lines, which [validate] prints once per call. *)
Definition val_accuracies (out : list msg) : list Q :=
  omap (fun m => match m with MsgPrec1 a => Some a | _ => None end) out.

(** What a pass over a loader may change of the world: it prints lines,
    reads the clock and logs to TensorBoard; [accs] are the validation
    accuracies among the printed lines. *)
Record quiet (accs : list Q) (w w' : World) : Prop := Quiet {
  quiet_args : args w' = args w;
  quiet_best_prec1 : best_prec1 w' = best_prec1 w;
  quiet_files : files w' = files w;
  quiet_dirs : dirs w' = dirs w;
  quiet_fs_log : fs_log w' = fs_log w;
  quiet_tb_dir : tb_dir w' = tb_dir w;
  quiet_stdout :
    exists out : list msg,
      stdout w' = stdout w ++ out /\ val_accuracies out = accs
}.

(** A batch the framework handles: the network gives one row of scores per
    label, over at least one class, and the batch is not empty. *)
Definition wf_batch (sd : StateDict) (mode : bool) (b : list Sample * list Z)
  : bool :=
  let output := (forward sd mode b.1).1 in
  wf_scores output
  && (List.length b.2 =? List.length (rows output))%nat
  && (1 <=? ncols output)%nat
  && (0 <? List.length b.2)%nat
  && (0 <? List.length b.1)%nat.

(** The loaders yield only such batches, whatever the parameters. *)
Definition wf_loaders (a : Args.t) : Prop :=
  forall (sd : StateDict) (mode : bool) (epoch : Z) (b : list Sample * list Z),
    b ∈ train_loader a epoch \/ b ∈ val_loader a epoch ->
    wf_batch sd mode b = true.

(** [m] is a maximum of the list [l], up to equality of rationals. *)
Definition is_max (m : Q) (l : list Q) : Prop :=
  Exists (fun x => (x == m)%Q) l /\ Forall (fun x => (x <= m)%Q) l.

(** A computation moves the world along [R] and raises only exceptions
    of [E]. *)
Definition steps (R : relation World) (E : exn -> Prop) {A : Type} (m : M A)
  : Prop :=
  forall (w : World) (r : Res A) (w' : World),
    m w = (r, w') -> R w w' /\ (forall e : exn, r = inl e -> E e).

Definition not_assertion (e : exn) : Prop := e ≠ AssertionError.

(** A meter fed with non-negative values and weights. *)
Definition meter_nonneg (m : AverageMeter.t) : Prop :=
  (0 <= AverageMeter.avg m)%Q /\ (0 <= AverageMeter.sum m)%Q
  /\ 0 <= AverageMeter.count m.

(** A world in which the passes run to their end: well-formed batches, a
    print frequency that can be divided by, a configured logger. *)
Definition runnable (w : World) : Prop :=
  wf_loaders (args w) /\ Args.print_freq (args w) ≠ 0 /\ tb_ready w.

(** The computation returns, in the given world. *)
Definition returns {A : Type} (m : M A) (w : World) : Prop :=
  exists (a : A) (w' : World), m w = (inr a, w').

(** The invariant of the loops over the batches: the counts of the three
    meters. *)
Definition counts_nonneg (bt l t : AverageMeter.t) : Prop :=
  0 <= AverageMeter.count bt /\ 0 <= AverageMeter.count l
  /\ 0 <= AverageMeter.count t.

(** The world may end up anywhere: used where only the exceptions matter. *)
Definition anywhere : relation World := fun _ _ => True.

(** The world after the first statement of [main]: the logger is
    configured if the flag asks for it. *)
Definition configured (a : Args.t) (fs : gmap string file) (ds : gset string)
  : World :=
  if Args.tensorboard a
  then (configure ("runs/" +:+ Args.name a) (initial_world a fs ds)).2
  else initial_world a fs ds.

Definition valid_dataset (a : Args.t) : Prop :=
  Args.dataset a = "cifar10" \/ Args.dataset a = "cifar100".

(** The running statistics among the variables of the two loops. *)
Definition train_statistics (v : train_vars)
  : AverageMeter.t * AverageMeter.t * AverageMeter.t * Q :=
  (tr_batch_time v, tr_losses v, tr_top1 v, tr_end v).

Definition val_statistics (v : val_vars)
  : AverageMeter.t * AverageMeter.t * AverageMeter.t * Q :=
  (va_batch_time v, va_losses v, va_top1 v, va_end v).

Definition res_map {A B : Type} (f : A -> B) (r : Res A) : Res B :=
  match r with
  | inl e => inl e
  | inr a => inr (f a)
  end.

End Notions.

(** Three samples over three classes; the label of the second sample ties
    with class 0 and is listed second. *)
Definition sample_scores : scores :=
  Scores 3 [[0.1; 0.7; 0.2]; [0.5; 0.5; 0.1]; [0.1; 0.2; 0.9]]%Q.

(** The same without equal scores in a row. *)
Definition distinct_scores : scores :=
  Scores 3 [[0.1; 0.7; 0.2]; [0.5; 0.4; 0.1]; [0.1; 0.2; 0.9]]%Q.

(** ** A small instance of the framework

    A two-class network whose state is an integer [p], whose samples are
    rationals [x] and whose score rows are [[x; 1 - x + p / 20]]; a forward
    pass in training mode lowers [p] by one, an optimizer step by the
    gradient.  Used to run the script on concrete inputs. *)

Definition toy_batches : list (list Q * list Z) :=
  [ ([0.9; 0.2; 0.7]%Q, [0; 1; 1]); ([0.4]%Q, [1]) ].

Definition toy : Framework := {|
  StateDict := Z;
  Grad := Z;
  Buffers := unit;
  Sample := Q;
  WideResNet := fun _ _ _ _ _ _ => 0;
  nelement := fun _ => 1;
  forward := fun p mode xs =>
    (Scores 2 (map (fun x => [x; 1 - x + inject_Z p / 20]%Q) xs),
     if mode then p - 1 else p);
  criterion := fun _ _ => 1%Q;
  no_grad := 0;
  zero_grad := fun _ => 0;
  backward := fun _ _ _ g => g + 1;
  no_buffers := tt;
  sgd_step := fun _ b sd g => (sd - g, b);
  train_loader := fun _ _ => toy_batches;
  val_loader := fun _ _ => toy_batches;
  time_at := fun n => inject_Z (Z.of_nat n);
  events_file := "events.out.tfevents.0.toy";
  events_file_name := eq_refl;
  forward_eval := fun _ _ => eq_refl
|}.

(** Three epochs of the toy run. *)
Definition toy_args : Args.t :=
  Args.Make "cifar10" 3 0 128 0.1 0.9 true 0.0005 10 28 10 true true 0 false 1
            16 true "" "toy" false.

(** A run named "toy" saves after its fifth epoch; a later run resumes from
    the file. *)
Definition toy_record : Checkpoint (H := toy) := MkCheckpoint (H := toy) 5 (-10) 75.

Definition toy_resume_args : Args.t :=
  Args.Make "cifar10" 8 0 128 0.1 0.9 true 0.0005 10 28 10 true true 0 false 1
            16 true "runs/toy/checkpoint.pth.tar" "toy" false.


Definition toy_invalid_args : Args.t :=
  Args.Make "imagenet" 3 0 128 0.1 0.9 true 0.0005 10 28 10 true true 0 false 1
            16 true "" "toy" true.

(** ** Further notions *)

(** The scores with a function applied to every entry. *)
Definition map_scores (f : Q -> Q) (output : scores) : scores :=
  Scores (ncols output) (map (map f) (rows output)).

(** One batch of [train] as it bears on the parameters: the forward pass in
    training mode, the gradient of the loss from cleared buffers, the
    optimizer step with the options [groups]. *)
Definition sgd_batch `{Framework} (groups : list (gmap string hyper))
  (s : StateDict * Grad * Buffers) (b : list Sample * list Z)
  : StateDict * Grad * Buffers :=
  let sd := (forward s.1.1 true b.1).2 in
  let g := backward sd b.1 b.2 (zero_grad s.1.2) in
  let step := sgd_step groups s.2 sd g in
  (step.1, g, step.2).

(** The progress lines of [train] among the printed lines: epoch, batch
    index and number of batches of each. *)
Definition train_lines (out : list msg) : list (Z * nat * nat) :=
  omap (fun m => match m with
                 | MsgTrain e i len _ _ _ => Some (e, i, len)
                 | _ => None
                 end) out.

(** The toy run with [--print-freq 0]. *)
Definition toy_print_freq_0 : Args.t :=
  Args.Make "cifar10" 3 0 128 0.1 0.9 true 0.0005 0 28 10 true true 0 false 1
            16 true "" "toy" false.

(** The toy framework with a validation set that has no sample. *)
Definition toy_no_validation : Framework := {|
  StateDict := Z;
  Grad := Z;
  Buffers := unit;
  Sample := Q;
  WideResNet := fun _ _ _ _ _ _ => 0;
  nelement := fun _ => 1;
  forward := fun p mode xs =>
    (Scores 2 (map (fun x => [x; 1 - x + inject_Z p / 20]%Q) xs),
     if mode then p - 1 else p);
  criterion := fun _ _ => 1%Q;
  no_grad := 0;
  zero_grad := fun _ => 0;
  backward := fun _ _ _ g => g + 1;
  no_buffers := tt;
  sgd_step := fun _ b sd g => (sd - g, b);
  train_loader := fun _ _ => toy_batches;
  val_loader := fun _ _ => [];
  time_at := fun n => inject_Z (Z.of_nat n);
  events_file := "events.out.tfevents.0.toy";
  events_file_name := eq_refl;
  forward_eval := fun _ _ => eq_refl
|}.


(** * Properties *)

(** ** AverageMeter *)

Module MeterFacts.
Import AverageMeter.

Lemma update_ok (m : t) (v : Q) (n : Z) :
  count m + n ≠ 0 ->
  update m v n =
    inr (Meter v ((sum m + v * inject_Z n) / inject_Z (count m + n))%Q
               (sum m + v * inject_Z n)%Q (count m + n)).
Proof.
  intros Hne. unfold update, accumulate; simpl.
  destruct (Z.eqb_spec (count m + n) 0); [contradiction | reflexivity].
Qed.






End MeterFacts.

(** ** AverageMeter on floats *)

Module FloatMeterFacts.
Import Binary Binary.AverageMeter.

Lemma float_of_int_finite (n : Z) :
  is_finite (to_float64 n) = true -> float_of_int n = inr (to_float64 n).
Proof. intros Hfin. unfold float_of_int. rewrite Hfin. reflexivity. Qed.

(** One call that divides. *)
Lemma update_divides (m : t) (v : float64) (n : Z) :
  is_finite (to_float64 n) = true ->
  is_finite (to_float64 (count m + n)) = true ->
  count m + n ≠ 0 ->
  update m v n
  = inr (Meter v
           (div64 (add64 (sum m) (mul64 v (to_float64 n)))
                  (to_float64 (count m + n)))
           (add64 (sum m) (mul64 v (to_float64 n)))
           (count m + n)).
Proof.
  intros Hn Hc Hne. unfold update.
  rewrite (float_of_int_finite n Hn). simpl.
  rewrite (float_of_int_finite _ Hc). simpl.
  destruct (Z.eqb_spec (count m + n) 0); [contradiction | reflexivity].
Qed.

(** One call that does not: it raises, one of two exceptions. *)
Lemma update_fails (m : t) (v : float64) (n : Z) :
  is_finite (to_float64 n) && is_finite (to_float64 (count m + n))
  && negb (count m + n =? 0) = false ->
  update m v n = inl ZeroDivisionError \/ update m v n = inl OverflowError.
Proof.
  intros Hno. unfold update, float_of_int.
  destruct (is_finite (to_float64 n)); [| right; reflexivity]. simpl.
  destruct (is_finite (to_float64 (count m + n))); [| right; reflexivity]. simpl.
  simpl in Hno. apply negb_false_iff in Hno. rewrite Hno. left. reflexivity.
Qed.

(** The fields after a non-empty sequence of calls, from any meter. *)
Lemma updates_float_fields (calls : list (float64 * Z)) :
  forall m : t,
    calls ≠ [] -> divisible (count m) calls = true ->
    exists m' : t,
      updates m calls = inr m'
      /\ last (map fst calls) = Some (val m')
      /\ count m' = count m + total_weight calls
      /\ sum m' = running_sum (sum m) calls
      /\ avg m' = div64 (sum m') (to_float64 (count m')).
Proof.
  induction calls as [| [v n] rest IH]; intros m Hne Hdiv; [congruence |].
  simpl in Hdiv.
  apply andb_prop in Hdiv as [Hdiv Hrest].
  apply andb_prop in Hdiv as [Hdiv Hnz].
  apply andb_prop in Hdiv as [Hn Hc].
  apply negb_true_iff, Z.eqb_neq in Hnz.
  cbn [updates]. rewrite (update_divides m v n Hn Hc Hnz). cbn [res_bind].
  destruct rest as [| call rest'].
  - eexists. split; [reflexivity |]. cbn.
    repeat split; try reflexivity. lia.
  - destruct (IH (Meter v
                    (div64 (add64 (sum m) (mul64 v (to_float64 n)))
                           (to_float64 (count m + n)))
                    (add64 (sum m) (mul64 v (to_float64 n)))
                    (count m + n)))
      as (m' & Hrun & Hval & Hcount & Hsum & Havg);
      [discriminate | exact Hrest |].
    exists m'. split; [exact Hrun |].
    split; [exact Hval |].
    split; [rewrite Hcount; cbn [count total_weight]; lia |].
    split; [exact Hsum | exact Havg].
Qed.

(** A sequence with a call that does not divide raises. *)
Lemma updates_float_raise (calls : list (float64 * Z)) :
  forall m : t,
    divisible (count m) calls = false ->
    updates m calls = inl ZeroDivisionError
    \/ updates m calls = inl OverflowError.
Proof.
  induction calls as [| [v n] rest IH]; intros m Hdiv; [discriminate |].
  cbn [divisible] in Hdiv. cbn [updates].
  destruct (is_finite (to_float64 n) && is_finite (to_float64 (count m + n))
            && negb (count m + n =? 0)) eqn:Hhead.
  - apply andb_prop in Hhead as [Hhead Hnz].
    apply andb_prop in Hhead as [Hn Hc].
    apply negb_true_iff, Z.eqb_neq in Hnz.
    rewrite (update_divides m v n Hn Hc Hnz). cbn [res_bind].
    apply IH. cbn [count]. simpl in Hdiv. exact Hdiv.
  - destruct (update_fails m v n Hhead) as [-> | ->]; [left | right]; reflexivity.
Qed.

(** C2.  For float values and int weights: when every weight and every
    cumulative weight converts to a float and no cumulative weight is 0,
    all the calls of a non-empty sequence on a freshly reset meter return,
    and afterwards [val] is the last value, [count] the exact sum of the
    weights, [sum] the running sum of the rounded products in call order,
    and [avg] the rounded quotient of [sum] by [count].  Otherwise a call
    raises [ZeroDivisionError] or [OverflowError]. *)
Theorem running_average (calls : list (float64 * Z)) :
  calls ≠ [] ->
  (divisible 0 calls = true ->
   exists m : t,
     updates reset calls = inr m
     /\ last (map fst calls) = Some (val m)
     /\ count m = total_weight calls
     /\ sum m = running_sum (S754_zero false) calls
     /\ avg m = div64 (sum m) (to_float64 (count m)))
  /\ (divisible 0 calls = false ->
      updates reset calls = inl ZeroDivisionError
      \/ updates reset calls = inl OverflowError).
Proof.
  intros Hne. split; intros Hdiv.
  - destruct (updates_float_fields calls reset Hne Hdiv)
      as (m & Hrun & Hval & Hcount & Hsum & Havg).
    exists m. repeat split; assumption.
  - apply (updates_float_raise calls reset). exact Hdiv.
Qed.

(** Three batches of 2, 3 and 1 samples. *)
Lemma running_average_witness :
  exists m : t,
    updates reset [(float_of_literal 0.25, 2); (float_of_literal 0.5, 3);
                   (float_of_literal 1, 1)] = inr m
    /\ val m = float_of_literal 1
    /\ count m = 6
    /\ sum m = float_of_literal 3
    /\ avg m = float_of_literal 0.5.
Proof.
  destruct (running_average
              [(float_of_literal 0.25, 2); (float_of_literal 0.5, 3);
               (float_of_literal 1, 1)])
    as [Hok _]; [discriminate |].
  destruct (Hok eq_refl) as (m & Hrun & Hval & Hcount & Hsum & Havg).
  exists m. split; [exact Hrun |].
  split; [injection Hval as <-; reflexivity |].
  split; [exact Hcount |].
  split; [rewrite Hsum; vm_compute; reflexivity |].
  rewrite Havg, Hsum, Hcount. vm_compute. reflexivity.
Defined.

(** The claim as it stands fails in two ways.  A weight 0 in the first
    call raises, although the weights sum to 1.  And the fields are
    rounded: three calls with the value 0.1 leave 0.30000000000000004 in
    [sum] and 0.10000000000000002 in [avg], while the weighted mean of the
    three equal values is that value, and the sum of the three products is
    no binary64. *)
Lemma running_average_rounded :
  updates reset [(float_of_literal 5, 0); (float_of_literal 3, 1)]
  = inl ZeroDivisionError
  /\ total_weight [(float_of_literal 5, 0); (float_of_literal 3, 1)] = 1
  /\ (let tenth := float_of_literal 0.1 in
      let calls := [(tenth, 1); (tenth, 1); (tenth, 1)] in
      updates reset calls
      = inr (Meter tenth (float_of_literal 0.10000000000000002)
               (float_of_literal 0.30000000000000004) 3)
      /\ float_of_literal 0.10000000000000002 ≠ tenth
      /\ exists q s : Q,
           value tenth = Some q
           /\ exact_weighted_sum calls = Some s
           /\ (s / inject_Z (total_weight calls) == q)%Q
           /\ value (float_of_literal 0.10000000000000002) ≠ Some q
           /\ value (float_of_literal 0.30000000000000004) ≠ Some s).
Proof.
  split; [vm_compute; reflexivity |].
  split; [reflexivity |].
  cbv zeta.
  split; [vm_compute; reflexivity |].
  split; [vm_compute; discriminate |].
  eexists _, _.
  split; [vm_compute; reflexivity |].
  split; [vm_compute; reflexivity |].
  split; [vm_compute; reflexivity |].
  split; vm_compute; discriminate.
Qed.

End FloatMeterFacts.

(** ** The learning-rate schedule *)

Section Schedule.

Context `{Framework}.

Lemma decay_below (e t : Z) : e < t -> decay e t = 1%Q.
Proof.
  intros Hlt. unfold decay. rewrite Z.geb_leb.
  destruct (Z.leb_spec t e); [lia | reflexivity].
Qed.

Lemma decay_from (e t : Z) : t <= e -> decay e t = 0.2%Q.
Proof.
  intros Hle. unfold decay. rewrite Z.geb_leb.
  destruct (Z.leb_spec t e); [reflexivity | lia].
Qed.

(** The three factors of the source multiply to the multiplier of the
    specification. *)
Lemma decay_product (e : Z) :
  (decay e 60 * decay e 120 * decay e 160 == schedule e)%Q.
Proof.
  unfold schedule.
  destruct (Z.ltb_spec e 60).
  { rewrite !decay_below by lia. reflexivity. }
  destruct (Z.ltb_spec e 120).
  { rewrite decay_from, !decay_below by lia. reflexivity. }
  destruct (Z.ltb_spec e 160).
  { rewrite !decay_from, decay_below by lia. reflexivity. }
  rewrite !decay_from by lia. reflexivity.
Qed.

Lemma log_value_ready (name : string) (value : Q) (step : Z) (w : World) :
  is_Some (tb_dir w) ->
  log_value name value step w
  = (inr tt, set_tb_log (fun l => l ++ [(name, value, step)]) w).
Proof.
  intros [d Hd]. unfold log_value. rewrite Hd. reflexivity.
Qed.

(** [adjust_learning_rate] returns, with the new rate in every group. *)
Lemma adjust_learning_rate_run (w : World) (optimizer : Optimizer Buffers)
  (e : Z) :
  tb_ready w ->
  exists w' : World,
    adjust_learning_rate optimizer e w
    = (inr (MkOptimizer
              (map (fun pg : gmap string hyper =>
                      <["lr" := HFloat (Args.lr (args w)
                                        * (decay e 60 * decay e 120
                                           * decay e 160))%Q]> pg)
                   (param_groups optimizer))
              (buffers optimizer)), w').
Proof.
  intros Hready. unfold adjust_learning_rate, bind, gets, ret.
  destruct (Args.tensorboard (args w)) eqn:Htb.
  - rewrite log_value_ready by (apply Hready; exact Htb). eauto.
  - eauto.
Qed.

End Schedule.

(** ** The learning-rate schedule on floats *)

Section FloatSchedule.
Import Binary.

(** The product of the three factors, as the source brackets it. *)
Lemma decay_float_product (e : Z) :
  mul64 (mul64 (decay e 60) (decay e 120)) (decay e 160) = multiplier e.
Proof.
  unfold decay, multiplier. rewrite !Z.geb_leb.
  destruct (Z.ltb_spec e 60);
    [destruct (Z.leb_spec 60 e); [lia |];
     destruct (Z.leb_spec 120 e); [lia |];
     destruct (Z.leb_spec 160 e); [lia |]; vm_compute; reflexivity |].
  destruct (Z.ltb_spec e 120);
    [destruct (Z.leb_spec 60 e); [| lia];
     destruct (Z.leb_spec 120 e); [lia |];
     destruct (Z.leb_spec 160 e); [lia |]; vm_compute; reflexivity |].
  destruct (Z.ltb_spec e 160);
    [destruct (Z.leb_spec 60 e); [| lia];
     destruct (Z.leb_spec 120 e); [| lia];
     destruct (Z.leb_spec 160 e); [lia |]; vm_compute; reflexivity |].
  destruct (Z.leb_spec 60 e); [| lia].
  destruct (Z.leb_spec 120 e); [| lia].
  destruct (Z.leb_spec 160 e); [| lia]. vm_compute. reflexivity.
Qed.

(** C1.  For every epoch number [e], once the logger is configured if the
    flag asks for it, [adjust_learning_rate] returns and leaves in every
    parameter group the binary64 product of [args.lr] and a multiplier:
    1.0 for e < 60, 0.2 for 60 <= e < 120, 0.04000000000000001 for
    120 <= e < 160 and 0.008000000000000002 for e >= 160.  The last two are
    the rounded products 0.2 * 0.2 and 0.2 * 0.2 * 0.2, one unit in the last
    place above the binary64 numbers 0.04 and 0.008. *)
Theorem adjust_learning_rate_schedule
  (a : Args.t) (param_groups : list (gmap string hyper)) (e : Z) (l : Logger) :
  (Args.tensorboard a = true -> is_Some (tb_dir l)) ->
  exists (param_groups' : list (gmap string hyper)) (l' : Logger) (mult : float64),
    adjust_learning_rate a param_groups e l = inr (param_groups', l')
    /\ List.length param_groups' = List.length param_groups
    /\ (forall param_group : gmap string hyper,
          param_group ∈ param_groups' ->
          param_group !! "lr" = Some (HFloat (mul64 (args_lr a) mult)))
    /\ (e < 60 -> mult = float_of_literal 1)
    /\ (60 <= e < 120 -> mult = float_of_literal 0.2)
    /\ (120 <= e < 160 ->
        mult = float_of_literal 0.04000000000000001
        /\ mult = SFsucc 53 1024 (float_of_literal 0.04))
    /\ (160 <= e ->
        mult = float_of_literal 0.008000000000000002
        /\ mult = SFsucc 53 1024 (float_of_literal 0.008)).
Proof.
  intros Hready.
  assert (Hlog : exists l' : Logger,
             (if Args.tensorboard a
              then log_value "learning_rate"
                     (mul64 (args_lr a) (multiplier e)) e l
              else inr l) = inr l').
  { destruct (Args.tensorboard a) eqn:Htb; [| eauto].
    destruct (Hready eq_refl) as [d Hd]. unfold log_value. rewrite Hd. eauto. }
  destruct Hlog as [l' Hlog].
  eexists _, l', (multiplier e). split.
  { unfold adjust_learning_rate. rewrite decay_float_product, Hlog.
    reflexivity. }
  split; [apply length_map |].
  split.
  { intros pg Hin. apply list_elem_of_fmap in Hin as (pg0 & -> & _).
    apply lookup_insert_eq. }
  unfold multiplier.
  split; [| split; [| split]]; intros He;
    repeat match goal with
           | |- context [?x <? ?y] => destruct (Z.ltb_spec x y); try lia
           end;
    try split; vm_compute; reflexivity.
Qed.

End FloatSchedule.

(** The schedule on the default learning rate 0.1 at epoch 120: the rate
    set is 0.004000000000000001. *)
Lemma adjust_learning_rate_schedule_witness :
  exists (param_groups' : list (gmap string Binary.hyper)) (l' : Binary.Logger),
    Binary.adjust_learning_rate Args.default
      [{["lr" := Binary.HFloat (Binary.float_of_literal 0.1)]}] 120
      (Binary.MkLogger None []) = inr (param_groups', l')
    /\ forall param_group : gmap string Binary.hyper,
         param_group ∈ param_groups' ->
         param_group !! "lr"
         = Some (Binary.HFloat (Binary.float_of_literal 0.004000000000000001)).
Proof.
  destruct (adjust_learning_rate_schedule Args.default
              [{["lr" := Binary.HFloat (Binary.float_of_literal 0.1)]}] 120
              (Binary.MkLogger None []))
    as (groups & l' & mult & Hrun & _ & Hlr & _ & _ & H3 & _).
  - intros Htb. discriminate Htb.
  - exists groups, l'. split; [exact Hrun |].
    intros pg Hin. rewrite (Hlr pg Hin).
    destruct H3 as [-> _]; [lia |]. vm_compute. reflexivity.
Defined.

(** The claim's multipliers are not the ones the code computes: with the
    default rate 0.1 at epoch 120 every group gets 0.004000000000000001,
    while 0.1 * 0.04 is 0.004; at epoch 160 it gets
    0.0008000000000000003, while 0.1 * 0.008 is 0.0008. *)
Lemma adjust_learning_rate_rounded :
  (let rate e :=
     Binary.adjust_learning_rate Args.default
       [{["lr" := Binary.HFloat (Binary.float_of_literal 0.1)]}] e
       (Binary.MkLogger None []) in
   let tenth_of q := Binary.mul64 (Binary.float_of_literal 0.1)
                       (Binary.float_of_literal q) in
   rate 120
   = inr ([{["lr" := Binary.HFloat
                       (Binary.float_of_literal 0.004000000000000001)]}],
          Binary.MkLogger None [])
   /\ tenth_of 0.04%Q = Binary.float_of_literal 0.004
   /\ Binary.float_of_literal 0.004000000000000001
      ≠ Binary.float_of_literal 0.004
   /\ rate 160
      = inr ([{["lr" := Binary.HFloat
                          (Binary.float_of_literal 0.0008000000000000003)]}],
             Binary.MkLogger None [])
   /\ tenth_of 0.008%Q = Binary.float_of_literal 0.0008
   /\ Binary.float_of_literal 0.0008000000000000003
      ≠ Binary.float_of_literal 0.0008).
Proof.
  cbv zeta.
  assert (Hrun : forall e x,
             Binary.mul64 (Binary.args_lr Args.default)
               (Binary.mul64 (Binary.mul64 (Binary.decay e 60) (Binary.decay e 120))
                             (Binary.decay e 160)) = x ->
             Binary.adjust_learning_rate Args.default
               [{["lr" := Binary.HFloat (Binary.float_of_literal 0.1)]}] e
               (Binary.MkLogger None [])
             = inr ([{["lr" := Binary.HFloat x]}], Binary.MkLogger None [])).
  { intros e x Hx. unfold Binary.adjust_learning_rate. rewrite Hx.
    cbn [Args.tensorboard Args.default res_bind map].
    rewrite insert_singleton_eq. reflexivity. }
  split; [apply Hrun; vm_compute; reflexivity |].
  split; [vm_compute; reflexivity |].
  split; [vm_compute; discriminate |].
  split; [apply Hrun; vm_compute; reflexivity |].
  split; [vm_compute; reflexivity |].
  vm_compute. discriminate.
Qed.

(** ** accuracy *)

Section Ranking.

Variable row : list Q.

Lemma Qltb_lt (x y : Q) : Qltb x y = true <-> (x < y)%Q.
Proof.
  unfold Qltb. rewrite negb_true_iff.
  destruct (Qle_bool y x) eqn:Hle.
  - apply Qle_bool_iff in Hle. split; [discriminate | lra].
  - split; [intros _ | reflexivity].
    destruct (Qlt_le_dec x y) as [Hlt | Hge]; [exact Hlt |].
    apply Qle_bool_iff in Hge. congruence.
Qed.

Lemma ranks_before_spec (j l : nat) :
  ranks_before row j l
  <-> (score row l < score row j)%Q
      \/ ((score row j == score row l)%Q /\ (j <= l)%nat).
Proof.
  unfold ranks_before, ranks_beforeb.
  rewrite orb_true_iff, andb_true_iff, Qltb_lt, Qeq_bool_iff, Nat.leb_le.
  reflexivity.
Qed.

#[local] Instance ranks_before_total : Total (ranks_before row).
Proof.
  intros j l. rewrite !ranks_before_spec.
  destruct (Qlt_le_dec (score row l) (score row j)) as [Hlt | Hge]; [auto |].
  destruct (Qlt_le_dec (score row j) (score row l)) as [Hlt | Hge']; [auto |].
  assert (score row j == score row l)%Q by lra.
  destruct (Nat.le_ge_cases j l); [left | right]; right; split;
    try assumption; lra.
Qed.

#[local] Instance ranks_before_trans : Transitive (ranks_before row).
Proof.
  intros a b c. rewrite !ranks_before_spec.
  intros [Hab | [Hab Hle1]] [Hbc | [Hbc Hle2]].
  - left; lra.
  - left; lra.
  - left; lra.
  - right. split; [lra | lia].
Qed.

Lemma ranks_before_antisym (j l : nat) :
  ranks_before row j l -> ranks_before row l j -> j = l.
Proof.
  rewrite !ranks_before_spec.
  intros [H1 | [H1 Hle1]] [H2 | [H2 Hle2]]; try lra. lia.
Qed.

Lemma ranking_perm : ranking row ≡ₚ seq 0 (List.length row).
Proof. apply merge_sort_Permutation. Qed.

Lemma ranking_NoDup : NoDup (ranking row).
Proof. rewrite ranking_perm. apply NoDup_seq. Qed.

Lemma ranking_sorted : StronglySorted (ranks_before row) (ranking row).
Proof. apply StronglySorted_merge_sort; apply _. Qed.

Lemma ranking_length : List.length (ranking row) = List.length row.
Proof. rewrite ranking_perm. apply length_seq. Qed.

Lemma ranking_elem (l : nat) : l ∈ ranking row <-> (l < List.length row)%nat.
Proof. rewrite ranking_perm, elem_of_seq. lia. Qed.

Lemma filter_all {A : Type} (P : A -> Prop) `{forall x, Decision (P x)}
  (l : list A) :
  (forall x, x ∈ l -> P x) -> filter P l = l.
Proof.
  induction l as [| x l IH]; intros Hall; [reflexivity |].
  rewrite filter_cons_True by (apply Hall; left).
  f_equal. apply IH. intros y Hy. apply Hall. right. exact Hy.
Qed.

Lemma filter_none {A : Type} (P : A -> Prop) `{forall x, Decision (P x)}
  (l : list A) :
  (forall x, x ∈ l -> ~ P x) -> filter P l = [].
Proof.
  induction l as [| x l IH]; intros Hnone; [reflexivity |].
  rewrite filter_cons_False by (apply Hnone; left).
  apply IH. intros y Hy. apply Hnone. right. exact Hy.
Qed.

(** The rank of a class is its position in the ranking. *)
Lemma rank_position (s1 s2 : list nat) (l : nat) :
  ranking row = s1 ++ l :: s2 -> rank row l = List.length s1.
Proof.
  intros Hsplit. unfold rank.
  assert (Hperm : seq 0 (List.length row) ≡ₚ s1 ++ l :: s2).
  { rewrite <- Hsplit. symmetry. apply ranking_perm. }
  rewrite Hperm.
  pose proof ranking_NoDup as Hnd. pose proof ranking_sorted as Hss.
  rewrite Hsplit in Hnd, Hss.
  apply NoDup_app in Hnd as (_ & Hdisj & Hnd2).
  apply NoDup_cons in Hnd2 as (Hl2 & _).
  rewrite filter_app, length_app.
  rewrite (filter_all _ s1), (filter_none _ (l :: s2)); [simpl; lia | |].
  - intros j Hj [Hne Hjl].
    apply elem_of_cons in Hj as [-> | Hj]; [congruence |].
    apply Hne. apply ranks_before_antisym; [exact Hjl |].
    apply StronglySorted_app_1_r, StronglySorted_cons in Hss as [Hall _].
    rewrite Forall_forall in Hall. apply Hall. exact Hj.
  - intros j Hj. split.
    + intros ->. apply (Hdisj l Hj). left.
    + eapply StronglySorted_app_1_elem_of; [exact Hss | exact Hj | left].
Qed.

(** A class is among the first [k] of the ranking exactly when its rank is
    below [k]. *)
Lemma elem_of_take_ranking (k l : nat) :
  l ∈ take k (ranking row) <-> (l < List.length row)%nat /\ (rank row l < k)%nat.
Proof.
  split.
  - intros Hin.
    assert (Hl : l ∈ ranking row) by (eapply subseteq_take; exact Hin).
    split; [apply ranking_elem; exact Hl |].
    apply list_elem_of_split in Hl as (s1 & s2 & Hsplit).
    rewrite (rank_position _ _ _ Hsplit).
    destruct (Nat.lt_ge_cases (List.length s1) k) as [Hlt | Hge]; [exact Hlt |].
    exfalso. rewrite Hsplit, take_app_le in Hin by exact Hge.
    pose proof ranking_NoDup as Hnd. rewrite Hsplit in Hnd.
    apply NoDup_app in Hnd as (_ & Hdisj & _).
    apply (Hdisj l); [eapply subseteq_take; exact Hin | left].
  - intros [Hlt Hrank].
    apply ranking_elem, list_elem_of_split in Hlt as (s1 & s2 & Hsplit).
    rewrite (rank_position _ _ _ Hsplit) in Hrank.
    rewrite Hsplit, take_app_ge by lia.
    apply elem_of_app. right.
    destruct (k - List.length s1)%nat eqn:Hk; [lia |]. left.
Qed.

End Ranking.

Section Counting.

Lemma count_true_app (l1 l2 : list bool) :
  count_true (l1 ++ l2) = (count_true l1 + count_true l2)%nat.
Proof. induction l1 as [| b l1 IH]; simpl; [reflexivity | rewrite IH; lia]. Qed.

Lemma count_true_concat_map {A : Type} (F : A -> list bool) (L : list A) :
  count_true (concat (map F L)) = sum_list_with (fun c => count_true (F c)) L.
Proof.
  induction L as [| c L IH]; simpl; [reflexivity |].
  rewrite count_true_app, IH. reflexivity.
Qed.

Lemma sum_list_with_add {A : Type} (f g : A -> nat) (L : list A) :
  sum_list_with (fun x => (f x + g x)%nat) L
  = (sum_list_with f L + sum_list_with g L)%nat.
Proof. induction L as [| x L IH]; simpl; [reflexivity | rewrite IH; lia]. Qed.

Lemma sum_list_with_zero {A : Type} (L : list A) :
  sum_list_with (fun _ => 0%nat) L = 0%nat.
Proof. induction L as [| x L IH]; simpl; [reflexivity | exact IH]. Qed.

Lemma sum_list_with_indicator {A : Type} (g : A -> bool) (L : list A) :
  sum_list_with (fun c => if g c then 1%nat else 0%nat) L = count_true (map g L).
Proof. induction L as [| x L IH]; simpl; [reflexivity | rewrite IH; reflexivity]. Qed.

(** Counting a matrix of comparisons row by row or column by column. *)
Lemma count_swap {A B : Type} (g : nat -> A -> B -> bool) (L : list nat)
  (P : list A) :
  forall T : list B,
    sum_list_with (fun c => count_true (zip_with (g c) P T)) L
    = sum_list_with (fun x => count_true (map (fun c => g c x.1 x.2) L))
                    (zip P T).
Proof.
  induction P as [| r P IH]; intros T.
  - simpl. apply sum_list_with_zero.
  - destruct T as [| t T]; simpl.
    + apply sum_list_with_zero.
    + rewrite sum_list_with_add, sum_list_with_indicator, IH. reflexivity.
Qed.

(** In a list without duplicates at most one entry equals the label. *)
Lemma count_matches (s : list nat) (t : Z) :
  NoDup s ->
  count_true (map (fun p : nat => Z.of_nat p =? t) s)
  = if bool_decide (0 <= t /\ Z.to_nat t ∈ s) then 1%nat else 0%nat.
Proof.
  induction s as [| p s IH]; intros Hnd.
  - simpl. rewrite bool_decide_eq_false_2; [reflexivity |].
    intros [_ Hin]. inversion Hin.
  - apply NoDup_cons in Hnd as [Hp Hnd]. simpl. rewrite (IH Hnd).
    destruct (Z.eqb_spec (Z.of_nat p) t) as [Heq | Hne].
    + subst t. rewrite Nat2Z.id.
      rewrite (bool_decide_eq_false_2 (_ /\ p ∈ s)) by tauto.
      rewrite bool_decide_eq_true_2; [reflexivity |]. split; [lia | left].
    + simpl.
      rewrite (bool_decide_ext (0 <= t /\ Z.to_nat t ∈ s)
                 (0 <= t /\ Z.to_nat t ∈ p :: s)); [reflexivity |]. split.
      * intros [Ht Hin]. split; [exact Ht | right; exact Hin].
      * intros [Ht Hin]. split; [exact Ht |].
        apply elem_of_cons in Hin as [Heq | Hin]; [lia | exact Hin].
Qed.

Lemma map_nth_seq {A : Type} (d : A) (r : list A) (k : nat) :
  (k <= List.length r)%nat ->
  map (fun c => nth c r d) (seq 0 k) = take k r.
Proof.
  revert k. induction r as [| x r IH]; intros k Hk; simpl in Hk.
  - assert (k = 0%nat) as -> by lia. reflexivity.
  - destruct k as [| k]; [reflexivity |]. simpl.
    rewrite <- seq_shift, map_map. f_equal. apply IH. lia.
Qed.

(** The entries of one sample in the first [k] rows of [correct] hold one
    [True] exactly when the label is among the [k] highest-scoring
    classes. *)
Lemma sample_hits (maxk k : nat) (row : list Q) (t : Z) :
  (k <= maxk)%nat -> (maxk <= List.length row)%nat ->
  count_true
    (map (fun c => Z.of_nat (nth c (topk_row maxk row) 0%nat) =? t) (seq 0 k))
  = if in_top_k k row t then 1%nat else 0%nat.
Proof.
  intros Hk Hmax.
  transitivity
    (count_true
       (map (fun p : nat => Z.of_nat p =? t)
            (map (fun c => nth c (topk_row maxk row) 0%nat) (seq 0 k)))).
  { rewrite map_map. reflexivity. }
  assert (Hlen : List.length (topk_row maxk row) = maxk).
  { unfold topk_row. rewrite length_take.
    rewrite ranking_length. lia. }
  rewrite map_nth_seq by lia.
  unfold topk_row. rewrite take_take, Nat.min_l by exact Hk.
  rewrite count_matches.
  2:{ eapply sublist_NoDup; [apply ranking_NoDup | apply sublist_take]. }
  unfold in_top_k.
  destruct (Z.leb_spec 0 t) as [Ht | Ht]; simpl.
  - destruct (bool_decide _) eqn:Hdec.
    + apply bool_decide_eq_true in Hdec as [_ Hin].
      apply elem_of_take_ranking in Hin as [Hlt Hrank].
      apply Nat.ltb_lt in Hlt, Hrank. rewrite Hlt, Hrank. reflexivity.
    + apply bool_decide_eq_false in Hdec.
      destruct (_ <? _)%nat eqn:Hlt; [| reflexivity]. simpl.
      destruct (rank _ _ <? _)%nat eqn:Hrank; [| reflexivity].
      exfalso. apply Hdec. split; [exact Ht |].
      apply elem_of_take_ranking. apply Nat.ltb_lt in Hlt, Hrank. auto.
  - rewrite bool_decide_eq_false_2; [reflexivity | lia].
Qed.

End Counting.

Section AccuracyFacts.

Lemma res_mapM_inr {A B : Type} (f : A -> Res B) (g : A -> B) (l : list A) :
  (forall x, x ∈ l -> f x = inr (g x)) -> res_mapM f l = inr (map g l).
Proof.
  induction l as [| x l IH]; intros Hf; simpl; [reflexivity |].
  rewrite (Hf x) by left. simpl. rewrite IH; [reflexivity |].
  intros y Hy. apply Hf. right. exact Hy.
Qed.

Lemma fold_left_max_spec (r : list Z) :
  forall x : Z,
    x <= fold_left Z.max r x
    /\ Forall (fun k => k <= fold_left Z.max r x) r
    /\ fold_left Z.max r x ∈ x :: r.
Proof.
  induction r as [| y r IH]; intros x; simpl.
  - split; [lia |]. split; [constructor | left].
  - destruct (IH (Z.max x y)) as (Hge & Hall & Hin).
    split; [lia |]. split; [constructor; [lia | exact Hall] |].
    apply elem_of_cons in Hin as [Heq | Hin].
    + rewrite Heq. destruct (Z.max_spec x y) as [[_ ->] | [_ ->]];
        [right; left | left].
    + right. right. exact Hin.
Qed.

Lemma py_max_spec (l : list Z) :
  l ≠ [] ->
  exists m : Z, py_max l = inr m /\ Forall (fun k => k <= m) l /\ m ∈ l.
Proof.
  destruct l as [| x r]; [congruence | intros _].
  destruct (fold_left_max_spec r x) as (Hge & Hall & Hin).
  exists (fold_left Z.max r x). split; [reflexivity |].
  split; [constructor; assumption | exact Hin].
Qed.

Lemma omap_lookup_nth {A : Type} (d : A) (c : nat) (m : list (list A)) :
  Forall (fun r => (c < List.length r)%nat) m ->
  omap (fun r : list A => r !! c) m = map (fun r => nth c r d) m.
Proof.
  induction 1 as [| r m Hr _ IH]; [reflexivity |].
  change (omap (fun r : list A => r !! c) (r :: m))
    with (match r !! c with
          | Some y => y :: omap (fun r : list A => r !! c) m
          | None => omap (fun r : list A => r !! c) m
          end).
  destruct (nth_lookup_or_length r c d) as [Hnth | Hlen]; [| lia].
  rewrite Hnth, IH. reflexivity.
Qed.

Lemma zip_with_map_replicate {A B C D : Type} (f : B -> C -> D) (g : A -> B)
  (L : list A) (y : C) :
  zip_with f (map g L) (replicate (List.length L) y) = map (fun c => f (g c) y) L.
Proof. induction L as [| c L IH]; simpl; [reflexivity | rewrite IH; reflexivity]. Qed.

(** The matrix [correct] of [accuracy], row by row. *)
Lemma correct_rows (maxk : nat) (pred : list (list nat)) (target : list Z) :
  Forall (fun r => List.length r = maxk) pred ->
  zip_with (zip_with (fun (p : nat) (t : Z) => Z.of_nat p =? t))
           (transpose maxk pred) (replicate maxk target)
  = map (fun c =>
           zip_with (fun (r : list nat) (t : Z) => Z.of_nat (nth c r 0%nat) =? t)
                    pred target)
        (seq 0 maxk).
Proof.
  intros Hlen. unfold transpose.
  pose proof (zip_with_map_replicate
                (zip_with (fun (p : nat) (t : Z) => Z.of_nat p =? t))
                (fun c => omap (fun r : list nat => r !! c) pred)
                (seq 0 maxk) target) as Hzip.
  rewrite length_seq in Hzip. rewrite Hzip. clear Hzip.
  apply map_ext_in. intros c Hc%in_seq.
  rewrite (omap_lookup_nth 0%nat).
  - rewrite zip_with_fmap_l. reflexivity.
  - eapply Forall_impl; [exact Hlen |]. simpl. intros r ->. lia.
Qed.

Lemma hits_by_sample (maxk k : nat) (rows : list (list Q)) :
  (k <= maxk)%nat ->
  Forall (fun r => (maxk <= List.length r)%nat) rows ->
  forall target : list Z,
    sum_list_with
      (fun x : list nat * Z =>
         count_true (map (fun c => Z.of_nat (nth c x.1 0%nat) =? x.2) (seq 0 k)))
      (zip (map (topk_row maxk) rows) target)
    = count_true (zip_with (in_top_k k) rows target).
Proof.
  intros Hk. induction 1 as [| row rows Hrow _ IH]; intros target.
  - reflexivity.
  - destruct target as [| t target]; [reflexivity |]. simpl.
    rewrite IH, sample_hits by assumption. reflexivity.
Qed.

(** The number of [True] in the first [k] rows of [correct] is the number
    of samples whose label is among the [k] highest-scoring classes. *)
Lemma correct_count (output : scores) (target : list Z) (maxk k : nat) :
  wf_scores output = true ->
  (k <= maxk)%nat -> (maxk <= ncols output)%nat ->
  count_true
    (concat
       (take k
          (zip_with (zip_with (fun (p : nat) (t : Z) => Z.of_nat p =? t))
             (transpose maxk (map (topk_row maxk) (rows output)))
             (replicate maxk target))))
  = hits k output target.
Proof.
  intros Hwf Hk Hmax.
  assert (Hrows : Forall (fun r => List.length r = ncols output) (rows output)).
  { unfold wf_scores in Hwf. rewrite forallb_forall in Hwf.
    apply Forall_forall. intros r Hr. apply Nat.eqb_eq, Hwf.
    apply list_elem_of_In. exact Hr. }
  rewrite correct_rows.
  2:{ apply Forall_fmap. eapply Forall_impl; [exact Hrows |]. simpl.
      intros r Hr. unfold topk_row. rewrite length_take.
      rewrite ranking_length. lia. }
  rewrite <- fmap_take, take_seq, Nat.min_l by exact Hk.
  rewrite count_true_concat_map, count_swap.
  apply hits_by_sample; [exact Hk |].
  eapply Forall_impl; [exact Hrows |]. simpl. intros r ->. exact Hmax.
Qed.

(** What [accuracy] returns on a well-formed batch. *)
Lemma accuracy_returns (output : scores) (target : list Z) (topk : list Z) :
  wf_scores output = true ->
  List.length target = List.length (rows output) ->
  target ≠ [] ->
  topk ≠ [] ->
  Forall (fun k => 0 <= k <= Z.of_nat (ncols output)) topk ->
  accuracy output target topk
  = inr (map (fun k =>
           (inject_Z (Z.of_nat (hits (Z.to_nat k) output target))
            * (100 / inject_Z (Z.of_nat (List.length target))))%Q) topk).
Proof.
  intros Hwf Hlen Hne Htopk Hks. unfold accuracy.
  destruct (py_max_spec topk Htopk) as (maxk & -> & Hle & Hin). simpl.
  rewrite Forall_forall in Hks. pose proof (Hks _ Hin) as Hmaxk.
  unfold tensor_topk.
  destruct (Z.ltb_spec maxk 0); [lia |].
  destruct (Z.ltb_spec (Z.of_nat (ncols output)) maxk); [lia |]. simpl.
  unfold expand_target. rewrite Hlen, Nat.eqb_refl. simpl.
  apply res_mapM_inr. intros k Hk.
  destruct (Z.eqb_spec (Z.of_nat (List.length (rows output))) 0) as [Hz | _].
  { destruct target; [congruence | simpl in Hlen; lia]. }
  rewrite Forall_forall in Hle.
  pose proof (Hle _ Hk) as Hkm. pose proof (Hks _ Hk) as Hk0.
  unfold py_slice_to. destruct (Z.leb_spec 0 k); [| lia].
  rewrite correct_count by (try assumption; lia).
  reflexivity.
Qed.

End AccuracyFacts.

Section AccuracyClaims.

Lemma count_true_none (l : list bool) :
  Forall (fun b => b = false) l -> count_true l = 0%nat.
Proof. induction 1 as [| b l -> _ IH]; simpl; [reflexivity | exact IH]. Qed.

Lemma hits_none (k : nat) (output : scores) (target : list Z) :
  Forall2 (fun row t => in_top_k k row t = false) (rows output) target ->
  hits k output target = 0%nat.
Proof.
  unfold hits. intros Hall. apply count_true_none.
  induction Hall; simpl; constructor; assumption.
Qed.

Lemma inject_nat_nonzero (n : nat) : n ≠ 0%nat -> ~ (inject_Z (Z.of_nat n) == 0)%Q.
Proof. intros Hn. unfold Qeq. simpl. lia. Qed.

Lemma length_nonzero {A : Type} (l : list A) : l ≠ [] -> List.length l ≠ 0%nat.
Proof. destruct l; [congruence | discriminate]. Qed.

End AccuracyClaims.

(** ** The monad and its primitives *)

Section MonadFacts.

Context `{Framework}.

Lemma bind_inv {A B : Type} (m : M A) (f : A -> M B) (w : World)
  (r : Res B) (w' : World) :
  bind m f w = (r, w') ->
  (exists e : exn, m w = (inl e, w') /\ r = inl e)
  \/ (exists (a : A) (w1 : World), m w = (inr a, w1) /\ f a w1 = (r, w')).
Proof.
  unfold bind. destruct (m w) as [[e | a] w1].
  - intros [= <- <-]. left. eauto.
  - intros Hf. right. eauto.
Qed.

Lemma bind_inr {A B : Type} (m : M A) (f : A -> M B) (w w1 : World) (a : A) :
  m w = (inr a, w1) -> bind m f w = f a w1.
Proof. intros Hm. unfold bind. rewrite Hm. reflexivity. Qed.

Lemma bind_inl {A B : Type} (m : M A) (f : A -> M B) (w w1 : World) (e : exn) :
  m w = (inl e, w1) -> bind m f w = (inl e, w1).
Proof. intros Hm. unfold bind. rewrite Hm. reflexivity. Qed.

Section Steps.

Variable R : relation World.
Variable E : exn -> Prop.
Context `{!PreOrder R}.

Lemma steps_ret {A : Type} (a : A) : steps R E (ret a).
Proof. intros w r w' [= <- <-]. split; [reflexivity | discriminate]. Qed.

Lemma steps_gets {A : Type} (f : World -> A) : steps R E (gets f).
Proof. intros w r w' [= <- <-]. split; [reflexivity | discriminate]. Qed.

Lemma steps_raise {A : Type} (e : exn) : E e -> steps R E (raise (A := A) e).
Proof.
  intros He w r w' [= <- <-]. split; [reflexivity |]. intros e' [= <-]. exact He.
Qed.

Lemma steps_lift {A : Type} (r : Res A) :
  (forall e, r = inl e -> E e) -> steps R E (lift r).
Proof. intros Hr w r' w' [= <- <-]. split; [reflexivity | exact Hr]. Qed.

Lemma steps_modify (f : World -> World) :
  (forall w, R w (f w)) -> steps R E (modify f).
Proof. intros Hf w r w' [= <- <-]. split; [apply Hf | discriminate]. Qed.

Lemma steps_bind {A B : Type} (m : M A) (f : A -> M B) :
  steps R E m -> (forall a, steps R E (f a)) -> steps R E (bind m f).
Proof.
  intros Hm Hf w r w' Hrun.
  apply bind_inv in Hrun as [(e & Hrun & ->) | (a & w1 & Hrun & Hk)].
  - destruct (Hm _ _ _ Hrun) as [H1 He]. split; [exact H1 |].
    intros e' [= <-]. apply He. reflexivity.
  - destruct (Hm _ _ _ Hrun) as [H1 _]. destruct (Hf a _ _ _ Hk) as [H2 He].
    split; [etransitivity; eassumption | exact He].
Qed.

Lemma steps_if {A : Type} (b : bool) (m1 m2 : M A) :
  steps R E m1 -> steps R E m2 -> steps R E (if b then m1 else m2).
Proof. destruct b; auto. Qed.

Lemma steps_for_each {X S : Type} (body : X -> S -> M S) (xs : list X) :
  (forall x s, steps R E (body x s)) ->
  forall s, steps R E (for_each body xs s).
Proof.
  intros Hbody. induction xs as [| x xs IH]; intros s; simpl.
  - apply steps_ret.
  - apply steps_bind; [apply Hbody | exact IH].
Qed.

End Steps.

(** Weakening of the relation and of the exceptions. *)
Lemma steps_weaken {A : Type} (R R' : relation World) (E E' : exn -> Prop)
  (m : M A) :
  (forall w w', R w w' -> R' w w') -> (forall e, E e -> E' e) ->
  steps R E m -> steps R' E' m.
Proof.
  intros HR HE Hm w r w' Hrun. destruct (Hm _ _ _ Hrun) as [H1 H2].
  split; [apply HR; exact H1 | intros e He; apply HE, H2, He].
Qed.

(** *** Quiet steps *)

Lemma val_accuracies_app (out1 out2 : list msg) :
  val_accuracies (out1 ++ out2) = val_accuracies out1 ++ val_accuracies out2.
Proof. unfold val_accuracies. apply omap_app. Qed.

Lemma quiet_refl (w : World) : quiet [] w w.
Proof.
  split; try reflexivity. exists []. split; [| reflexivity].
  symmetry. apply app_nil_r.
Qed.

Lemma quiet_trans (accs1 accs2 : list Q) (w1 w2 w3 : World) :
  quiet accs1 w1 w2 -> quiet accs2 w2 w3 -> quiet (accs1 ++ accs2) w1 w3.
Proof.
  intros [Ha1 Hb1 Hf1 Hd1 Hl1 Ht1 (o1 & Ho1 & Hv1)]
         [Ha2 Hb2 Hf2 Hd2 Hl2 Ht2 (o2 & Ho2 & Hv2)].
  split; try congruence.
  exists (o1 ++ o2). split.
  - rewrite Ho2, Ho1, app_assoc. reflexivity.
  - rewrite val_accuracies_app. congruence.
Qed.

#[global] Instance silent_pre : PreOrder (quiet []).
Proof.
  split.
  - intros w. apply quiet_refl.
  - intros w1 w2 w3 H1 H2. exact (quiet_trans [] [] _ _ _ H1 H2).
Qed.

Lemma quiet_print (m : msg) (w : World) :
  quiet (val_accuracies [m]) w (set_stdout (fun out => out ++ [m]) w).
Proof. split; try reflexivity. exists [m]. split; reflexivity. Qed.

Lemma quiet_set_tb_log (f : list (string * Q * Z) -> list (string * Q * Z))
  (w : World) :
  quiet [] w (set_tb_log f w).
Proof.
  split; try reflexivity. exists []. split; [| reflexivity].
  symmetry. apply app_nil_r.
Qed.

Lemma quiet_set_clock (f : nat -> nat) (w : World) : quiet [] w (set_clock f w).
Proof.
  split; try reflexivity. exists []. split; [| reflexivity].
  symmetry. apply app_nil_r.
Qed.

Lemma steps_time_time (E : exn -> Prop) : steps (quiet []) E time_time.
Proof.
  intros w r w' [= <- <-]. split; [apply quiet_set_clock | discriminate].
Qed.

Lemma steps_log_value (name : string) (value : Q) (step : Z) :
  steps (quiet []) not_assertion (log_value name value step).
Proof.
  intros w r w'. unfold log_value. destruct (tb_dir w).
  - intros [= <- <-]. split; [apply quiet_set_tb_log | discriminate].
  - intros [= <- <-]. split; [apply quiet_refl |]. intros e [= <-]. discriminate.
Qed.

Lemma steps_print_silent (E : exn -> Prop) (m : msg) :
  val_accuracies [m] = [] -> steps (quiet []) E (print m).
Proof.
  intros Hm. unfold print. apply steps_modify. intros w.
  rewrite <- Hm. apply quiet_print.
Qed.

End MonadFacts.

Ltac steps_step :=
  lazymatch goal with
  | |- steps _ _ (bind _ _) => apply steps_bind; [.. | intros ?]
  | |- steps _ _ (ret _) => apply steps_ret
  | |- steps _ _ (gets _) => apply steps_gets
  | |- steps _ _ (lift _) => apply steps_lift
  | |- steps _ _ (raise _) => apply steps_raise
  | |- steps _ _ time_time => apply steps_time_time
  | |- steps _ _ (log_value _ _ _) => apply steps_log_value
  | |- steps _ _ (print _) => apply steps_print_silent; reflexivity
  | |- steps _ _ (if _ then _ else _) => apply steps_if
  | |- steps _ _ (let '(_, _) := ?x in _) => destruct x
  | |- steps _ _ (for_each _ _ _) => apply steps_for_each; [.. | intros ? ?]
  end.

Ltac inv_bind H :=
  let e := fresh "e" in
  let a := fresh "a" in
  let w1 := fresh "w" in
  let H1 := fresh "Hrun" in
  apply bind_inv in H as [(e & H1 & [=]) | (a & w1 & H1 & H)].

Tactic Notation "invert_bind" hyp(H) "as" simple_intropattern(a) ident(w1) ident(H1) :=
  apply bind_inv in H as [(? & ? & [=]) | (a & w1 & H1 & H)].

Ltac inv_lift H :=
  unfold lift in H; injection H as H ?; subst.

Ltac steps_auto :=
  repeat (steps_step; try match goal with |- PreOrder _ => exact _ end).

(** ** The passes over the loaders *)

Section Passes.

Context `{Framework}.

Lemma update_exn (m : AverageMeter.t) (v : Q) (n : Z) (e : exn) :
  AverageMeter.update m v n = inl e -> not_assertion e.
Proof.
  unfold AverageMeter.update. destruct (_ =? 0); [| discriminate].
  intros [= <-]. discriminate.
Qed.

Lemma first_item_exn {A : Type} (l : list A) (e : exn) :
  first_item l = inl e -> not_assertion e.
Proof. destruct l; [| discriminate]. intros [= <-]. discriminate. Qed.

Lemma res_mapM_exn {A B : Type} (E : exn -> Prop) (f : A -> Res B) (l : list A) :
  (forall x e, f x = inl e -> E e) -> forall e, res_mapM f l = inl e -> E e.
Proof.
  intros Hf. induction l as [| x l IH]; intros e; simpl; [discriminate |].
  destruct (f x) as [e1 | y] eqn:Hx; simpl.
  - intros [= <-]. eapply Hf. exact Hx.
  - destruct (res_mapM f l) as [e2 | ys]; simpl; [| discriminate].
    intros [= <-]. apply IH. reflexivity.
Qed.

Lemma accuracy_exn (output : scores) (target topk : list Z) (e : exn) :
  accuracy output target topk = inl e -> not_assertion e.
Proof.
  unfold accuracy.
  destruct (py_max topk) as [e1 | maxk] eqn:Hmax; simpl.
  { destruct topk; [| discriminate]. injection Hmax as <-.
    intros [= <-]. discriminate. }
  unfold tensor_topk. destruct (_ || _); simpl.
  { intros [= <-]. discriminate. }
  destruct (expand_target _ _ _) as [e2 | expanded] eqn:Hexp; simpl.
  { unfold expand_target in Hexp. destruct (_ =? _)%nat; [discriminate |].
    destruct target as [| t [| t' target]]; try discriminate;
      injection Hexp as <-; intros [= <-]; discriminate. }
  apply res_mapM_exn. intros k e'.
  destruct (_ =? 0); [| discriminate]. intros [= <-]. discriminate.
Qed.

Lemma steps_train_batch (epoch : Z) (len : nat)
  (item : nat * (list Sample * list Z)) (v : train_vars) :
  steps (quiet []) not_assertion (train_batch epoch len item v).
Proof.
  unfold train_batch. destruct item as [i [input target]].
  steps_auto; eauto using accuracy_exn, first_item_exn, update_exn.
  unfold not_assertion. discriminate.
Qed.

Lemma steps_train (model : Model) (optimizer : Optimizer Buffers) (epoch : Z) :
  steps (quiet []) not_assertion (train model optimizer epoch).
Proof. unfold train. steps_auto. apply steps_train_batch. Qed.

Lemma steps_validate_batch (len : nat)
  (item : nat * (list Sample * list Z)) (v : val_vars) :
  steps (quiet []) not_assertion (validate_batch len item v).
Proof.
  unfold validate_batch. destruct item as [i [input target]].
  steps_auto; eauto using accuracy_exn, first_item_exn, update_exn.
  unfold not_assertion. discriminate.
Qed.

Lemma steps_validate_loop (model : Model) (epoch : Z) :
  steps (quiet []) not_assertion (validate_loop model epoch).
Proof. unfold validate_loop. steps_auto. apply steps_validate_batch. Qed.

(** *** Accuracies are not negative *)

Lemma res_mapM_Forall {A B : Type} (P : B -> Prop) (f : A -> Res B) (l : list A) :
  (forall x y, f x = inr y -> P y) ->
  forall ys, res_mapM f l = inr ys -> Forall P ys.
Proof.
  intros Hf. induction l as [| x l IH]; intros ys; simpl.
  - intros [= <-]. constructor.
  - destruct (f x) as [e | y] eqn:Hx; simpl; [discriminate |].
    destruct (res_mapM f l) as [e | ys']; simpl; [discriminate |].
    intros [= <-]. constructor; [eapply Hf; exact Hx | apply IH; reflexivity].
Qed.

Lemma inject_nat_nonneg (n : nat) : (0 <= inject_Z (Z.of_nat n))%Q.
Proof. unfold Qle. simpl. lia. Qed.

Lemma Qdiv_nonneg (a b : Q) : (0 <= a)%Q -> (0 <= b)%Q -> (0 <= a / b)%Q.
Proof.
  intros Ha Hb. unfold Qdiv. apply Qmult_le_0_compat; [exact Ha |].
  apply Qinv_le_0_compat. exact Hb.
Qed.

Lemma accuracy_nonneg (output : scores) (target topk : list Z) (res : list Q) :
  accuracy output target topk = inr res -> Forall (fun r => (0 <= r)%Q) res.
Proof.
  unfold accuracy.
  destruct (py_max topk) as [e | maxk]; simpl; [discriminate |].
  destruct (tensor_topk output maxk) as [e | pred]; simpl; [discriminate |].
  destruct (expand_target _ _ _) as [e | expanded]; simpl; [discriminate |].
  apply res_mapM_Forall. intros k y.
  destruct (_ =? 0); [discriminate |]. intros [= <-].
  apply Qmult_le_0_compat; [apply inject_nat_nonneg |].
  apply Qdiv_nonneg; [lra | apply inject_nat_nonneg].
Qed.

(** A meter fed with non-negative values and weights stays non-negative. *)
Lemma meter_nonneg_reset : meter_nonneg AverageMeter.reset.
Proof. unfold meter_nonneg. simpl. split; [lra |]. split; [lra | lia]. Qed.

Lemma meter_nonneg_update (m m' : AverageMeter.t) (v : Q) (n : Z) :
  meter_nonneg m -> (0 <= v)%Q -> 0 <= n ->
  AverageMeter.update m v n = inr m' -> meter_nonneg m'.
Proof.
  intros (Ha & Hs & Hc) Hv Hn. unfold AverageMeter.update. simpl.
  destruct (_ =? 0); [discriminate |]. intros [= <-].
  assert (Hn' : (0 <= inject_Z n)%Q) by (unfold Qle; simpl; lia).
  assert (Hs' : (0 <= AverageMeter.sum m + v * inject_Z n)%Q).
  { pose proof (Qmult_le_0_compat _ _ Hv Hn'). lra. }
  unfold meter_nonneg. simpl. split; [| split; [exact Hs' | lia]].
  apply Qdiv_nonneg; [exact Hs' |]. unfold Qle. simpl. lia.
Qed.

Lemma for_each_invariant {X S : Type} (I : S -> Prop) (body : X -> S -> M S)
  (xs : list X) :
  (forall x s w s' w', I s -> body x s w = (inr s', w') -> I s') ->
  forall s w s' w', I s -> for_each body xs s w = (inr s', w') -> I s'.
Proof.
  intros Hbody. induction xs as [| x xs IH]; intros s w s' w' Hs; simpl.
  - intros [= <- <-]. exact Hs.
  - intros Hrun. inv_bind Hrun. eapply IH; [| exact Hrun].
    eapply Hbody; eassumption.
Qed.

(** What a batch of [validate] that returns has done to the model and to
    the meters. *)
Lemma validate_batch_inr (len i : nat) (input : list Sample)
  (target : list Z) (v v' : val_vars) (w w' : World) :
  validate_batch len (i, (input, target)) v w = (inr v', w') ->
  let model := va_model v in
  let out := forward (state_dict model) (training model) input in
  exists (res : list Q) (prec1 : Q),
    accuracy out.1 target [1] = inr res
    /\ first_item res = inr prec1
    /\ va_model v' = MkModel out.2 (grads model) (training model)
    /\ AverageMeter.update (va_losses v) (criterion out.1 target)
         (Z.of_nat (List.length input)) = inr (va_losses v')
    /\ AverageMeter.update (va_top1 v) prec1 (Z.of_nat (List.length input))
       = inr (va_top1 v').
Proof.
  unfold validate_batch. intros Hrun. cbv zeta.
  destruct (forward _ _ _) as [output sd]. cbn [fst snd].
  inv_bind Hrun. inv_lift Hrun0.
  inv_bind Hrun. inv_lift Hrun1.
  inv_bind Hrun. inv_lift Hrun2.
  inv_bind Hrun. inv_lift Hrun3.
  inv_bind Hrun. inv_bind Hrun. inv_bind Hrun. inv_bind Hrun. inv_bind Hrun.
  injection Hrun as <- <-. simpl. eauto 10.
Qed.

(** The model stays in evaluation mode with its state, the accuracy meter
    stays non-negative. *)
Lemma validate_batch_invariant (m0 : Model) (len : nat)
  (item : nat * (list Sample * list Z)) (v v' : val_vars) (w w' : World) :
  training m0 = false ->
  va_model v = m0 /\ meter_nonneg (va_top1 v) ->
  validate_batch len item v w = (inr v', w') ->
  va_model v' = m0 /\ meter_nonneg (va_top1 v').
Proof.
  destruct item as [i [input target]]. intros Heval [Hm Hv] Hrun.
  apply validate_batch_inr in Hrun
    as (res & prec1 & Hacc & Hfirst & Hmodel & _ & Htop).
  rewrite Hm in Hmodel. rewrite Hm, Heval in Hacc. split.
  - rewrite Hmodel, Heval, forward_eval. destruct m0. simpl in *. congruence.
  - eapply meter_nonneg_update; [exact Hv | | | exact Htop]; [| lia].
    apply accuracy_nonneg in Hacc. destruct res as [| x res]; [discriminate |].
    injection Hfirst as <-. inversion Hacc; assumption.
Qed.

End Passes.

(** ** validate, train and the learning rate leave the files alone *)

Section Frames.

Context `{Framework}.

Lemma steps_adjust_learning_rate (optimizer : Optimizer Buffers) (epoch : Z) :
  steps (quiet []) not_assertion (adjust_learning_rate optimizer epoch).
Proof. unfold adjust_learning_rate. steps_auto. Qed.

Lemma validate_loop_invariant (model : Model) (epoch : Z) (w w' : World)
  (v : val_vars) :
  training model = false ->
  validate_loop model epoch w = (inr v, w') ->
  va_model v = model /\ meter_nonneg (va_top1 v).
Proof.
  unfold validate_loop. intros Heval Hrun.
  invert_bind Hrun as end_ w1 Htime. invert_bind Hrun as a w2 Hargs.
  eapply (for_each_invariant
            (fun v => va_model v = model /\ meter_nonneg (va_top1 v)));
    [| | exact Hrun].
  - intros x s w3 s' w4. apply validate_batch_invariant. exact Heval.
  - split; [reflexivity | apply meter_nonneg_reset].
Qed.

(** What a call of [validate] that returns has done. *)
Lemma validate_inr (model model' : Model) (epoch : Z) (w w' : World) (prec1 : Q) :
  validate model epoch w = (inr (prec1, model'), w') ->
  quiet [prec1] w w'
  /\ model' = MkModel (state_dict model) (grads model) false
  /\ (0 <= prec1)%Q.
Proof.
  unfold validate. intros Hrun.
  invert_bind Hrun as v w1 Hloop.
  pose proof (validate_loop_invariant
                (MkModel (state_dict model) (grads model) false) _ _ _ _
                eq_refl Hloop) as (Hmodel & Havg & _).
  apply steps_validate_loop in Hloop as [Hq1 _].
  invert_bind Hrun as [] w2 Hprint. injection Hprint as <-.
  invert_bind Hrun as a w3 Hargs. injection Hargs as <- <-.
  invert_bind Hrun as [] w4 Hlog.
  assert (Hq3 : quiet [] (set_stdout (fun out => out ++ [MsgPrec1 (AverageMeter.avg (va_top1 v))]) w1) w4).
  { destruct (Args.tensorboard _).
    - eapply (steps_bind (quiet []) not_assertion); [| | exact Hlog].
      + apply steps_log_value.
      + intros ?. apply steps_log_value.
    - injection Hlog as Hw. subst w4. apply quiet_refl. }
  injection Hrun as <- <- <-.
  split; [| split; [exact Hmodel | exact Havg]].
  pose proof (quiet_trans _ _ _ _ _ Hq1
                (quiet_trans _ _ _ _ _ (quiet_print _ _) Hq3)) as Hq.
  exact Hq.
Qed.

(** [validate] changes nothing but the output, the clock and the
    TensorBoard log, also when it raises. *)
Lemma validate_calm (model : Model) (epoch : Z) (w w' : World)
  (r : Res (Q * Model)) :
  validate model epoch w = (r, w') ->
  (exists accs, quiet accs w w') /\ (forall e, r = inl e -> not_assertion e).
Proof.
  unfold validate. intros Hrun.
  apply bind_inv in Hrun as [(e & Hrun & ->) | (v & w1 & Hrun1 & Hrun)].
  { apply steps_validate_loop in Hrun as [Hq He]. split; [eauto |].
    intros e' [= <-]. apply He. reflexivity. }
  apply steps_validate_loop in Hrun1 as [Hq1 _].
  apply bind_inv in Hrun as [(e & Hrun & ->) | ([] & w2 & Hrun2 & Hrun)];
    [discriminate Hrun |].
  injection Hrun2 as <-.
  pose proof (quiet_trans _ _ _ _ _ Hq1 (quiet_print (MsgPrec1 (AverageMeter.avg (va_top1 v))) w1)) as Hq2.
  apply bind_inv in Hrun as [(e & Hrun & ->) | (a & w3 & Hrun3 & Hrun)];
    [discriminate Hrun |].
  injection Hrun3 as <- <-.
  assert (Hlog : steps (quiet []) not_assertion
            (if Args.tensorboard
                  (args (set_stdout (fun out => out ++ [MsgPrec1 (AverageMeter.avg (va_top1 v))]) w1))
             then bind (log_value "val_loss" (AverageMeter.avg (va_losses v)) epoch)
                    (fun _ => log_value "val_acc" (AverageMeter.avg (va_top1 v)) epoch)
             else ret tt)).
  { steps_auto. }
  apply bind_inv in Hrun as [(e & Hrun & ->) | ([] & w4 & Hrun4 & Hrun)].
  - apply Hlog in Hrun as [Hq3 He].
    split; [eexists; exact (quiet_trans _ _ _ _ _ Hq2 Hq3) |].
    intros e' [= <-]. apply He. reflexivity.
  - apply Hlog in Hrun4 as [Hq3 _]. injection Hrun as <- <-.
    split; [eexists; exact (quiet_trans _ _ _ _ _ Hq2 Hq3) | discriminate].
Qed.

(** *** save_checkpoint *)

Lemma save_checkpoint_run (state : Checkpoint) (is_best : bool)
  (filename : string) (w : World) :
  let directory := checkpoint_dir (Args.name (args w)) in
  let path := directory +:+ filename in
  let best := best_path (Args.name (args w)) in
  exists w' : World,
    save_checkpoint state is_best filename w = (inr tt, w')
    /\ args w' = args w /\ best_prec1 w' = best_prec1 w
    /\ stdout w' = stdout w /\ tb_dir w' = tb_dir w
    /\ fs_log w'
       = fs_log w
         ++ (if path_exists directory w then [] else [OpMakedirs directory])
         ++ [OpSave path state]
         ++ (if is_best then [OpCopyfile path best] else [])
    /\ files w'
       = (if is_best then <[best := Pickled state]> else id)
           (<[path := Pickled state]> (files w)).
Proof.
  intros directory path best.
  unfold save_checkpoint, bind, gets, makedirs, torch_save, copyfile, modify, ret.
  fold directory. fold path. unfold best_path in best. fold best.
  destruct (path_exists directory w); simpl; destruct is_best; simpl;
    rewrite ?lookup_insert_eq; simpl;
    eexists; (split; [reflexivity |]); simpl;
    rewrite <- ?app_assoc; repeat split; reflexivity.
Qed.

(** *** One epoch *)

Lemma epoch_body_inr (epoch : Z) (model : Model) (optimizer : Optimizer Buffers)
  (w w' : World) (s' : Model * Optimizer Buffers) :
  epoch_body epoch (model, optimizer) w = (inr s', w') ->
  exists (prec1 : Q) (w1 : World),
    quiet [prec1] w w1
    /\ (0 <= prec1)%Q
    /\ save_checkpoint
         (MkCheckpoint (epoch + 1) (state_dict s'.1)
                       (py_max2 prec1 (best_prec1 w)))
         (Qltb (best_prec1 w) prec1) "checkpoint.pth.tar"
         (set_best_prec1 (py_max2 prec1 (best_prec1 w)) w1)
       = (inr tt, w').
Proof.
  unfold epoch_body. intros Hrun.
  invert_bind Hrun as optimizer0 w0 Hadj.
  apply steps_adjust_learning_rate in Hadj as [Hq0 _].
  invert_bind Hrun as [model1 optimizer1] w1 Htrain.
  apply steps_train in Htrain as [Hq1 _].
  invert_bind Hrun as [prec1 model2] w2 Hval.
  apply validate_inr in Hval as (Hq2 & -> & Hpos).
  invert_bind Hrun as best w3 Hbest. injection Hbest as <- <-.
  invert_bind Hrun as [] w4 Hset. injection Hset as <-.
  invert_bind Hrun as best' w5 Hbest'. injection Hbest' as <- <-.
  invert_bind Hrun as [] w6 Hsave. injection Hrun as <- <-.
  pose proof (quiet_trans _ _ _ _ _ Hq0 (quiet_trans _ _ _ _ _ Hq1 Hq2)) as Hq.
  simpl in Hq. simpl in Hsave. rewrite (quiet_best_prec1 _ _ _ Hq) in Hsave.
  exists prec1, w2. split; [exact Hq |]. split; [exact Hpos |]. exact Hsave.
Qed.

End Frames.

(** ** The passes return on well-formed batches *)

Section Totality.

Context `{Framework}.

Lemma runnable_quiet (accs : list Q) (w w' : World) :
  quiet accs w w' -> runnable w -> runnable w'.
Proof.
  intros Hq (Hwf & Hpf & Htb). unfold runnable, tb_ready.
  rewrite (quiet_args _ _ _ Hq), (quiet_tb_dir _ _ _ Hq). auto.
Qed.

Lemma wf_batch_accuracy (sd : StateDict) (mode : bool) (input : list Sample)
  (target : list Z) :
  wf_batch sd mode (input, target) = true ->
  exists prec1 : Q,
    accuracy (forward sd mode input).1 target [1] = inr [prec1]
    /\ (0 < List.length input)%nat.
Proof.
  unfold wf_batch. cbn [fst snd].
  intros ((((Hwf & Hlen%Nat.eqb_eq)%andb_prop & Hcols%Nat.leb_le)%andb_prop
           & Htarget%Nat.ltb_lt)%andb_prop & Hinput%Nat.ltb_lt)%andb_prop.
  eexists. split; [| exact Hinput].
  rewrite accuracy_returns; [reflexivity | assumption | assumption | | | ].
  - destruct target; [simpl in Htarget; lia | discriminate].
  - discriminate.
  - constructor; [lia | constructor].
Qed.

Lemma update_returns (m : AverageMeter.t) (v : Q) (n : Z) :
  0 <= AverageMeter.count m -> 0 < n ->
  exists m', AverageMeter.update m v n = inr m' /\ 0 <= AverageMeter.count m'.
Proof.
  intros Hc Hn. rewrite MeterFacts.update_ok by lia.
  eexists. split; [reflexivity |]. simpl. lia.
Qed.

Lemma returns_bind {A B : Type} (m : M A) (f : A -> M B) (w w1 : World) (a : A) :
  m w = (inr a, w1) -> returns (f a) w1 -> returns (bind m f) w.
Proof.
  intros Hm (b & w2 & Hf). exists b, w2. rewrite (bind_inr _ _ _ _ _ Hm). exact Hf.
Qed.

Lemma lift_inr {A : Type} (r : Res A) (a : A) (w : World) :
  r = inr a -> lift r w = (inr a, w).
Proof. intros ->. reflexivity. Qed.

(** The progress line of a batch. *)
Lemma progress_line_returns (a : Args.t) (i : nat) (m : msg) (w : World) :
  Args.print_freq a ≠ 0 ->
  exists w',
    (if Args.print_freq a =? 0 then raise ZeroDivisionError
     else if Z.of_nat i mod Args.print_freq a =? 0 then print m else ret tt) w
    = (inr tt, w')
    /\ args w' = args w /\ tb_dir w' = tb_dir w.
Proof.
  intros Hpf. destruct (Z.eqb_spec (Args.print_freq a) 0); [contradiction |].
  destruct (_ =? 0); eexists; (split; [reflexivity |]); split; reflexivity.
Qed.

Lemma train_batch_returns (epoch : Z) (len i : nat) (input : list Sample)
  (target : list Z) (v : train_vars) (w : World) :
  runnable w ->
  wf_batch (state_dict (tr_model v)) (training (tr_model v)) (input, target) = true ->
  counts_nonneg (tr_batch_time v) (tr_losses v) (tr_top1 v) ->
  exists v' w',
    train_batch epoch len (i, (input, target)) v w = (inr v', w')
    /\ counts_nonneg (tr_batch_time v') (tr_losses v') (tr_top1 v').
Proof.
  intros (_ & Hpf & _) Hwf (Hbt & Hl & Ht).
  destruct (wf_batch_accuracy _ _ _ _ Hwf) as (prec1 & Hacc & Hin).
  destruct (update_returns (tr_losses v)
              (criterion (forward (state_dict (tr_model v)) (training (tr_model v)) input).1 target)
              (Z.of_nat (List.length input)) Hl ltac:(lia)) as (l' & Hl' & Hcl).
  destruct (update_returns (tr_top1 v) prec1 (Z.of_nat (List.length input))
              Ht ltac:(lia)) as (t' & Ht' & Hct).
  destruct (update_returns (tr_batch_time v)
              (time_at (clock w) - tr_end v)%Q 1 Hbt ltac:(lia))
    as (bt' & Hbt' & Hcbt).
  unfold train_batch.
  destruct (forward _ _ _) as [output sd0]. cbn [fst snd] in Hacc, Hl'.
  rewrite (bind_inr _ _ _ _ _ (lift_inr _ _ w Hacc)). cbv beta.
  rewrite (bind_inr _ _ _ _ _ (lift_inr (first_item [prec1]) prec1 w eq_refl)).
  cbv beta.
  rewrite (bind_inr _ _ _ _ _ (lift_inr _ _ w Hl')). cbv beta.
  rewrite (bind_inr _ _ _ _ _ (lift_inr _ _ w Ht')). cbv beta.
  destruct (sgd_step _ _ _ _) as [sd buf].
  rewrite (bind_inr time_time _ w _ _ eq_refl). cbv beta.
  rewrite (bind_inr _ _ _ _ _ (lift_inr _ _ _ Hbt')). cbv beta.
  rewrite (bind_inr time_time _ _ _ _ eq_refl). cbv beta.
  rewrite (bind_inr (gets args) _ _ _ _ eq_refl). cbv beta.
  match goal with
  | |- context [MsgTrain ?e ?i ?n ?a ?b ?c] =>
      destruct (progress_line_returns (args (set_clock S (set_clock S w))) i
                  (MsgTrain e i n a b c) (set_clock S (set_clock S w)) Hpf)
        as (w' & Hline & _)
  end.
  rewrite (bind_inr _ _ _ _ _ Hline).
  eexists _, _. split; [reflexivity |]. simpl. repeat split; assumption.
Qed.

Lemma validate_batch_returns (len i : nat) (input : list Sample)
  (target : list Z) (v : val_vars) (w : World) :
  runnable w ->
  wf_batch (state_dict (va_model v)) (training (va_model v)) (input, target)
  = true ->
  counts_nonneg (va_batch_time v) (va_losses v) (va_top1 v) ->
  exists v' w',
    validate_batch len (i, (input, target)) v w = (inr v', w')
    /\ counts_nonneg (va_batch_time v') (va_losses v') (va_top1 v').
Proof.
  intros (_ & Hpf & _) Hwf (Hbt & Hl & Ht).
  destruct (wf_batch_accuracy _ _ _ _ Hwf) as (prec1 & Hacc & Hin).
  destruct (update_returns (va_losses v)
              (criterion (forward (state_dict (va_model v)) (training (va_model v)) input).1 target)
              (Z.of_nat (List.length input)) Hl ltac:(lia)) as (l' & Hl' & Hcl).
  destruct (update_returns (va_top1 v) prec1 (Z.of_nat (List.length input))
              Ht ltac:(lia)) as (t' & Ht' & Hct).
  destruct (update_returns (va_batch_time v)
              (time_at (clock w) - va_end v)%Q 1 Hbt ltac:(lia))
    as (bt' & Hbt' & Hcbt).
  unfold validate_batch. cbv zeta.
  destruct (forward _ _ _) as [output sd0]. cbn [fst snd] in Hacc, Hl'.
  rewrite (bind_inr _ _ _ _ _ (lift_inr _ _ w Hacc)). cbv beta.
  rewrite (bind_inr _ _ _ _ _ (lift_inr (first_item [prec1]) prec1 w eq_refl)).
  cbv beta.
  rewrite (bind_inr _ _ _ _ _ (lift_inr _ _ w Hl')). cbv beta.
  rewrite (bind_inr _ _ _ _ _ (lift_inr _ _ w Ht')). cbv beta.
  rewrite (bind_inr time_time _ w _ _ eq_refl). cbv beta.
  rewrite (bind_inr _ _ _ _ _ (lift_inr _ _ _ Hbt')). cbv beta.
  rewrite (bind_inr time_time _ _ _ _ eq_refl). cbv beta.
  rewrite (bind_inr (gets args) _ _ _ _ eq_refl). cbv beta.
  match goal with
  | |- context [MsgTest ?i ?n ?a ?b ?c] =>
      destruct (progress_line_returns (args (set_clock S (set_clock S w))) i
                  (MsgTest i n a b c) (set_clock S (set_clock S w)) Hpf)
        as (w' & Hline & _)
  end.
  rewrite (bind_inr _ _ _ _ _ Hline).
  eexists _, _. split; [reflexivity |]. simpl. repeat split; assumption.
Qed.

Lemma for_each_returns {X S : Type} (I : S -> Prop) (J : World -> Prop)
  (body : X -> S -> M S) (xs : list X) :
  (forall x s w, x ∈ xs -> I s -> J w ->
     exists s' w', body x s w = (inr s', w') /\ I s' /\ J w') ->
  forall s w, I s -> J w ->
    exists s' w', for_each body xs s w = (inr s', w') /\ I s' /\ J w'.
Proof.
  induction xs as [| x xs IH]; intros Hbody s w Hs Hw; simpl.
  - exists s, w. auto.
  - destruct (Hbody x s w ltac:(left) Hs Hw) as (s1 & w1 & Hrun & Hs1 & Hw1).
    rewrite (bind_inr _ _ _ _ _ Hrun). apply IH; [| assumption | assumption].
    intros y s2 w2 Hy. apply Hbody. right. exact Hy.
Qed.

Lemma counts_nonneg_reset :
  counts_nonneg AverageMeter.reset AverageMeter.reset AverageMeter.reset.
Proof. unfold counts_nonneg. simpl. lia. Qed.

Lemma elem_of_enumerate {X : Type} (l : list X) (i : nat) (x : X) :
  (i, x) ∈ enumerate l -> x ∈ l.
Proof. unfold enumerate. apply elem_of_zip_r. Qed.

Lemma runnable_set_clock (f : nat -> nat) (w : World) :
  runnable w -> runnable (set_clock f w).
Proof. apply runnable_quiet with (accs := []), quiet_set_clock. Qed.

Lemma log_values_return (a : Args.t) (n1 n2 : string) (v1 v2 : Q) (epoch : Z)
  (w : World) :
  a = args w -> tb_ready w ->
  exists w',
    (if Args.tensorboard a
     then bind (log_value n1 v1 epoch) (fun _ => log_value n2 v2 epoch)
     else ret tt) w = (inr tt, w').
Proof.
  intros -> Htb. destruct (Args.tensorboard (args w)) eqn:Hflag.
  - specialize (Htb Hflag). destruct Htb as [d Hd].
    unfold bind, log_value. rewrite Hd. simpl. rewrite Hd. eauto.
  - eauto.
Qed.

Lemma train_returns (model : Model) (optimizer : Optimizer Buffers) (epoch : Z)
  (w : World) :
  runnable w -> returns (train model optimizer epoch) w.
Proof.
  intros Hrun. unfold train.
  eapply returns_bind; [reflexivity |].
  eapply returns_bind; [reflexivity |].
  pose proof (runnable_set_clock S w Hrun) as Hrun1.
  destruct (for_each_returns
              (fun v => counts_nonneg (tr_batch_time v) (tr_losses v) (tr_top1 v))
              runnable
              (train_batch epoch (List.length (train_loader (args (set_clock S w)) epoch)))
              (enumerate (train_loader (args (set_clock S w)) epoch)))
    with (s := TrainVars (MkModel (state_dict model) (grads model) true) optimizer
                 AverageMeter.reset AverageMeter.reset AverageMeter.reset
                 (time_at (clock w)))
         (w := set_clock S w)
    as (v' & w' & Hloop & _ & Hrun').
  - intros [i [input target]] v w2 Hin Hv Hw2.
    destruct (train_batch_returns epoch
                (List.length (train_loader (args (set_clock S w)) epoch))
                i input target v w2 Hw2) as (v' & w' & Hb & Hv'); [| exact Hv |].
    + destruct Hrun as (Hwf & _). apply (Hwf _ _ epoch). left.
      eapply elem_of_enumerate. exact Hin.
    + exists v', w'. split; [exact Hb |]. split; [exact Hv' |].
      apply steps_train_batch in Hb as [Hq _].
      exact (runnable_quiet _ _ _ Hq Hw2).
  - apply counts_nonneg_reset.
  - exact Hrun1.
  - eapply returns_bind; [exact Hloop |].
    destruct (log_values_return (args (set_clock S w)) "train_loss" "train_acc"
                (AverageMeter.avg (tr_losses v')) (AverageMeter.avg (tr_top1 v'))
                epoch w') as (w2 & Hlog).
    + apply steps_for_each with (R := quiet []) (E := not_assertion) in Hloop
        as [Hq _]; [| exact _ | intros; apply steps_train_batch].
      symmetry. exact (quiet_args _ _ _ Hq).
    + destruct Hrun' as (_ & _ & Htb). exact Htb.
    + eapply returns_bind; [exact Hlog |]. eexists _, _. reflexivity.
Qed.

Lemma validate_returns (model : Model) (epoch : Z) (w : World) :
  runnable w -> returns (validate model epoch) w.
Proof.
  intros Hrun. unfold validate.
  pose proof (runnable_set_clock S w Hrun) as Hrun1.
  destruct (for_each_returns
              (fun v => counts_nonneg (va_batch_time v) (va_losses v) (va_top1 v))
              runnable
              (validate_batch
                 (List.length (val_loader (args (set_clock S w)) epoch)))
              (enumerate (val_loader (args (set_clock S w)) epoch)))
    with (s := ValVars (MkModel (state_dict model) (grads model) false)
                 AverageMeter.reset AverageMeter.reset AverageMeter.reset
                 (time_at (clock w)))
         (w := set_clock S w)
    as (v' & w' & Hloop & _ & Hrun').
  - intros [i [input target]] v w2 Hin Hv Hw2.
    destruct (validate_batch_returns
                (List.length (val_loader (args (set_clock S w)) epoch))
                i input target v w2 Hw2) as (v' & w' & Hb & Hv'); [| exact Hv |].
    + destruct Hrun as (Hwf & _). apply (Hwf _ _ epoch). right.
      eapply elem_of_enumerate. exact Hin.
    + exists v', w'. split; [exact Hb |]. split; [exact Hv' |].
      apply steps_validate_batch in Hb as [Hq _].
      exact (runnable_quiet _ _ _ Hq Hw2).
  - apply counts_nonneg_reset.
  - exact Hrun1.
  - assert (Hvl : validate_loop (MkModel (state_dict model) (grads model) false)
                    epoch w = (inr v', w')).
    { unfold validate_loop.
      rewrite (bind_inr time_time _ w _ _ eq_refl). cbv beta.
      rewrite (bind_inr (gets args) _ _ _ _ eq_refl). exact Hloop. }
    eapply returns_bind; [exact Hvl |].
    eapply returns_bind; [reflexivity |].
    eapply returns_bind; [reflexivity |].
    destruct (log_values_return
                (args (set_stdout (fun out => out ++ [MsgPrec1 (AverageMeter.avg (va_top1 v'))]) w'))
                "val_loss" "val_acc"
                (AverageMeter.avg (va_losses v')) (AverageMeter.avg (va_top1 v'))
                epoch
                (set_stdout (fun out => out ++ [MsgPrec1 (AverageMeter.avg (va_top1 v'))]) w'))
      as (w2 & Hlog); [reflexivity | |].
    + destruct Hrun' as (_ & _ & Htb). exact Htb.
    + eapply returns_bind; [exact Hlog |]. eexists _, _. reflexivity.
Qed.

End Totality.

(** ** The epoch loop *)

Section EpochLoop.

Context `{Framework}.

Lemma py_max2_spec (a b : Q) :
  (a <= py_max2 a b)%Q /\ (b <= py_max2 a b)%Q
  /\ (((a < b)%Q /\ py_max2 a b = b) \/ ((b <= a)%Q /\ py_max2 a b = a)).
Proof.
  unfold py_max2. destruct (Qltb a b) eqn:Hlt.
  - apply Qltb_lt in Hlt. split; [lra |]. split; [lra | left; auto].
  - assert (Hge : (b <= a)%Q).
    { destruct (Qlt_le_dec a b) as [Hab | Hba]; [| exact Hba].
      apply Qltb_lt in Hab. congruence. }
    split; [lra |]. split; [exact Hge | right; auto].
Qed.

Lemma checkpoint_path_not_best (name : string) :
  checkpoint_path name ≠ best_path name.
Proof.
  unfold checkpoint_path, best_path. intros Heq.
  apply String.app_inj in Heq. discriminate.
Qed.

(** What an epoch that returns has done. *)
Lemma epoch_body_post (epoch : Z) (model : Model) (optimizer : Optimizer Buffers)
  (w w' : World) (s' : Model * Optimizer Buffers) :
  epoch_body epoch (model, optimizer) w = (inr s', w') ->
  let ckpt := checkpoint_path (Args.name (args w)) in
  let best := best_path (Args.name (args w)) in
  let record := MkCheckpoint (epoch + 1) (state_dict s'.1) (best_prec1 w') in
  exists (prec1 : Q) (pre : list fs_op),
    (0 <= prec1)%Q
    /\ (exists out, stdout w' = stdout w ++ out /\ val_accuracies out = [prec1])
    /\ best_prec1 w' = py_max2 prec1 (best_prec1 w)
    /\ args w' = args w /\ tb_dir w' = tb_dir w
    /\ (pre = [] \/ pre = [OpMakedirs (checkpoint_dir (Args.name (args w)))])
    /\ fs_log w'
       = fs_log w ++ pre ++ [OpSave ckpt record]
         ++ (if Qltb (best_prec1 w) prec1 then [OpCopyfile ckpt best] else [])
    /\ files w'
       = (if Qltb (best_prec1 w) prec1 then <[best := Pickled record]> else id)
           (<[ckpt := Pickled record]> (files w)).
Proof.
  intros Hrun ckpt best record.
  apply epoch_body_inr in Hrun as (prec1 & w1 & Hq & Hpos & Hsave).
  destruct (save_checkpoint_run
              (MkCheckpoint (epoch + 1) (state_dict s'.1)
                            (py_max2 prec1 (best_prec1 w)))
              (Qltb (best_prec1 w) prec1) "checkpoint.pth.tar"
              (set_best_prec1 (py_max2 prec1 (best_prec1 w)) w1))
    as (w2 & Hsave' & Hargs & Hbest & Hout & Htb & Hlog & Hfiles).
  rewrite Hsave in Hsave'. injection Hsave' as <-.
  destruct Hq as [Ha Hb Hf Hd Hl Ht Ho]. simpl in *.
  assert (Hrec : record = MkCheckpoint (epoch + 1) (state_dict s'.1)
                            (py_max2 prec1 (best_prec1 w))).
  { unfold record. rewrite Hbest. reflexivity. }
  rewrite Ha in Hlog, Hfiles. fold ckpt best in Hlog, Hfiles.
  unfold checkpoint_path in ckpt. rewrite <- Hrec in Hlog, Hfiles.
  exists prec1. eexists.
  split; [exact Hpos |]. split; [rewrite Hout; exact Ho |].
  split; [exact Hbest |]. split; [congruence |]. split; [congruence |].
  split; [| split; [rewrite Hlog, Hl; reflexivity | rewrite Hfiles, Hf; reflexivity]].
  destruct (path_exists _ _); auto.
Qed.

Lemma epoch_body_returns (epoch : Z) (s : Model * Optimizer Buffers) (w : World) :
  runnable w ->
  exists s' w', epoch_body epoch s w = (inr s', w') /\ runnable w'.
Proof.
  intros Hrun. destruct s as [model optimizer].
  assert (Hret : returns (epoch_body epoch (model, optimizer)) w).
  { unfold epoch_body.
    destruct (adjust_learning_rate_run w optimizer (epoch + 1)) as (w0 & Hadj).
    { destruct Hrun as (_ & _ & Htb). exact Htb. }
    eapply returns_bind; [exact Hadj |].
    apply steps_adjust_learning_rate in Hadj as [Hq0 _].
    pose proof (runnable_quiet _ _ _ Hq0 Hrun) as Hrun0.
    destruct (train_returns model
                (MkOptimizer
                   (map (fun pg : gmap string hyper =>
                           <["lr" := HFloat (Args.lr (args w)
                                             * (decay (epoch + 1) 60
                                                * decay (epoch + 1) 120
                                                * decay (epoch + 1) 160))%Q]> pg)
                        (param_groups optimizer))
                   (buffers optimizer)) epoch w0 Hrun0)
      as ([model1 optimizer1] & w1 & Htrain).
    eapply returns_bind; [exact Htrain |].
    apply steps_train in Htrain as [Hq1 _].
    pose proof (runnable_quiet _ _ _ Hq1 Hrun0) as Hrun1.
    destruct (validate_returns model1 epoch w1 Hrun1)
      as ([prec1 model2] & w2 & Hval).
    eapply returns_bind; [exact Hval |].
    eapply returns_bind; [reflexivity |].
    eapply returns_bind; [reflexivity |].
    eapply returns_bind; [reflexivity |].
    match goal with
    | |- context [save_checkpoint ?st ?b ?f] =>
        destruct (save_checkpoint_run st b f
                    (set_best_prec1 (py_max2 prec1 (best_prec1 w2)) w2))
          as (w3 & Hsave & _)
    end.
    eapply returns_bind; [exact Hsave |]. eexists _, _. reflexivity. }
  destruct Hret as (s' & w' & Hbody). exists s', w'. split; [exact Hbody |].
  apply epoch_body_post in Hbody
    as (prec1 & pre & _ & _ & _ & Hargs & Htb & _).
  destruct Hrun as (Hwf & Hpf & Hready). unfold runnable, tb_ready.
  rewrite Hargs, Htb. auto.
Qed.

Lemma epoch_loop_returns (epochs : list Z) (s : Model * Optimizer Buffers)
  (w : World) :
  runnable w ->
  exists s' w', epoch_loop epochs s w = (inr s', w') /\ runnable w'.
Proof.
  intros Hrun. unfold epoch_loop.
  destruct (for_each_returns (fun _ => True) runnable epoch_body epochs)
    with (s := s) (w := w) as (s' & w' & Hloop & _ & Hrun'); auto.
  - intros e s0 w0 _ _ Hw0.
    destruct (epoch_body_returns e s0 w0 Hw0) as (s1 & w1 & Hb & Hw1). eauto.
  - eauto.
Qed.

Lemma is_max_step (m b p : Q) (accs : list Q) :
  is_max m (py_max2 p b :: accs) -> is_max m (b :: p :: accs).
Proof.
  intros [Hex Hall]. destruct (py_max2_spec p b) as (Hp & Hb & Hcase).
  apply Forall_cons in Hall as [Hm Hall]. split.
  - apply Exists_cons in Hex as [Hhd | Htl].
    + destruct Hcase as [[_ Heq] | [_ Heq]]; rewrite Heq in Hhd.
      * left. exact Hhd.
      * right. left. exact Hhd.
    + right. right. exact Htl.
  - constructor; [lra |]. constructor; [lra | exact Hall].
Qed.

(** Without a restored value the start is 0, which no accuracy is below. *)
Lemma is_max_from_zero (m b : Q) (accs : list Q) :
  (b == 0)%Q -> accs ≠ [] -> Forall (fun a => (0 <= a)%Q) accs ->
  is_max m (b :: accs) -> is_max m accs.
Proof.
  intros Hb Hne Hpos [Hex Hall].
  apply Forall_cons in Hall as [Hbm Hall]. split; [| exact Hall].
  apply Exists_cons in Hex as [Hhd | Htl]; [| exact Htl].
  destruct accs as [| a accs]; [congruence |]. left.
  apply Forall_cons in Hpos as [Ha _]. apply Forall_cons in Hall as [Ham _].
  lra.
Qed.

Lemma epoch_loop_post (epochs : list Z) :
  forall (s s' : Model * Optimizer Buffers) (w w' : World),
    epoch_loop epochs s w = (inr s', w') ->
    exists accs : list Q,
      (exists out, stdout w' = stdout w ++ out /\ val_accuracies out = accs)
      /\ List.length accs = List.length epochs
      /\ Forall (fun a => (0 <= a)%Q) accs
      /\ (best_prec1 w <= best_prec1 w')%Q
      /\ is_max (best_prec1 w') (best_prec1 w :: accs).
Proof.
  unfold epoch_loop.
  induction epochs as [| e epochs IH]; intros s s' w w'; simpl.
  - intros [= <- <-]. exists [].
    split; [exists []; split; [symmetry; apply app_nil_r | reflexivity] |].
    split; [reflexivity |]. split; [constructor |]. split; [lra |].
    split; [left; reflexivity | constructor; [lra | constructor]].
  - intros Hrun. invert_bind Hrun as s1 w1 Hbody. destruct s as [model optimizer].
    apply epoch_body_post in Hbody
      as (prec1 & pre & Hpos & (out1 & Hout1 & Hacc1) & Hbest & _).
    apply IH in Hrun as (accs & (out & Hout & Hacc) & Hlen & Hall & Hle & Hmax).
    destruct (py_max2_spec prec1 (best_prec1 w)) as (Hp & Hb & _).
    exists (prec1 :: accs).
    split.
    { exists (out1 ++ out). split.
      - rewrite Hout, Hout1, app_assoc. reflexivity.
      - rewrite val_accuracies_app, Hacc1, Hacc. reflexivity. }
    split; [simpl; congruence |].
    split; [constructor; assumption |].
    rewrite Hbest in Hle, Hmax.
    split; [lra | apply is_max_step; exact Hmax].
Qed.

End EpochLoop.

(** ** main *)

Section MainFacts.

Context `{Framework}.

#[global] Instance anywhere_pre : PreOrder anywhere.
Proof. split; [intros w | intros w1 w2 w3 _ _]; exact I. Qed.

Lemma steps_anywhere {A : Type} (R : relation World) (E : exn -> Prop) (m : M A) :
  steps R E m -> steps anywhere E m.
Proof. apply steps_weaken; [intros; exact I | auto]. Qed.

Lemma steps_save_checkpoint (state : Checkpoint) (is_best : bool)
  (filename : string) :
  steps anywhere not_assertion (save_checkpoint state is_best filename).
Proof.
  intros w r w' Hrun.
  destruct (save_checkpoint_run state is_best filename w) as (w2 & Hsave & _).
  rewrite Hsave in Hrun. injection Hrun as <- <-. split; [exact I | discriminate].
Qed.

Lemma steps_validate (model : Model) (epoch : Z) :
  steps anywhere not_assertion (validate model epoch).
Proof.
  intros w r w' Hrun. apply validate_calm in Hrun as [_ He]. split; [exact I | exact He].
Qed.

Lemma steps_epoch_body (epoch : Z) (s : Model * Optimizer Buffers) :
  steps anywhere not_assertion (epoch_body epoch s).
Proof.
  unfold epoch_body. destruct s as [model optimizer].
  apply steps_bind; [exact _ | | intros optimizer'].
  { eapply steps_anywhere, steps_adjust_learning_rate. }
  apply steps_bind; [exact _ | | intros [model1 optimizer1]].
  { eapply steps_anywhere, steps_train. }
  apply steps_bind; [exact _ | | intros [prec1 model2]].
  { apply steps_validate. }
  apply steps_bind; [exact _ | apply steps_gets; exact _ | intros best].
  apply steps_bind; [exact _ | apply steps_modify; intros; exact I | intros []].
  apply steps_bind; [exact _ | apply steps_gets; exact _ | intros best'].
  apply steps_bind; [exact _ | apply steps_save_checkpoint | intros []].
  apply steps_ret; exact _.
Qed.

Lemma steps_main_from (model : Model) :
  steps anywhere not_assertion (main_from model).
Proof.
  unfold main_from, epoch_loop, print.
  apply steps_bind; [exact _ | apply steps_gets; exact _ | intros a].
  apply steps_bind; [exact _ | | intros s].
  { apply steps_for_each; [exact _ |]. intros e s. apply steps_epoch_body. }
  apply steps_bind; [exact _ | apply steps_gets; exact _ | intros best].
  apply steps_modify. intros; exact I.
Qed.

(** *** The resume block, case by case *)

Lemma resume_none (model : Model) (w : World) :
  Args.resume (args w) = "" -> resume_checkpoint model w = (inr model, w).
Proof.
  intros Hres. unfold resume_checkpoint, bind, gets. rewrite Hres. reflexivity.
Qed.

Lemma resume_missing (model : Model) (w : World) :
  Args.resume (args w) ≠ "" ->
  files w !! Args.resume (args w) = None ->
  resume_checkpoint model w
  = (inr model,
     set_stdout (fun out => out ++ [MsgNoCheckpoint (Args.resume (args w))]) w).
Proof.
  intros Hres Hfile. unfold resume_checkpoint, bind, gets, isfile.
  destruct (String.eqb_spec (Args.resume (args w)) ""); [contradiction |].
  simpl. rewrite bool_decide_eq_false_2; [reflexivity |].
  rewrite Hfile. intros [x Hx]. discriminate.
Qed.

Lemma resume_found (model : Model) (w : World) (c : Checkpoint) :
  Args.resume (args w) ≠ "" ->
  files w !! Args.resume (args w) = Some (Pickled c) ->
  resume_checkpoint model w
  = (inr (load_state_dict model (ck_state_dict c)),
     set_stdout (fun out => out ++ [MsgLoaded (Args.resume (args w)) (ck_epoch c)])
       (set_best_prec1 (ck_best_prec1 c)
          (set_args (fun a => Args.set_start_epoch a (ck_epoch c))
             (set_stdout (fun out => out ++ [MsgLoading (Args.resume (args w))]) w)))).
Proof.
  intros Hres Hfile.
  unfold resume_checkpoint, bind, gets, isfile, print, modify, torch_load, ret.
  destruct (String.eqb_spec (Args.resume (args w)) ""); [contradiction |].
  simpl. rewrite bool_decide_eq_true_2 by (rewrite Hfile; eauto).
  simpl. rewrite Hfile. reflexivity.
Qed.

Lemma steps_resume_checkpoint (model : Model) :
  steps anywhere not_assertion (resume_checkpoint model).
Proof.
  intros w r w' Hrun. split; [exact I |].
  destruct (String.eqb_spec (Args.resume (args w)) "") as [Hres | Hres].
  { rewrite (resume_none _ _ Hres) in Hrun. injection Hrun as <- <-. discriminate. }
  destruct (files w !! Args.resume (args w)) as [[c |] |] eqn:Hfile.
  - rewrite (resume_found _ _ _ Hres Hfile) in Hrun. injection Hrun as <- <-.
    discriminate.
  - revert Hrun.
    unfold resume_checkpoint, bind, gets, isfile, print, modify, torch_load, ret.
    destruct (String.eqb_spec (Args.resume (args w)) ""); [contradiction |].
    simpl. rewrite bool_decide_eq_true_2 by (rewrite Hfile; eauto).
    simpl. rewrite Hfile. intros [= <- <-] e [= <-]. discriminate.
  - rewrite (resume_missing _ _ Hres Hfile) in Hrun. injection Hrun as <- <-.
    discriminate.
Qed.

(** *** Paths *)

Lemma string_app_assoc (a b c : string) : (a +:+ b) +:+ c = a +:+ (b +:+ c).
Proof.
  induction a as [| x a IH]; [reflexivity |].
  change (String x ((a +:+ b) +:+ c) = String x (a +:+ (b +:+ c))).
  f_equal. exact IH.
Qed.

(** The character ["/"]. *)
Lemma slash_char :
  exists c : Ascii.ascii, forall x : string, "/" +:+ x = String c x.
Proof. eexists. intros x. reflexivity. Qed.

Lemma append_nil_l (x : string) : "" +:+ x = x.
Proof. reflexivity. Qed.

Lemma append_cons (c : Ascii.ascii) (a x : string) :
  String c a +:+ x = String c (a +:+ x).
Proof. reflexivity. Qed.

Lemma slash_free_app_slash (b y : string) : slash_free (b +:+ "/" +:+ y) = false.
Proof.
  destruct slash_char as [c Hc]. rewrite Hc.
  assert (Hfirst : slash_free (String c y) = false).
  { rewrite <- Hc. reflexivity. }
  induction b as [| d b IH]; [exact Hfirst |].
  rewrite append_cons.
  change (negb (String.eqb (String d EmptyString) "/")
          && slash_free (b +:+ String c y) = false).
  rewrite IH. apply andb_false_r.
Qed.

(** A path determines its last component. *)
Lemma last_component (a b x y : string) :
  slash_free x = true -> slash_free y = true ->
  a +:+ "/" +:+ x = b +:+ "/" +:+ y -> x = y.
Proof.
  intros Hx Hy. revert b. induction a as [| c a IH]; intros [| d b] Heq.
  - apply (String.app_inj "/"). exact Heq.
  - pose proof (slash_free_app_slash b y) as Hb.
    destruct slash_char as [sl Hsl].
    rewrite (append_nil_l ("/" +:+ x)), (append_cons d b), !Hsl in Heq.
    injection Heq as _ Heq. rewrite Hsl, <- Heq in Hb. congruence.
  - pose proof (slash_free_app_slash a x) as Ha.
    destruct slash_char as [sl Hsl].
    rewrite (append_nil_l ("/" +:+ y)), (append_cons c a), !Hsl in Heq.
    injection Heq as _ Heq. rewrite Hsl, Heq in Ha. congruence.
  - rewrite (append_cons c), (append_cons d) in Heq. injection Heq as _ Heq.
    apply (IH b). exact Heq.
Qed.

(** The events file of a logger is neither a checkpoint nor a best file. *)
Lemma events_path_not_saved (logdir name filename : string) :
  slash_free filename = true -> events_name filename = false ->
  events_path logdir ≠ checkpoint_dir name +:+ filename.
Proof.
  intros Hfree Hname Heq. unfold events_path, checkpoint_dir in Heq.
  change ("runs/" +:+ name +:+ "/") with (("runs/" +:+ name) +:+ "/") in Heq.
  rewrite string_app_assoc in Heq.
  apply last_component in Heq; [| | exact Hfree].
  - rewrite <- Heq, events_file_name in Hname. discriminate.
  - pose proof events_file_name as Hev. unfold events_name in Hev.
    apply andb_prop in Hev as [_ Hev]. exact Hev.
Qed.

(** A file at the resume path that is no checkpoint: [torch.load] raises. *)
Lemma resume_not_pickled (model : Model) (w : World) :
  Args.resume (args w) ≠ "" ->
  files w !! Args.resume (args w) = Some Other ->
  exists w' : World,
    resume_checkpoint model w = (inl UnpicklingError, w').
Proof.
  intros Hres Hfile.
  unfold resume_checkpoint, bind, gets, isfile, print, modify, torch_load, ret.
  destruct (String.eqb_spec (Args.resume (args w)) ""); [contradiction |].
  simpl. rewrite bool_decide_eq_true_2 by (rewrite Hfile; eauto).
  simpl. rewrite Hfile. eauto.
Qed.

(** *** The start of main *)

(** The world after the first statement: nothing printed, no call of the
    script on the file system; with the flag set the logger is configured,
    its directory exists and its events file is the one file that has
    changed. *)
Lemma configured_spec (a : Args.t) (fs : gmap string file) (ds : gset string) :
  let w := configured a fs ds in
  let logdir := "runs/" +:+ Args.name a in
  args w = a /\ best_prec1 w = 0%Q /\ stdout w = [] /\ fs_log w = []
  /\ tb_ready w
  /\ (Args.tensorboard a = false -> w = initial_world a fs ds)
  /\ (Args.tensorboard a = true ->
      tb_dir w = Some logdir
      /\ files w = <[events_path logdir := Other]> fs
      /\ ds ⊆ dirs w
      /\ path_exists (checkpoint_dir (Args.name a)) w = true).
Proof.
  assert (Hdir : ("runs/" +:+ Args.name a) +:+ "/"
                 = checkpoint_dir (Args.name a)) by reflexivity.
  unfold configured, tb_ready.
  destruct (Args.tensorboard a) eqn:Hflag.
  2:{ cbn [args initial_world]. rewrite Hflag.
      repeat split; try reflexivity; discriminate. }
  unfold configure. cbn [tb_dir initial_world snd]. rewrite Hdir.
  remember (checkpoint_dir (Args.name a)) as directory eqn:Edir.
  remember (events_path ("runs/" +:+ Args.name a)) as events eqn:Eev.
  remember ("runs/" +:+ Args.name a) as logdir eqn:Elog.
  simpl. rewrite Hflag.
  split; [reflexivity |]. split; [reflexivity |]. split; [reflexivity |].
  split; [reflexivity |]. split; [eauto |]. split; [discriminate |].
  intros _. split; [reflexivity |]. split; [reflexivity |].
  unfold path_exists, isfile. simpl.
  destruct (bool_decide (directory ∈ ds)) eqn:Hd;
    destruct (bool_decide (is_Some (fs !! directory))) eqn:Hf; simpl;
    (split; [try reflexivity; apply union_subseteq_l |]);
    rewrite ?Hd; try reflexivity; simpl.
  - apply bool_decide_eq_true.
    apply bool_decide_eq_true in Hf. apply lookup_insert_is_Some.
    destruct (decide (events = directory)); auto.
  - apply orb_true_iff. left.
    apply bool_decide_eq_true, elem_of_union_r, elem_of_singleton.
    reflexivity.
Qed.

Lemma dataset_check (a : Args.t) :
  String.eqb (Args.dataset a) "cifar10" || String.eqb (Args.dataset a) "cifar100"
  = true <-> valid_dataset a.
Proof.
  unfold valid_dataset. rewrite orb_true_iff, !String.eqb_eq. reflexivity.
Qed.

Lemma main_invalid_dataset (a : Args.t) (fs : gmap string file) (ds : gset string) :
  ~ valid_dataset a ->
  main (initial_world a fs ds) = (inl AssertionError, configured a fs ds).
Proof.
  intros Hbad. apply (not_iff_compat (dataset_check a)) in Hbad.
  apply not_true_is_false in Hbad.
  unfold main, bind, gets, configure, configured, raise. simpl.
  destruct (Args.tensorboard a); simpl; rewrite Hbad; reflexivity.
Qed.

Lemma main_valid_dataset (a : Args.t) (fs : gmap string file) (ds : gset string) :
  valid_dataset a ->
  main (initial_world a fs ds)
  = bind (resume_checkpoint (fresh_model a)) main_from
      (set_stdout
         (fun out => out ++ [MsgNumParams (nelement (state_dict (fresh_model a)))])
         (configured a fs ds)).
Proof.
  intros Hok. apply dataset_check in Hok.
  unfold main, configure, configured, print, modify, ret.
  unfold bind at 1. unfold gets at 1. simpl.
  destruct (Args.tensorboard a); simpl;
    unfold bind at 1; simpl; rewrite Hok; unfold bind at 1; simpl;
    unfold bind at 1; simpl; reflexivity.
Qed.

End MainFacts.

(** ** validate, the epoch loop and the checkpoints *)

Section Claims.

Context `{Framework}.

(** A batch changes the running statistics in [validate] as it does in
    [train]. *)
Lemma same_statistics (epoch : Z) (len : nat)
  (item : nat * (list Sample * list Z)) (model : Model)
  (optimizer : Optimizer Buffers) (bt l t : AverageMeter.t) (end_ : Q)
  (w : World) :
  res_map val_statistics
    (validate_batch len item (ValVars model bt l t end_) w).1
  = res_map train_statistics
      (train_batch epoch len item (TrainVars model optimizer bt l t end_) w).1.
Proof.
  destruct item as [i [input target]].
  unfold validate_batch, train_batch, bind, lift, time_time, gets, raise, print,
    modify, ret. simpl.
  destruct (forward _ _ _) as [output sd0].
  destruct (accuracy _ _ _) as [e | res]; [reflexivity |].
  destruct (first_item res) as [e | prec1]; [reflexivity |].
  destruct (AverageMeter.update l _ _) as [e | l']; [reflexivity |].
  destruct (AverageMeter.update t _ _) as [e | t']; [reflexivity |].
  destruct (sgd_step _ _ _ _) as [sd buf]. simpl.
  destruct (AverageMeter.update bt _ _) as [e | bt']; [reflexivity |].
  destruct (Args.print_freq (args w) =? 0); [reflexivity |].
  destruct (_ =? 0); reflexivity.
Qed.

(** C9.  [validate] returns on well-formed batches; whether it returns or
    raises, it leaves the files, the arguments and the best accuracy as
    they were; the model it returns has the parameters and the gradient
    buffers it was given, in evaluation mode: [model.eval()] comes first,
    and in evaluation mode the forward passes leave the state alone, while
    nothing in the loop computes a gradient or steps an optimizer; and each
    batch updates the loss and accuracy meters exactly as it does in
    [train]. *)
Theorem validate_frame (model : Model) (epoch : Z) (w : World) :
  (runnable w -> returns (validate model epoch) w)
  /\ (forall (r : Res (Q * Model)) (w' : World),
        validate model epoch w = (r, w') ->
        (exists accs, quiet accs w w')
        /\ (forall prec1 model', r = inr (prec1, model') ->
              state_dict model' = state_dict model
              /\ grads model' = grads model
              /\ training model' = false))
  /\ (forall (e : Z) (len : nat) (item : nat * (list Sample * list Z))
        (optimizer : Optimizer Buffers) (bt l t : AverageMeter.t) (end_ : Q)
        (w0 : World),
        res_map val_statistics
          (validate_batch len item (ValVars model bt l t end_) w0).1
        = res_map train_statistics
            (train_batch e len item (TrainVars model optimizer bt l t end_) w0).1).
Proof.
  split; [apply validate_returns |].
  split; [| intros; apply same_statistics].
  intros r w' Hrun. split; [eapply validate_calm; exact Hrun |].
  intros prec1 model' ->. apply validate_inr in Hrun as (_ & -> & _).
  auto.
Qed.

(** C3.  An epoch returns on well-formed batches.  When it returns it has
    saved the checkpoint record, and it has copied the checkpoint to the
    best file exactly when the validation accuracy of the epoch is strictly
    above the best accuracy before it. *)
Theorem best_file_overwritten (epoch : Z) (model : Model)
  (optimizer : Optimizer Buffers) (w : World) :
  (runnable w -> returns (epoch_body epoch (model, optimizer)) w)
  /\ forall (s' : Model * Optimizer Buffers) (w' : World),
       epoch_body epoch (model, optimizer) w = (inr s', w') ->
       let ckpt := checkpoint_path (Args.name (args w)) in
       let best := best_path (Args.name (args w)) in
       let record := MkCheckpoint (epoch + 1) (state_dict s'.1) (best_prec1 w') in
       exists (prec1 : Q) (pre copy : list fs_op),
         val_accuracies (stdout w') = val_accuracies (stdout w) ++ [prec1]
         /\ fs_log w' = fs_log w ++ pre ++ [OpSave ckpt record] ++ copy
         /\ (pre = [] \/ pre = [OpMakedirs (checkpoint_dir (Args.name (args w)))])
         /\ files w' !! ckpt = Some (Pickled record)
         /\ ((best_prec1 w < prec1)%Q ->
             copy = [OpCopyfile ckpt best]
             /\ files w' !! best = Some (Pickled record))
         /\ (~ (best_prec1 w < prec1)%Q ->
             copy = [] /\ files w' !! best = files w !! best).
Proof.
  split.
  { intros Hrun.
    destruct (epoch_body_returns epoch (model, optimizer) w Hrun)
      as (s' & w' & Hbody & _).
    exists s', w'. exact Hbody. }
  intros s' w' Hbody ckpt best record.
  apply epoch_body_post in Hbody
    as (prec1 & pre & _ & (out & Hout & Hacc) & _ & _ & _ & Hpre & Hlog & Hfiles).
  fold ckpt best record in Hlog, Hfiles.
  exists prec1, pre,
    (if Qltb (best_prec1 w) prec1 then [OpCopyfile ckpt best] else []).
  split; [rewrite Hout, val_accuracies_app, Hacc; reflexivity |].
  split; [exact Hlog |]. split; [exact Hpre |].
  pose proof (checkpoint_path_not_best (Args.name (args w))) as Hne.
  fold ckpt best in Hne.
  destruct (Qltb (best_prec1 w) prec1) eqn:Hlt.
  - apply Qltb_lt in Hlt. rewrite Hfiles.
    split; [rewrite lookup_insert_ne by congruence; apply lookup_insert_eq |].
    split; [intros _; split; [reflexivity | apply lookup_insert_eq] |].
    intros Hn. contradiction.
  - assert (Hn : ~ (best_prec1 w < prec1)%Q).
    { intros Hlt'. apply Qltb_lt in Hlt'. congruence. }
    rewrite Hfiles. simpl.
    split; [apply lookup_insert_eq |].
    split; [intros Hlt'; contradiction |].
    intros _. split; [reflexivity |]. apply lookup_insert_ne. exact Hne.
Qed.

Lemma epoch_loop_app (l1 l2 : list Z) (s : Model * Optimizer Buffers) (w : World) :
  epoch_loop (l1 ++ l2) s w = bind (epoch_loop l1 s) (epoch_loop l2) w.
Proof.
  unfold epoch_loop. revert s w.
  induction l1 as [| e l1 IH]; intros s w; simpl; [reflexivity |].
  unfold bind. destruct (epoch_body e s w) as [[ex | s1] w1];
    [reflexivity |]. exact (IH s1 w1).
Qed.

Lemma main_from_post (model : Model) (w w' : World) :
  main_from model w = (inr tt, w') ->
  exists accs : list Q,
    val_accuracies (stdout w') = val_accuracies (stdout w) ++ accs
    /\ Forall (fun a => (0 <= a)%Q) accs
    /\ is_max (best_prec1 w') (best_prec1 w :: accs).
Proof.
  unfold main_from. intros Hrun.
  invert_bind Hrun as a w0 Hargs. injection Hargs as <- <-.
  invert_bind Hrun as s1 w1 Hloop.
  invert_bind Hrun as best w2 Hbest. injection Hbest as <- <-.
  injection Hrun as <-.
  apply epoch_loop_post in Hloop
    as (accs & (out & Hout & Hacc) & _ & Hpos & _ & Hmax).
  exists accs. simpl.
  split; [| split; [exact Hpos | exact Hmax]].
  rewrite Hout, !val_accuracies_app, Hacc. simpl. rewrite app_nil_r. reflexivity.
Qed.

(** The best accuracy at the end of a whole run. *)
Lemma main_best_prec1 (a : Args.t) (fs : gmap string file) (ds : gset string)
  (w' : World) :
  main (initial_world a fs ds) = (inr tt, w') ->
  let accs := val_accuracies (stdout w') in
  (forall c : Checkpoint,
     Args.resume a ≠ "" -> fs !! Args.resume a = Some (Pickled c) ->
     is_max (best_prec1 w') (ck_best_prec1 c :: accs))
  /\ (Args.resume a = "" \/ fs !! Args.resume a = None ->
      is_max (best_prec1 w') (0%Q :: accs)
      /\ (accs ≠ [] -> is_max (best_prec1 w') accs)).
Proof.
  intros Hmain accs.
  assert (Hok : valid_dataset a).
  { destruct (String.eqb_spec (Args.dataset a) "cifar10") as [Hc | Hc];
      [left; exact Hc |].
    destruct (String.eqb_spec (Args.dataset a) "cifar100") as [Hd | Hd];
      [right; exact Hd |].
    rewrite main_invalid_dataset in Hmain; [discriminate |].
    intros [Hv | Hv]; contradiction. }
  rewrite (main_valid_dataset a fs ds Hok) in Hmain.
  remember (set_stdout _ (configured a fs ds)) as w0 eqn:Ew0.
  destruct (configured_spec a fs ds) as (Ha & Hb & Ho & _ & _ & Hoff & Hon).
  assert (Hw0 : args w0 = a /\ best_prec1 w0 = 0%Q
                /\ val_accuracies (stdout w0) = []
                /\ (files w0 !! Args.resume a = fs !! Args.resume a
                    \/ files w0 !! Args.resume a = Some Other)).
  { rewrite Ew0. cbn [args best_prec1 stdout files set_stdout].
    rewrite Ha, Hb, Ho. repeat split; try reflexivity.
    destruct (Args.tensorboard a) eqn:Hflag.
    - destruct (Hon eq_refl) as (_ & Hf & _). rewrite Hf.
      destruct (decide (events_path ("runs/" +:+ Args.name a) = Args.resume a))
        as [<- | Hne];
        [right; apply lookup_insert_eq | left; apply lookup_insert_ne; exact Hne].
    - rewrite (Hoff eq_refl). left. reflexivity. }
  clear Ew0 Ha Hb Ho Hoff Hon.
  destruct Hw0 as (Hargs & Hbest & Hout & Hfiles).
  invert_bind Hmain as model1 w1 Hres.
  assert (Hother : files w0 !! Args.resume a = Some Other ->
                   Args.resume a ≠ "" -> False).
  { intros Hfile Hpath.
    destruct (resume_not_pickled (fresh_model a) w0) as (wx & Hx);
      [rewrite Hargs; exact Hpath | rewrite Hargs; exact Hfile |].
    rewrite Hx in Hres. discriminate. }
  split.
  - intros c Hpath Hfile.
    destruct Hfiles as [Hfiles | Hfiles]; [| destruct (Hother Hfiles Hpath)].
    rewrite resume_found with (c := c) in Hres;
      [| rewrite Hargs; exact Hpath | rewrite Hargs, Hfiles; exact Hfile].
    injection Hres as <- <-.
    apply main_from_post in Hmain as (accs' & Hacc & _ & Hmax).
    simpl in Hacc, Hmax. rewrite !val_accuracies_app, Hout in Hacc.
    simpl in Hacc. unfold accs. rewrite Hacc. exact Hmax.
  - intros Hnone.
    assert (Hw1 : best_prec1 w1 = 0%Q /\ val_accuracies (stdout w1) = []).
    { destruct (String.eqb_spec (Args.resume a) "") as [Hempty | Hgiven].
      - rewrite resume_none in Hres by (rewrite Hargs; exact Hempty).
        injection Hres as <- <-. auto.
      - destruct Hnone as [Hempty | Hmissing]; [contradiction |].
        destruct Hfiles as [Hfiles | Hfiles]; [| destruct (Hother Hfiles Hgiven)].
        rewrite resume_missing in Hres;
          [| rewrite Hargs; exact Hgiven | rewrite Hargs, Hfiles; exact Hmissing].
        injection Hres as <- <-. simpl. split; [exact Hbest |].
        rewrite val_accuracies_app, Hout. reflexivity. }
    destruct Hw1 as (Hbest1 & Hout1).
    apply main_from_post in Hmain as (accs' & Hacc & Hpos & Hmax).
    rewrite Hout1 in Hacc. simpl in Hacc. rewrite Hbest1 in Hmax.
    unfold accs. rewrite Hacc. split; [exact Hmax |].
    intros Hne. eapply is_max_from_zero; [reflexivity | exact Hne | exact Hpos | exact Hmax].
Qed.

(** C4.  The loop over the epochs returns on well-formed batches.  When it
    returns, the best accuracy has not decreased, and it is the maximum of
    its value at the start of the loop (0, or the value restored from a
    checkpoint) and the validation accuracies of the epochs; when the start
    value is 0 and an epoch has run, it is the maximum of the validation
    accuracies alone.  This holds after each epoch, as the loop over the
    first [k] epochs is such a loop, and its best accuracy is not above the
    final one.  For a whole run of [main] that returns: the final best
    accuracy is the maximum of the validation accuracies it reported,
    together with the best accuracy of the checkpoint when it resumed from
    one. *)
Theorem best_prec1_maximum (epochs : list Z) (s : Model * Optimizer Buffers)
  (w : World) (a : Args.t) (fs : gmap string file) (ds : gset string) :
  (runnable w -> returns (epoch_loop epochs s) w)
  /\ (forall wend : World,
        main (initial_world a fs ds) = (inr tt, wend) ->
        (forall c : Checkpoint,
           Args.resume a ≠ "" -> fs !! Args.resume a = Some (Pickled c) ->
           is_max (best_prec1 wend)
                  (ck_best_prec1 c :: val_accuracies (stdout wend)))
        /\ (Args.resume a = "" \/ fs !! Args.resume a = None ->
            val_accuracies (stdout wend) ≠ [] ->
            is_max (best_prec1 wend) (val_accuracies (stdout wend))))
  /\ forall (s' : Model * Optimizer Buffers) (w' : World),
       epoch_loop epochs s w = (inr s', w') ->
       (exists accs : list Q,
          val_accuracies (stdout w') = val_accuracies (stdout w) ++ accs
          /\ List.length accs = List.length epochs
          /\ (best_prec1 w <= best_prec1 w')%Q
          /\ is_max (best_prec1 w') (best_prec1 w :: accs)
          /\ ((best_prec1 w == 0)%Q -> epochs ≠ [] ->
              is_max (best_prec1 w') accs))
       /\ (forall k : nat,
             exists sk wk,
               epoch_loop (take k epochs) s w = (inr sk, wk)
               /\ epoch_loop (drop k epochs) sk wk = (inr s', w')
               /\ (best_prec1 w <= best_prec1 wk)%Q
               /\ (best_prec1 wk <= best_prec1 w')%Q).
Proof.
  split.
  { intros Hrun. destruct (epoch_loop_returns epochs s w Hrun) as (s' & w' & Hl & _).
    exists s', w'. exact Hl. }
  split.
  { intros wend Hmain. destruct (main_best_prec1 a fs ds wend Hmain) as [Hres Hfresh].
    split; [exact Hres |]. intros Hnone Hne. apply Hfresh; assumption. }
  intros s' w' Hloop. split.
  - destruct (epoch_loop_post _ _ _ _ _ Hloop)
      as (accs & (out & Hout & Hacc) & Hlen & Hpos & Hle & Hmax).
    exists accs.
    split; [rewrite Hout, val_accuracies_app, Hacc; reflexivity |].
    split; [exact Hlen |]. split; [exact Hle |]. split; [exact Hmax |].
    intros Hzero Hne. eapply is_max_from_zero; [exact Hzero | | exact Hpos | exact Hmax].
    destruct accs; [| discriminate]. destruct epochs; [congruence | discriminate].
  - intros k. rewrite <- (take_drop k epochs), epoch_loop_app in Hloop.
    invert_bind Hloop as sk wk Hk. exists sk, wk.
    split; [exact Hk |]. split; [exact Hloop |].
    apply epoch_loop_post in Hk as (? & _ & _ & _ & Hle1 & _).
    apply epoch_loop_post in Hloop as (? & _ & _ & _ & Hle2 & _).
    split; assumption.
Qed.

End Claims.

Section MainClaims.

Context `{Framework}.

Lemma checkpoint_path_nonempty (name : string) : checkpoint_path name ≠ "".
Proof. discriminate. Qed.

Lemma best_path_nonempty (name : string) : best_path name ≠ "".
Proof. discriminate. Qed.

Lemma main_from_returns (model : Model) (w : World) :
  runnable w -> exists w', main_from model w = (inr tt, w').
Proof.
  intros Hrun. unfold main_from.
  rewrite (bind_inr (gets args) _ w _ _ eq_refl). cbv beta.
  destruct (epoch_loop_returns
              (range (Args.start_epoch (args w)) (Args.epochs (args w)))
              (model, SGD (Args.lr (args w)) (Args.momentum (args w))
                          (Args.nesterov (args w)) (Args.weight_decay (args w)))
              w Hrun) as (s' & w1 & Hloop & _).
  rewrite (bind_inr _ _ _ _ _ Hloop).
  rewrite (bind_inr (gets best_prec1) _ w1 _ _ eq_refl). cbv beta.
  eexists. reflexivity.
Qed.

(** C6.  [save_checkpoint] returns.  A later run whose resume path is the
    file it wrote (or the best file, when it wrote one) and which finds the
    files it left restores the epoch of the record as the starting epoch,
    the best accuracy of the record as the best accuracy and the parameters
    of the record as the parameters of the model; [main] of that run goes on
    from there. *)
Theorem checkpoint_roundtrip (state : Checkpoint) (is_best : bool) (w : World)
  (a' : Args.t) (ds' : gset string) :
  let saved := save_checkpoint state is_best "checkpoint.pth.tar" w in
  Args.resume a' = checkpoint_path (Args.name (args w))
  \/ (is_best = true /\ Args.resume a' = best_path (Args.name (args w))) ->
  saved.1 = inr tt
  /\ (forall (model : Model) (wr : World),
        args wr = a' -> files wr = files saved.2 ->
        exists w2 : World,
          resume_checkpoint model wr
          = (inr (load_state_dict model (ck_state_dict state)), w2)
          /\ args w2 = Args.set_start_epoch a' (ck_epoch state)
          /\ best_prec1 w2 = ck_best_prec1 state
          /\ files w2 = files wr)
  /\ (valid_dataset a' ->
      exists (model' : Model) (w2 : World),
        main (initial_world a' (files saved.2) ds') = main_from model' w2
        /\ state_dict model' = ck_state_dict state
        /\ Args.start_epoch (args w2) = ck_epoch state
        /\ Args.epochs (args w2) = Args.epochs a'
        /\ best_prec1 w2 = ck_best_prec1 state).
Proof.
  intros saved Hpath.
  destruct (save_checkpoint_run state is_best "checkpoint.pth.tar" w)
    as (w1 & Hsave & _ & _ & _ & _ & _ & Hfiles).
  fold (checkpoint_path (Args.name (args w))) in Hfiles.
  unfold saved. rewrite Hsave. simpl.
  pose proof (checkpoint_path_not_best (Args.name (args w))) as Hne.
  assert (Hfile : files w1 !! Args.resume a' = Some (Pickled state)).
  { rewrite Hfiles. destruct Hpath as [-> | [-> ->]].
    - destruct is_best; simpl;
        [rewrite lookup_insert_ne by congruence |]; apply lookup_insert_eq.
    - apply lookup_insert_eq. }
  assert (Hres : Args.resume a' ≠ "").
  { destruct Hpath as [-> | [_ ->]]; discriminate. }
  assert (Hresume : forall (model : Model) (wr : World),
            args wr = a' ->
            files wr !! Args.resume a' = Some (Pickled state) ->
            exists w2 : World,
              resume_checkpoint model wr
              = (inr (load_state_dict model (ck_state_dict state)), w2)
              /\ args w2 = Args.set_start_epoch a' (ck_epoch state)
              /\ best_prec1 w2 = ck_best_prec1 state
              /\ files w2 = files wr).
  { intros model wr Hargs Hwr. eexists. split.
    - apply resume_found; rewrite Hargs; [exact Hres | exact Hwr].
    - simpl. rewrite Hargs. repeat split; reflexivity. }
  split; [reflexivity |].
  split; [intros model wr Hargs Hwr; apply Hresume;
          [exact Hargs | rewrite Hwr; exact Hfile] |].
  intros Hok. rewrite (main_valid_dataset a' (files w1) ds' Hok).
  destruct (configured_spec a' (files w1) ds')
    as (Ha & _ & _ & _ & _ & Hoff & Hon).
  destruct (Hresume (fresh_model a')
              (set_stdout
                 (fun out => out ++ [MsgNumParams (nelement (state_dict (fresh_model a')))])
                 (configured a' (files w1) ds')))
    as (w2 & Hrun & Hargs & Hbest & _).
  { exact Ha. }
  { cbn [files set_stdout]. destruct (Args.tensorboard a') eqn:Hflag.
    - destruct (Hon eq_refl) as (_ & -> & _).
      rewrite lookup_insert_ne; [exact Hfile |].
      destruct Hpath as [-> | [_ ->]];
        apply events_path_not_saved; reflexivity.
    - rewrite (Hoff eq_refl). exact Hfile. }
  exists (load_state_dict (fresh_model a') (ck_state_dict state)), w2.
  split; [apply bind_inr; exact Hrun |].
  rewrite Hargs. split; [reflexivity |]. split; [reflexivity |].
  split; [reflexivity | exact Hbest].
Qed.


(** C8.  [main] ends by the failed assertion exactly when the dataset
    name is neither ["cifar10"] nor ["cifar100"]; it then ends at the
    assertion, before the script has printed anything or touched a file:
    the world is the one its first statement left, the initial one, or,
    when the flag asks for TensorBoard, the initial one with the logger
    configured, its directory made and its events file opened.  For the
    two names the assertion passes and [main] goes on with the model, the
    resume block and the loop. *)
Theorem dataset_assertion (a : Args.t) (fs : gmap string file) (ds : gset string) :
  ((main (initial_world a fs ds)).1 = inl AssertionError
   <-> Args.dataset a ≠ "cifar10" /\ Args.dataset a ≠ "cifar100")
  /\ (Args.dataset a ≠ "cifar10" /\ Args.dataset a ≠ "cifar100" ->
      main (initial_world a fs ds) = (inl AssertionError, configured a fs ds)
      /\ stdout (configured a fs ds) = []
      /\ fs_log (configured a fs ds) = []
      /\ (Args.tensorboard a = false ->
          configured a fs ds = initial_world a fs ds)
      /\ (Args.tensorboard a = true ->
          files (configured a fs ds)
          = <[events_path ("runs/" +:+ Args.name a) := Other]> fs
          /\ ds ⊆ dirs (configured a fs ds)))
  /\ (Args.dataset a = "cifar10" \/ Args.dataset a = "cifar100" ->
      main (initial_world a fs ds)
      = bind (resume_checkpoint (fresh_model a)) main_from
          (set_stdout
             (fun out =>
                out ++ [MsgNumParams (nelement (state_dict (fresh_model a)))])
             (configured a fs ds))).
Proof.
  assert (Hbad : Args.dataset a ≠ "cifar10" /\ Args.dataset a ≠ "cifar100"
                 <-> ~ valid_dataset a).
  { unfold valid_dataset. tauto. }
  split; [| split].
  - split.
    + intros Hrun. apply Hbad. intros Hok.
      rewrite (main_valid_dataset a fs ds Hok) in Hrun.
      destruct (bind _ _ _) as [r w'] eqn:Hmain. simpl in Hrun. subst r.
      pose proof (steps_bind anywhere not_assertion _ _
                    (steps_resume_checkpoint (fresh_model a)) steps_main_from
                    _ _ _ Hmain) as [_ He].
      apply (He AssertionError); reflexivity.
    + intros Hno. apply Hbad in Hno.
      rewrite (main_invalid_dataset a fs ds Hno). reflexivity.
  - intros Hno. apply Hbad in Hno.
    split; [apply main_invalid_dataset; exact Hno |].
    destruct (configured_spec a fs ds) as (_ & _ & Ho & Hl & _ & Hoff & Hon).
    split; [exact Ho |]. split; [exact Hl |]. split; [exact Hoff |].
    intros Hflag. destruct (Hon Hflag) as (_ & Hf & Hd & _). auto.
  - apply main_valid_dataset.
Qed.

End MainClaims.

(** ** The script on the small instance *)

Lemma toy_runnable : runnable (H := toy) (initial_world (H := toy) toy_args ∅ ∅).
Proof.
  split; [| split].
  - intros sd mode epoch b Hb.
    assert (Hin : b ∈ toy_batches) by (destruct Hb; assumption).
    apply list_elem_of_In in Hin. simpl in Hin.
    destruct Hin as [<- | [<- | []]]; reflexivity.
  - discriminate.
  - intros Htb. discriminate Htb.
Qed.

Lemma validate_frame_witness :
  exists (prec1 : Q) (model' : Model (H := toy)) (w' : World (H := toy)),
    validate (H := toy) (fresh_model (H := toy) toy_args) 0
      (initial_world (H := toy) toy_args ∅ ∅) = (inr (prec1, model'), w')
    /\ state_dict model' = state_dict (fresh_model (H := toy) toy_args)
    /\ files w' = ∅.
Proof.
  destruct (validate_frame (H := toy) (fresh_model (H := toy) toy_args) 0
              (initial_world (H := toy) toy_args ∅ ∅)) as (Hret & Hframe & _).
  destruct (Hret toy_runnable) as ([prec1 model'] & w' & Hrun).
  destruct (Hframe _ _ Hrun) as ((accs & Hquiet) & Hmodel).
  destruct (Hmodel prec1 model' eq_refl) as (Hsd & _).
  exists prec1, model', w'. split; [exact Hrun |]. split; [exact Hsd |].
  exact (quiet_files _ _ _ Hquiet).
Defined.

Lemma best_file_overwritten_witness :
  exists (s' : Model (H := toy) * Optimizer unit) (w' : World (H := toy))
         (prec1 : Q),
    epoch_body (H := toy) 0
      (fresh_model (H := toy) toy_args, SGD (H := toy) 0.1 0.9 true 0.0005)
      (initial_world (H := toy) toy_args ∅ ∅) = (inr s', w')
    /\ val_accuracies (stdout w') = [prec1]
    /\ files w' !! "runs/toy/checkpoint.pth.tar"
       = Some (Pickled (MkCheckpoint (H := toy) 1 (state_dict s'.1) (best_prec1 w'))).
Proof.
  destruct (best_file_overwritten (H := toy) 0 (fresh_model (H := toy) toy_args)
              (SGD (H := toy) 0.1 0.9 true 0.0005)
              (initial_world (H := toy) toy_args ∅ ∅)) as [Hret Hpost].
  destruct (Hret toy_runnable) as (s' & w' & Hrun).
  destruct (Hpost s' w' Hrun) as (prec1 & pre & copy & Hacc & _ & _ & Hfile & _).
  exists s', w', prec1. split; [exact Hrun |]. split; [exact Hacc | exact Hfile].
Defined.

Lemma best_prec1_maximum_witness :
  exists (s' : Model (H := toy) * Optimizer unit) (w' : World (H := toy))
         (accs : list Q),
    epoch_loop (H := toy) [0; 1; 2]
      (fresh_model (H := toy) toy_args, SGD (H := toy) 0.1 0.9 true 0.0005)
      (initial_world (H := toy) toy_args ∅ ∅) = (inr s', w')
    /\ val_accuracies (stdout w') = accs
    /\ List.length accs = 3%nat
    /\ is_max (best_prec1 w') accs.
Proof.
  destruct (best_prec1_maximum (H := toy) [0; 1; 2]
              (fresh_model (H := toy) toy_args,
               SGD (H := toy) 0.1 0.9 true 0.0005)
              (initial_world (H := toy) toy_args ∅ ∅) toy_args ∅ ∅)
    as (Hret & _ & Hpost).
  destruct (Hret toy_runnable) as (s' & w' & Hrun).
  destruct (Hpost s' w' Hrun) as ((accs & Hacc & Hlen & _ & _ & Hmax) & _).
  exists s', w', accs. split; [exact Hrun |]. split; [exact Hacc |].
  split; [exact Hlen |]. apply Hmax; [reflexivity | discriminate].
Defined.

Lemma checkpoint_roundtrip_witness :
  exists (model' : Model (H := toy)) (w2 : World (H := toy)),
    resume_checkpoint (H := toy) (fresh_model (H := toy) toy_resume_args)
      (initial_world (H := toy) toy_resume_args
         (files (save_checkpoint (H := toy) toy_record false "checkpoint.pth.tar"
                   (initial_world (H := toy) toy_args ∅ ∅)).2)
         (dirs (save_checkpoint (H := toy) toy_record false "checkpoint.pth.tar"
                  (initial_world (H := toy) toy_args ∅ ∅)).2))
    = (inr model', w2)
    /\ Args.start_epoch (args w2) = 5
    /\ best_prec1 w2 = 75%Q
    /\ state_dict model' = -10.
Proof.
  destruct (checkpoint_roundtrip (H := toy) toy_record false
              (initial_world (H := toy) toy_args ∅ ∅) toy_resume_args ∅)
    as (_ & Hresume & _).
  - left. reflexivity.
  - destruct (Hresume (fresh_model (H := toy) toy_resume_args)
                (initial_world (H := toy) toy_resume_args
                   (files (save_checkpoint (H := toy) toy_record false
                             "checkpoint.pth.tar"
                             (initial_world (H := toy) toy_args ∅ ∅)).2)
                   (dirs (save_checkpoint (H := toy) toy_record false
                            "checkpoint.pth.tar"
                            (initial_world (H := toy) toy_args ∅ ∅)).2)))
      as (w2 & Hrun & Hargs & Hbest & _); [reflexivity | reflexivity |].
    eexists _, w2. split; [exact Hrun |].
    split; [rewrite Hargs; reflexivity |]. split; [exact Hbest | reflexivity].
Defined.


Lemma dataset_assertion_witness :
  main (H := toy) (initial_world (H := toy) toy_invalid_args ∅ ∅)
  = (inl AssertionError, configured (H := toy) toy_invalid_args ∅ ∅)
  /\ files (configured (H := toy) toy_invalid_args ∅ ∅)
     !! "runs/toy/events.out.tfevents.0.toy" = Some (Other (H := toy))
  /\ (main (H := toy) (initial_world (H := toy) toy_args ∅ ∅)).1
     ≠ inl AssertionError.
Proof.
  destruct (dataset_assertion (H := toy) toy_invalid_args ∅ ∅)
    as (_ & Hbad & _).
  destruct (dataset_assertion (H := toy) toy_args ∅ ∅) as (Hiff & _ & _).
  destruct Hbad as (Hmain & _ & _ & _ & Hon); [split; discriminate |].
  split; [exact Hmain |]. split.
  - destruct (Hon eq_refl) as [Hfiles _]. rewrite Hfiles.
    exact (lookup_insert_eq (M := gmap string) ∅
             "runs/toy/events.out.tfevents.0.toy" Other).
  - intros Hrun. apply Hiff in Hrun as [Hne _]. apply Hne. reflexivity.
Defined.

(** The toy run: validation accuracies 50, 50 and 25; the best file is
    copied in the first epoch only, the tie of the second epoch does not
    copy it. *)
Example toy_run :
  let r := main (H := toy) (initial_world (H := toy) toy_args ∅ ∅) in
  r.1 = inr tt
  /\ Forall2 Qeq (val_accuracies (stdout r.2)) [50; 50; 25]%Q
  /\ (best_prec1 r.2 == 50)%Q
  /\ map (fun op => match op with
                    | OpMakedirs _ => "makedirs"
                    | OpSave _ c => "save"
                    | OpCopyfile _ _ => "copyfile"
                    end) (fs_log r.2)
     = ["makedirs"; "save"; "copyfile"; "save"; "save"].
Proof.
  vm_compute. split; [reflexivity |]. split; [| split; reflexivity].
  repeat constructor.
Qed.

(** * Further properties *)

(** ** accuracy: monotonicity, labels, errors *)

Section AccuracyMore.

Lemma wf_scores_rows (output : scores) :
  wf_scores output = true ->
  Forall (fun r : list Q => List.length r = ncols output) (rows output).
Proof.
  unfold wf_scores. rewrite forallb_forall. intros Hwf.
  apply Forall_forall. intros r Hr. apply Nat.eqb_eq, Hwf.
  apply list_elem_of_In. exact Hr.
Qed.

Lemma Forall2_of_Foralls {A B : Type} (PA : A -> Prop) (PB : B -> Prop)
  (P : A -> B -> Prop) (l1 : list A) :
  (forall x y, PA x -> PB y -> P x y) ->
  Forall PA l1 ->
  forall l2 : list B,
    Forall PB l2 -> List.length l2 = List.length l1 -> Forall2 P l1 l2.
Proof.
  intros HP. induction 1 as [| x l1 Hx _ IH]; intros l2 H2 Hlen.
  - destruct l2; [constructor | discriminate].
  - destruct l2 as [| y l2]; [discriminate |].
    apply Forall_cons in H2 as [Hy H2]. constructor; [auto |].
    apply IH; [exact H2 |]. simpl in Hlen. lia.
Qed.

Lemma count_true_le (l : list bool) : (count_true l <= List.length l)%nat.
Proof. induction l as [| [] l IH]; simpl; lia. Qed.

Lemma count_true_zip_with_mono {A B : Type} (f g : A -> B -> bool) (l1 : list A) :
  (forall x y, f x y = true -> g x y = true) ->
  forall l2 : list B,
    (count_true (zip_with f l1 l2) <= count_true (zip_with g l1 l2))%nat.
Proof.
  intros Hfg. induction l1 as [| x l1 IH]; intros l2; [simpl; lia |].
  destruct l2 as [| y l2]; [simpl; lia |]. simpl. specialize (IH l2).
  destruct (f x y) eqn:Hf; [rewrite (Hfg _ _ Hf); lia |].
  destruct (g x y); lia.
Qed.

Lemma in_top_k_mono (k k' : nat) (row : list Q) (t : Z) :
  (k <= k')%nat -> in_top_k k row t = true -> in_top_k k' row t = true.
Proof.
  unfold in_top_k. intros Hk.
  rewrite !andb_true_iff, !Nat.ltb_lt. intros [Hrange Hrank]. split; [exact Hrange | lia].
Qed.

Lemma hits_mono (k k' : nat) (output : scores) (target : list Z) :
  (k <= k')%nat -> (hits k output target <= hits k' output target)%nat.
Proof.
  intros Hk. unfold hits. apply count_true_zip_with_mono.
  intros row t. apply in_top_k_mono. exact Hk.
Qed.

Lemma share_mono (h h' b : nat) :
  (h <= h')%nat -> b ≠ 0%nat ->
  (inject_Z (Z.of_nat h) * (100 / inject_Z (Z.of_nat b))
   <= inject_Z (Z.of_nat h') * (100 / inject_Z (Z.of_nat b)))%Q.
Proof.
  intros Hle Hb. apply Qmult_le_compat_r.
  - rewrite <- Zle_Qle. lia.
  - apply Qdiv_nonneg; [lra | apply inject_nat_nonneg].
Qed.

(** X5.  Precision at k grows with k: on a well-formed, non-empty batch,
    the value for [k] is at most the value for [k'] when [k <= k']. *)
Theorem accuracy_monotone_in_k (output : scores) (target : list Z) (k k' : Z) :
  wf_scores output = true ->
  List.length target = List.length (rows output) ->
  target ≠ [] ->
  0 <= k <= k' ->
  k' <= Z.of_nat (ncols output) ->
  exists r r' : Q,
    accuracy output target [k; k'] = inr [r; r'] /\ (r <= r')%Q.
Proof.
  intros Hwf Hlen Hne Hk Hk'.
  assert (Hacc := accuracy_returns output target [k; k'] Hwf Hlen Hne
                    ltac:(discriminate) ltac:(repeat constructor; lia)).
  cbn [map] in Hacc. eexists _, _. split; [exact Hacc |].
  apply share_mono; [| apply length_nonzero; exact Hne].
  apply hits_mono. lia.
Qed.

Lemma accuracy_monotone_in_k_witness :
  exists r r' : Q,
    accuracy sample_scores [1; 1; 2] [1; 2] = inr [r; r'] /\ (r <= r')%Q.
Proof.
  apply (accuracy_monotone_in_k sample_scores [1; 1; 2] 1 2).
  - reflexivity.
  - reflexivity.
  - discriminate.
  - lia.
  - simpl. lia.
Defined.

Lemma filter_length_lt {A : Type} (P : A -> Prop) `{forall x, Decision (P x)}
  (l : list A) (x : A) :
  x ∈ l -> ~ P x -> (List.length (filter P l) < List.length l)%nat.
Proof.
  intros Hin HP. induction l as [| y l IH]; [inversion Hin |].
  pose proof (length_filter P l) as Hle.
  apply elem_of_cons in Hin as [-> | Hin].
  - rewrite filter_cons_False by exact HP. simpl. lia.
  - specialize (IH Hin). destruct (decide (P y)).
    + rewrite filter_cons_True by assumption. simpl. lia.
    + rewrite filter_cons_False by assumption. simpl. lia.
Qed.

Lemma in_top_k_invalid_label (k : nat) (row : list Q) (t : Z) :
  t < 0 \/ Z.of_nat (List.length row) <= t -> in_top_k k row t = false.
Proof.
  intros Ht. unfold in_top_k.
  destruct (Z.leb_spec 0 t) as [H0 | H0]; [| reflexivity].
  destruct (Nat.ltb_spec (Z.to_nat t) (List.length row)) as [Hlt | Hge];
    [lia | reflexivity].
Qed.

(** X7.  Labels are not checked: on a well-formed, non-empty batch whose
    labels are all outside the class indices, [accuracy] raises nothing and
    returns 0 for every k. *)
Theorem accuracy_invalid_labels (output : scores) (target topk : list Z) :
  wf_scores output = true ->
  List.length target = List.length (rows output) ->
  target ≠ [] ->
  topk ≠ [] ->
  Forall (fun k => 0 <= k <= Z.of_nat (ncols output)) topk ->
  Forall (fun t => t < 0 \/ Z.of_nat (ncols output) <= t) target ->
  exists res : list Q,
    accuracy output target topk = inr res
    /\ List.length res = List.length topk
    /\ Forall (fun r => (r == 0)%Q) res.
Proof.
  intros Hwf Hlen Hne Htopk Hks Hlabels.
  pose proof (inject_nat_nonzero _ (length_nonzero _ Hne)) as HB.
  eexists. split; [apply accuracy_returns; assumption |].
  split; [apply length_map |].
  apply Forall_forall. intros r Hr. apply list_elem_of_fmap in Hr as (k & -> & _).
  rewrite hits_none.
  - change (inject_Z (Z.of_nat 0)) with 0%Q. field. exact HB.
  - eapply Forall2_of_Foralls;
      [| apply wf_scores_rows; exact Hwf | exact Hlabels | exact Hlen].
    intros row t Hrow Ht. simpl in Hrow. apply in_top_k_invalid_label.
    rewrite Hrow. exact Ht.
Qed.

Lemma accuracy_invalid_labels_witness :
  exists res : list Q,
    accuracy sample_scores [3; -1; 7] [1; 3] = inr res
    /\ List.length res = 2%nat
    /\ Forall (fun r => (r == 0)%Q) res.
Proof.
  apply (accuracy_invalid_labels sample_scores [3; -1; 7] [1; 3]).
  - reflexivity.
  - reflexivity.
  - discriminate.
  - discriminate.
  - repeat constructor; simpl; lia.
  - repeat constructor; simpl; lia.
Defined.

End AccuracyMore.

Section AccuracyErrors.

(** X8.  When [accuracy] raises.  An empty tuple of k raises [ValueError].
    Otherwise, with [maxk] the largest k: [maxk] outside 0..classes raises
    [RuntimeError]; so does a number of labels that is neither the number
    of rows nor 1; with labels present and as many as the rows (or a single
    one, which is broadcast) [accuracy] returns one value per requested k. *)
Theorem accuracy_raises (output : scores) (target topk : list Z) (maxk : Z) :
  (topk = [] -> accuracy output target topk = inl ValueError)
  /\ (py_max topk = inr maxk ->
      (maxk < 0 \/ Z.of_nat (ncols output) < maxk ->
       accuracy output target topk = inl RuntimeError)
      /\ (0 <= maxk <= Z.of_nat (ncols output) ->
          List.length target ≠ List.length (rows output) ->
          List.length target ≠ 1%nat ->
          accuracy output target topk = inl RuntimeError)
      /\ (0 <= maxk <= Z.of_nat (ncols output) ->
          target ≠ [] ->
          List.length target = List.length (rows output)
          \/ List.length target = 1%nat ->
          exists res : list Q,
            accuracy output target topk = inr res
            /\ List.length res = List.length topk)).
Proof.
  split; [intros ->; reflexivity |]. intros Hmax.
  assert (Hin_range : 0 <= maxk <= Z.of_nat (ncols output) ->
            tensor_topk output maxk
            = inr (map (topk_row (Z.to_nat maxk)) (rows output))).
  { intros Hr. unfold tensor_topk.
    destruct (Z.ltb_spec maxk 0); [lia |].
    destruct (Z.ltb_spec (Z.of_nat (ncols output)) maxk); [lia | reflexivity]. }
  unfold accuracy. rewrite Hmax. cbn [res_bind].
  split; [| split].
  - intros Hout. unfold tensor_topk.
    destruct (Z.ltb_spec maxk 0); [reflexivity |].
    destruct (Z.ltb_spec (Z.of_nat (ncols output)) maxk); [reflexivity | lia].
  - intros Hr Hlen Hone. rewrite (Hin_range Hr). cbn [res_bind].
    unfold expand_target.
    destruct (Nat.eqb_spec (List.length target) (List.length (rows output)));
      [contradiction |].
    destruct target as [| t [| t' target]]; [reflexivity | | reflexivity].
    simpl in Hone. congruence.
  - intros Hr Hne Hlen. rewrite (Hin_range Hr). cbn [res_bind].
    assert (Hexp : exists expanded,
              expand_target target (Z.to_nat maxk) (List.length (rows output))
              = inr expanded).
    { unfold expand_target.
      destruct (Nat.eqb_spec (List.length target) (List.length (rows output)));
        [eauto |].
      destruct Hlen as [Hlen | Hlen]; [contradiction |].
      destruct target as [| t [| t' target]]; [discriminate | eauto | discriminate]. }
    destruct Hexp as [expanded ->]. cbn [res_bind].
    destruct (Z.eqb_spec (Z.of_nat (List.length target)) 0) as [Hz | _].
    { destruct target; [congruence | simpl in Hz; lia]. }
    eexists. split; [apply res_mapM_inr; intros k _; reflexivity |].
    apply length_map.
Qed.

Lemma accuracy_raises_witness :
  accuracy sample_scores [1; 1; 2] [] = inl ValueError
  /\ accuracy sample_scores [1; 1; 2] [1; 4] = inl RuntimeError
  /\ accuracy sample_scores [1; 1] [1] = inl RuntimeError
  /\ exists res : list Q,
       accuracy sample_scores [1; 1; 2] [1; 3] = inr res
       /\ List.length res = 2%nat.
Proof.
  split.
  { destruct (accuracy_raises sample_scores [1; 1; 2] [] 0) as [Hempty _].
    apply Hempty. reflexivity. }
  split.
  { destruct (accuracy_raises sample_scores [1; 1; 2] [1; 4] 4) as [_ Hmax].
    destruct (Hmax eq_refl) as (Hout & _ & _).
    apply Hout. right. simpl. lia. }
  split.
  { destruct (accuracy_raises sample_scores [1; 1] [1] 1) as [_ Hmax].
    destruct (Hmax eq_refl) as (_ & Hshape & _).
    apply Hshape; [simpl; lia | discriminate | discriminate]. }
  destruct (accuracy_raises sample_scores [1; 1; 2] [1; 3] 3) as [_ Hmax].
  destruct (Hmax eq_refl) as (_ & _ & Hok).
  apply Hok; [simpl; lia | discriminate | left; reflexivity].
Defined.

End AccuracyErrors.

Section AccuracyOrder.

Variable f : Q -> Q.
Hypothesis f_increasing : forall x y : Q, (x < y)%Q <-> (f x < f y)%Q.

Lemma f_equal_scores (x y : Q) : (x == y)%Q <-> (f x == f y)%Q.
Proof.
  pose proof (f_increasing x y) as Hxy. pose proof (f_increasing y x) as Hyx.
  split; intros Heq.
  - destruct (Qlt_le_dec (f x) (f y)) as [Hlt | Hge];
      [apply Hxy in Hlt; lra |].
    destruct (Qlt_le_dec (f y) (f x)) as [Hlt | Hge'];
      [apply Hyx in Hlt; lra | lra].
  - destruct (Qlt_le_dec x y) as [Hlt | Hge]; [apply Hxy in Hlt; lra |].
    destruct (Qlt_le_dec y x) as [Hlt | Hge']; [apply Hyx in Hlt; lra | lra].
Qed.

Lemma score_map (row : list Q) (j : nat) :
  (j < List.length row)%nat -> score (map f row) j = f (score row j).
Proof.
  intros Hj. unfold score.
  rewrite (nth_indep (map f row) 0%Q (f 0%Q)) by (rewrite length_map; exact Hj).
  apply map_nth.
Qed.

Lemma ranks_before_map (row : list Q) (j l : nat) :
  (j < List.length row)%nat -> (l < List.length row)%nat ->
  ranks_before (map f row) j l <-> ranks_before row j l.
Proof.
  intros Hj Hl. rewrite !ranks_before_spec, !score_map by assumption.
  rewrite <- f_increasing, <- f_equal_scores. reflexivity.
Qed.

Lemma filter_ext_elem {A : Type} (P R : A -> Prop) `{forall x, Decision (P x)}
  `{forall x, Decision (R x)} (l : list A) :
  (forall x, x ∈ l -> P x <-> R x) -> filter P l = filter R l.
Proof.
  induction l as [| x l IH]; intros Hext; [reflexivity |].
  assert (Hl : filter P l = filter R l).
  { apply IH. intros y Hy. apply Hext. right. exact Hy. }
  destruct (decide (P x)) as [HP | HP].
  - rewrite !filter_cons_True; [congruence | apply Hext; [left | exact HP] | exact HP].
  - rewrite !filter_cons_False; [exact Hl | | exact HP].
    intros HR. apply HP. apply Hext; [left | exact HR].
Qed.

Lemma rank_map (row : list Q) (l : nat) :
  (l < List.length row)%nat -> rank (map f row) l = rank row l.
Proof.
  intros Hl. unfold rank. rewrite length_map. f_equal.
  apply filter_ext_elem. intros j Hj%elem_of_seq.
  rewrite ranks_before_map by lia. reflexivity.
Qed.

Lemma in_top_k_map (k : nat) (row : list Q) (t : Z) :
  in_top_k k (map f row) t = in_top_k k row t.
Proof.
  unfold in_top_k. rewrite length_map.
  destruct (Z.leb_spec 0 t); [| reflexivity].
  destruct (Nat.ltb_spec (Z.to_nat t) (List.length row)) as [Hlt | Hge];
    [| reflexivity].
  rewrite rank_map by exact Hlt. reflexivity.
Qed.

Lemma hits_map (k : nat) (output : scores) (target : list Z) :
  hits k (map_scores f output) target = hits k output target.
Proof.
  unfold hits, map_scores. simpl. f_equal. generalize (rows output) as rs.
  intros rs. revert target. induction rs as [| row rs IH]; intros target;
    [reflexivity |].
  destruct target as [| t target]; [reflexivity |]. simpl.
  rewrite in_top_k_map, IH. reflexivity.
Qed.

(** X9.  [accuracy] sees only the order of the scores: on a well-formed,
    non-empty batch, applying a strictly increasing function to every score
    (a temperature, a shift, a logarithm) changes no returned value. *)
Theorem accuracy_order_only (output : scores) (target topk : list Z) :
  wf_scores output = true ->
  List.length target = List.length (rows output) ->
  target ≠ [] ->
  topk ≠ [] ->
  Forall (fun k => 0 <= k <= Z.of_nat (ncols output)) topk ->
  accuracy (map_scores f output) target topk = accuracy output target topk.
Proof.
  intros Hwf Hlen Hne Htopk Hks.
  rewrite (accuracy_returns output target topk) by assumption.
  rewrite (accuracy_returns (map_scores f output) target topk);
    try assumption.
  - f_equal. apply map_ext. intros k. rewrite hits_map. reflexivity.
  - unfold wf_scores, map_scores. simpl. rewrite forallb_forall.
    intros r Hr%in_map_iff. destruct Hr as (r0 & <- & Hr0).
    rewrite length_map. unfold wf_scores in Hwf. rewrite forallb_forall in Hwf.
    apply Hwf. exact Hr0.
  - unfold map_scores. simpl. rewrite length_map. exact Hlen.
Qed.

End AccuracyOrder.

Lemma accuracy_order_only_witness :
  accuracy (map_scores (fun x => 2 * x + 1)%Q sample_scores) [1; 1; 2] [1; 2]
  = accuracy sample_scores [1; 1; 2] [1; 2].
Proof.
  apply (accuracy_order_only (fun x => 2 * x + 1)%Q).
  - intros x y. split; intros Hxy; lra.
  - reflexivity.
  - reflexivity.
  - discriminate.
  - discriminate.
  - repeat constructor; simpl; lia.
Defined.

(** ** More on the learning rate *)

Section LearningRate.

Context `{Framework}.

Lemma schedule_bounds (e : Z) : (0 <= schedule e <= 1)%Q.
Proof.
  unfold schedule.
  repeat match goal with
         | |- context [?a <? ?b] => destruct (a <? b)
         end; split; apply Qle_bool_imp_le; reflexivity.
Qed.

Lemma schedule_non_increasing (e e' : Z) :
  e <= e' -> (schedule e' <= schedule e)%Q.
Proof.
  intros Hle. unfold schedule.
  repeat match goal with
         | |- context [?a <? ?b] => destruct (Z.ltb_spec a b); try lia
         end; apply Qle_bool_imp_le; reflexivity.
Qed.

(** X10.  What [adjust_learning_rate] touches.  It raises only when the
    flag asks for TensorBoard and no logger is configured, and then changes
    nothing.  When it returns, the optimizer has the same momentum buffers
    and the same groups in the same order, each with every option other
    than ["lr"] as it was; the world differs in the TensorBoard log alone,
    which gains the one entry of the new rate when the flag is set and
    nothing otherwise. *)
Theorem adjust_learning_rate_frame (optimizer : Optimizer Buffers) (epoch : Z)
  (w w' : World) (r : Res (Optimizer Buffers)) :
  adjust_learning_rate optimizer epoch w = (r, w') ->
  (forall e : exn,
     r = inl e ->
     e = ValueError /\ Args.tensorboard (args w) = true /\ tb_dir w = None
     /\ w' = w)
  /\ (forall optimizer' : Optimizer Buffers,
        r = inr optimizer' ->
        buffers optimizer' = buffers optimizer
        /\ List.length (param_groups optimizer')
           = List.length (param_groups optimizer)
        /\ (forall (i : nat) (group : gmap string hyper),
              param_groups optimizer !! i = Some group ->
              exists group' : gmap string hyper,
                param_groups optimizer' !! i = Some group'
                /\ forall key : string,
                     key ≠ "lr" -> group' !! key = group !! key)
        /\ exists entries : list (string * Q * Z),
             w' = set_tb_log (fun l => l ++ entries) w
             /\ List.length entries
                = (if Args.tensorboard (args w) then 1 else 0)%nat
             /\ Forall (fun entry => entry.1.1 = "learning_rate"
                                     /\ entry.2 = epoch) entries).
Proof.
  unfold adjust_learning_rate, bind, gets, ret, log_value.
  assert (Hgroups : forall lr : Q,
            forall (i : nat) (group : gmap string hyper),
              param_groups optimizer !! i = Some group ->
              exists group' : gmap string hyper,
                map (fun pg : gmap string hyper => <["lr" := HFloat lr]> pg)
                    (param_groups optimizer) !! i = Some group'
                /\ forall key : string,
                     key ≠ "lr" -> group' !! key = group !! key).
  { intros lr i group Hi. exists (<["lr" := HFloat lr]> group). split.
    - change (map ?f ?l) with (f <$> l). rewrite list_lookup_fmap, Hi.
      reflexivity.
    - intros key Hkey. apply lookup_insert_ne. congruence. }
  destruct (Args.tensorboard (args w)) eqn:Hflag.
  - destruct (tb_dir w) eqn:Hdir; intros [= <- <-].
    + split; [discriminate |]. intros optimizer' [= <-]. simpl.
      split; [reflexivity |]. split; [apply length_map |].
      split; [apply Hgroups |].
      eexists [_]. split; [reflexivity |]. split; [reflexivity |].
      repeat constructor.
    + split; [| discriminate]. intros e [= <-]. auto.
  - intros [= <- <-]. split; [discriminate |].
    intros optimizer' [= <-]. simpl.
    split; [reflexivity |]. split; [apply length_map |].
    split; [apply Hgroups |].
    exists []. split; [| split; [reflexivity | constructor]].
    destruct w. unfold set_tb_log. simpl. rewrite app_nil_r. reflexivity.
Qed.

(** X11.  The schedule does not compound.  The rate is computed from
    [args.lr], not from the rate in force: adjusting for one epoch and then
    for another leaves the optimizer that adjusting for the second alone
    leaves. *)
Theorem adjust_learning_rate_not_compounding (optimizer : Optimizer Buffers)
  (e1 e2 : Z) (w : World) :
  tb_ready w ->
  exists (o1 o2 : Optimizer Buffers) (w1 w2 w2' : World),
    adjust_learning_rate optimizer e1 w = (inr o1, w1)
    /\ adjust_learning_rate o1 e2 w1 = (inr o2, w2)
    /\ adjust_learning_rate optimizer e2 w = (inr o2, w2').
Proof.
  intros Hready.
  destruct (adjust_learning_rate_run w optimizer e1 Hready) as [w1 Hrun1].
  destruct (adjust_learning_rate_run w optimizer e2 Hready) as [w2' Hrun2'].
  pose proof (steps_adjust_learning_rate optimizer e1 w _ _ Hrun1) as [Hq _].
  assert (Hready1 : tb_ready w1).
  { unfold tb_ready. rewrite (quiet_args _ _ _ Hq), (quiet_tb_dir _ _ _ Hq).
    exact Hready. }
  match type of Hrun1 with
  | _ = (inr ?o, _) =>
      destruct (adjust_learning_rate_run w1 o e2 Hready1) as [w2 Hrun2]
  end.
  eexists _, _, w1, w2, w2'. split; [exact Hrun1 |].
  split; [exact Hrun2 |]. rewrite Hrun2'. do 2 f_equal.
  cbn [param_groups buffers]. rewrite (quiet_args _ _ _ Hq). f_equal.
  rewrite map_map. apply map_ext. intros pg.
  symmetry. apply insert_insert_eq.
Qed.

(** X12.  The rate never goes up.  With a non-negative [args.lr], the rate
    set for a later epoch is at most the rate set for an earlier one, and
    both lie between 0 and [args.lr]. *)
Theorem learning_rate_non_increasing (optimizer : Optimizer Buffers)
  (e e' : Z) (w : World) :
  tb_ready w ->
  (0 <= Args.lr (args w))%Q ->
  e <= e' ->
  exists (o o' : Optimizer Buffers) (w1 w1' : World) (q q' : Q),
    adjust_learning_rate optimizer e w = (inr o, w1)
    /\ adjust_learning_rate optimizer e' w = (inr o', w1')
    /\ Forall (fun group => group !! "lr" = Some (HFloat q)) (param_groups o)
    /\ Forall (fun group => group !! "lr" = Some (HFloat q')) (param_groups o')
    /\ (0 <= q')%Q /\ (q' <= q)%Q /\ (q <= Args.lr (args w))%Q.
Proof.
  intros Hready Hlr Hle.
  destruct (adjust_learning_rate_run w optimizer e Hready) as [w1 Hrun].
  destruct (adjust_learning_rate_run w optimizer e' Hready) as [w1' Hrun'].
  eexists _, _, w1, w1', _, _. split; [exact Hrun |]. split; [exact Hrun' |].
  cbn [param_groups].
  split; [apply Forall_forall; intros pg (pg0 & -> & _)%list_elem_of_fmap;
          apply lookup_insert_eq |].
  split; [apply Forall_forall; intros pg (pg0 & -> & _)%list_elem_of_fmap;
          apply lookup_insert_eq |].
  rewrite !decay_product.
  pose proof (schedule_bounds e) as [_ H1].
  pose proof (schedule_bounds e') as [H0 _].
  pose proof (schedule_non_increasing e e' Hle) as Hmono.
  repeat split; nra.
Qed.

End LearningRate.

Lemma adjust_learning_rate_frame_witness :
  exists (optimizer' : Optimizer unit) (w' : World (H := toy)),
    adjust_learning_rate (H := toy) (SGD (H := toy) 0.1 0.9 true 0.0005) 60
      (initial_world (H := toy) toy_args ∅ ∅) = (inr optimizer', w')
    /\ w' = initial_world (H := toy) toy_args ∅ ∅
    /\ exists group' : gmap string hyper,
         param_groups optimizer' !! 0%nat = Some group'
         /\ group' !! "momentum" = Some (HFloat 0.9).
Proof.
  destruct (adjust_learning_rate (H := toy) (SGD (H := toy) 0.1 0.9 true 0.0005)
              60 (initial_world (H := toy) toy_args ∅ ∅)) as [r w'] eqn:Hrun.
  pose proof (adjust_learning_rate_frame (H := toy) _ _ _ _ _ Hrun)
    as [_ Hret].
  unfold adjust_learning_rate, bind, gets, ret in Hrun. simpl in Hrun.
  injection Hrun as <- <-.
  destruct (Hret _ eq_refl) as (_ & _ & Hgroups & entries & Hw & Hlen & _).
  eexists _, _. split; [reflexivity |].
  split.
  { destruct entries; [| discriminate Hlen]. reflexivity. }
  destruct (Hgroups 0%nat _ eq_refl) as (group' & Hlookup & Hkeys).
  exists group'. split; [exact Hlookup |].
  rewrite Hkeys by discriminate. reflexivity.
Defined.

Lemma adjust_learning_rate_not_compounding_witness :
  exists (o1 o2 : Optimizer unit) (w1 w2 w2' : World (H := toy)),
    adjust_learning_rate (H := toy) (SGD (H := toy) 0.1 0.9 true 0.0005) 60
      (initial_world (H := toy) toy_args ∅ ∅) = (inr o1, w1)
    /\ adjust_learning_rate (H := toy) o1 61 w1 = (inr o2, w2)
    /\ adjust_learning_rate (H := toy) (SGD (H := toy) 0.1 0.9 true 0.0005) 61
         (initial_world (H := toy) toy_args ∅ ∅) = (inr o2, w2').
Proof.
  apply (adjust_learning_rate_not_compounding (H := toy)).
  intros Hflag. discriminate Hflag.
Defined.

Lemma learning_rate_non_increasing_witness :
  exists (o o' : Optimizer unit) (w1 w1' : World (H := toy)) (q q' : Q),
    adjust_learning_rate (H := toy) (SGD (H := toy) 0.1 0.9 true 0.0005) 59
      (initial_world (H := toy) toy_args ∅ ∅) = (inr o, w1)
    /\ adjust_learning_rate (H := toy) (SGD (H := toy) 0.1 0.9 true 0.0005) 60
         (initial_world (H := toy) toy_args ∅ ∅) = (inr o', w1')
    /\ Forall (fun group => group !! "lr" = Some (HFloat q)) (param_groups o)
    /\ Forall (fun group => group !! "lr" = Some (HFloat q')) (param_groups o')
    /\ (0 <= q')%Q /\ (q' <= q)%Q /\ (q <= 0.1)%Q.
Proof.
  apply (learning_rate_non_increasing (H := toy)).
  - intros Hflag. discriminate Hflag.
  - simpl. apply Qle_bool_imp_le. reflexivity.
  - lia.
Defined.

(** ** More on save_checkpoint *)

Section SaveCheckpoint.

Context `{Framework}.

(** A directory that exists still exists after files were written and
    directories made. *)
Lemma path_exists_after_save (directory : string) (w w' : World) :
  dirs w ⊆ dirs w' ->
  (forall p : string, is_Some (files w !! p) -> is_Some (files w' !! p)) ->
  path_exists directory w = true -> path_exists directory w' = true.
Proof.
  unfold path_exists, isfile. intros Hdirs Hfiles Hex.
  apply orb_true_iff in Hex as [Hin%bool_decide_eq_true | Hf%bool_decide_eq_true];
    apply orb_true_iff; [left | right]; apply bool_decide_eq_true; auto.
Qed.

Lemma insert_keeps_files (fs : gmap string file) (q p : string) (f : file) :
  is_Some (fs !! p) -> is_Some (<[q := f]> fs !! p).
Proof.
  intros Hp. destruct (decide (q = p)) as [-> | Hne].
  - rewrite lookup_insert_eq. eauto.
  - rewrite lookup_insert_ne by exact Hne. exact Hp.
Qed.

(** The directories, the TensorBoard log and the clock after
    [save_checkpoint]. *)
Lemma save_checkpoint_dirs (state : Checkpoint) (is_best : bool)
  (filename : string) (w w' : World) :
  save_checkpoint state is_best filename w = (inr tt, w') ->
  dirs w'
  = (if path_exists (checkpoint_dir (Args.name (args w))) w then dirs w
     else dirs w ∪ {[checkpoint_dir (Args.name (args w))]})
  /\ tb_log w' = tb_log w /\ clock w' = clock w.
Proof.
  unfold save_checkpoint, bind, gets, makedirs, torch_save, copyfile, modify, ret.
  destruct (path_exists _ w); simpl; destruct is_best; simpl;
    rewrite ?lookup_insert_eq; intros [= <-]; auto.
Qed.

Lemma save_checkpoint_directory (state : Checkpoint) (is_best : bool)
  (filename : string) (w w' : World) :
  save_checkpoint state is_best filename w = (inr tt, w') ->
  path_exists (checkpoint_dir (Args.name (args w))) w' = true.
Proof.
  intros Hsave.
  destruct (save_checkpoint_dirs _ _ _ _ _ Hsave) as (Hdirs & _).
  destruct (save_checkpoint_run state is_best filename w)
    as (w2 & Hsave' & _ & _ & _ & _ & _ & Hfiles).
  rewrite Hsave in Hsave'. injection Hsave' as <-.
  destruct (path_exists _ w) eqn:Hex.
  - eapply path_exists_after_save; [| | exact Hex].
    + rewrite Hdirs. reflexivity.
    + intros p Hp. rewrite Hfiles.
      destruct is_best; simpl; repeat apply insert_keeps_files; exact Hp.
  - unfold path_exists. apply orb_true_iff. left.
    apply bool_decide_eq_true. rewrite Hdirs.
    apply elem_of_union_r, elem_of_singleton. reflexivity.
Qed.


(** X14.  Two saves in a row, as two epochs make them: the first with
    [is_best] set, the second without.  Both return; afterwards the
    checkpoint file holds the second record and the best file still the
    first; the second call makes no directory and writes the one file. *)
Theorem save_checkpoint_twice (state1 state2 : Checkpoint) (w : World) :
  let ckpt := checkpoint_path (Args.name (args w)) in
  let best := best_path (Args.name (args w)) in
  exists w1 w2 : World,
    save_checkpoint state1 true "checkpoint.pth.tar" w = (inr tt, w1)
    /\ save_checkpoint state2 false "checkpoint.pth.tar" w1 = (inr tt, w2)
    /\ files w2 !! ckpt = Some (Pickled state2)
    /\ files w2 !! best = Some (Pickled state1)
    /\ fs_log w2 = fs_log w1 ++ [OpSave ckpt state2]
    /\ dirs w2 = dirs w1.
Proof.
  intros ckpt best.
  destruct (save_checkpoint_run state1 true "checkpoint.pth.tar" w)
    as (w1 & Hsave1 & Hargs1 & _ & _ & _ & Hlog1 & Hfiles1).
  destruct (save_checkpoint_run state2 false "checkpoint.pth.tar" w1)
    as (w2 & Hsave2 & _ & _ & _ & _ & Hlog2 & Hfiles2).
  pose proof (save_checkpoint_directory _ _ _ _ _ Hsave1) as Hex.
  destruct (save_checkpoint_dirs _ _ _ _ _ Hsave2) as (Hdirs2 & _).
  rewrite Hargs1 in Hlog2, Hfiles2, Hdirs2.
  rewrite Hex in Hlog2, Hdirs2.
  fold (checkpoint_path (Args.name (args w))) in Hlog2, Hfiles2, Hfiles1.
  fold ckpt best in Hlog2, Hfiles2, Hfiles1.
  assert (Hne : ckpt ≠ best) by apply checkpoint_path_not_best.
  exists w1, w2. split; [exact Hsave1 |]. split; [exact Hsave2 |].
  simpl in Hlog2, Hfiles2.
  split; [rewrite Hfiles2; apply lookup_insert_eq |].
  split.
  { rewrite Hfiles2, lookup_insert_ne by exact Hne.
    rewrite Hfiles1. apply lookup_insert_eq. }
  split; [exact Hlog2 | exact Hdirs2].
Qed.

End SaveCheckpoint.

(** ** More on train *)

Section TrainFacts.

Context `{Framework}.

(** What a batch of [train] that returns has done to the model, the
    optimizer and the meters. *)
Lemma train_batch_inr (epoch : Z) (len i : nat) (input : list Sample)
  (target : list Z) (v v' : train_vars) (w w' : World) :
  train_batch epoch len (i, (input, target)) v w = (inr v', w') ->
  let model := tr_model v in
  let out := forward (state_dict model) (training model) input in
  let g := backward out.2 input target (zero_grad (grads model)) in
  let step :=
    sgd_step (param_groups (tr_optimizer v)) (buffers (tr_optimizer v)) out.2 g in
  tr_model v' = MkModel step.1 g (training model)
  /\ tr_optimizer v' = MkOptimizer (param_groups (tr_optimizer v)) step.2
  /\ exists (res : list Q) (prec1 : Q),
       accuracy out.1 target [1] = inr res
       /\ first_item res = inr prec1
       /\ AverageMeter.update (tr_losses v) (criterion out.1 target)
            (Z.of_nat (List.length input)) = inr (tr_losses v')
       /\ AverageMeter.update (tr_top1 v) prec1 (Z.of_nat (List.length input))
          = inr (tr_top1 v').
Proof.
  unfold train_batch. intros Hrun. cbv zeta.
  destruct (forward _ _ _) as [output sd]. cbn [fst snd].
  inv_bind Hrun. inv_lift Hrun0.
  inv_bind Hrun. inv_lift Hrun1.
  inv_bind Hrun. inv_lift Hrun2.
  inv_bind Hrun. inv_lift Hrun3.
  destruct (sgd_step _ _ _ _) as [sd' buf] eqn:Hstep.
  inv_bind Hrun. inv_bind Hrun. inv_bind Hrun. inv_bind Hrun. inv_bind Hrun.
  injection Hrun as <- <-. simpl. eauto 10.
Qed.

(** The loop of [train] over the batches left, at any index. *)
Lemma train_loop_parameters (epoch : Z) (len : nat)
  (batches : list (list Sample * list Z)) :
  forall (i : nat) (v v' : train_vars) (w w' : World),
    training (tr_model v) = true ->
    for_each (train_batch epoch len) (zip (seq i (List.length batches)) batches)
      v w = (inr v', w') ->
    (state_dict (tr_model v'), grads (tr_model v'), buffers (tr_optimizer v'))
    = fold_left (sgd_batch (param_groups (tr_optimizer v))) batches
        (state_dict (tr_model v), grads (tr_model v), buffers (tr_optimizer v))
    /\ training (tr_model v') = true
    /\ param_groups (tr_optimizer v') = param_groups (tr_optimizer v).
Proof.
  induction batches as [| [input target] batches IH]; intros i v v' w w' Hmode;
    simpl.
  - intros [= <- <-]. auto.
  - intros Hrun. invert_bind Hrun as v1 w1 Hbatch.
    apply train_batch_inr in Hbatch as (Hmodel & Hopt & _).
    rewrite Hmode in Hmodel, Hopt.
    apply IH in Hrun as (Hfold & Hmode' & Hgroups);
      [| rewrite Hmodel; reflexivity].
    rewrite Hmodel, Hopt in Hfold. rewrite Hopt in Hgroups.
    cbn [state_dict grads buffers param_groups] in Hfold, Hgroups.
    split; [| split; assumption].
    rewrite Hfold. reflexivity.
Qed.

(** What a call of [train] that returns has done to the model and the
    optimizer. *)
Lemma train_inr (model model' : Model) (optimizer optimizer' : Optimizer Buffers)
  (epoch : Z) (w w' : World) :
  train model optimizer epoch w = (inr (model', optimizer'), w') ->
  (state_dict model', grads model', buffers optimizer')
  = fold_left (sgd_batch (param_groups optimizer)) (train_loader (args w) epoch)
      (state_dict model, grads model, buffers optimizer)
  /\ training model' = true
  /\ param_groups optimizer' = param_groups optimizer.
Proof.
  unfold train. intros Hrun.
  invert_bind Hrun as end_ w1 Htime. injection Htime as <- <-.
  invert_bind Hrun as a w2 Hargs. injection Hargs as <- <-.
  invert_bind Hrun as v w3 Hloop.
  invert_bind Hrun as [] w4 Hlog. injection Hrun as <- <- <-.
  apply train_loop_parameters in Hloop; [| reflexivity].
  exact Hloop.
Qed.

(** X15.  What [train] does to the parameters.  When it returns, the
    parameters, the gradient buffers and the momentum buffers are those of
    one forward pass, backward pass from cleared gradients and optimizer
    step per batch, in the order of the loader: meters, clock and printing
    have no part in them.  The model is left in training mode, the options
    of the parameter groups (the learning rate among them) are as they
    were, and nothing but output, clock and TensorBoard log has changed. *)
Theorem train_parameters (model model' : Model)
  (optimizer optimizer' : Optimizer Buffers) (epoch : Z) (w w' : World) :
  train model optimizer epoch w = (inr (model', optimizer'), w') ->
  (state_dict model', grads model', buffers optimizer')
  = fold_left (sgd_batch (param_groups optimizer)) (train_loader (args w) epoch)
      (state_dict model, grads model, buffers optimizer)
  /\ training model' = true
  /\ param_groups optimizer' = param_groups optimizer
  /\ quiet [] w w'.
Proof.
  intros Hrun. pose proof (train_inr _ _ _ _ _ _ _ Hrun) as (Hfold & Hmode & Hg).
  apply steps_train in Hrun as [Hq _]. auto.
Qed.

End TrainFacts.

Lemma train_parameters_witness :
  exists (model' : Model (H := toy)) (optimizer' : Optimizer unit)
         (w' : World (H := toy)),
    train (H := toy) (fresh_model (H := toy) toy_args)
      (SGD (H := toy) 0.1 0.9 true 0.0005) 0
      (initial_world (H := toy) toy_args ∅ ∅) = (inr (model', optimizer'), w')
    /\ state_dict model' = -4
    /\ training model' = true
    /\ files w' = ∅.
Proof.
  destruct (train_returns (H := toy) (fresh_model (H := toy) toy_args)
              (SGD (H := toy) 0.1 0.9 true 0.0005) 0
              (initial_world (H := toy) toy_args ∅ ∅) toy_runnable)
    as ([model' optimizer'] & w' & Hrun).
  destruct (train_parameters (H := toy) _ _ _ _ _ _ _ Hrun)
    as (Hfold & Hmode & _ & Hq).
  exists model', optimizer', w'. split; [exact Hrun |].
  split; [injection Hfold as -> _ _; reflexivity |].
  split; [exact Hmode | exact (quiet_files _ _ _ Hq)].
Defined.

(** ** A print frequency of zero *)

Section PrintFreq.

Context `{Framework}.

Lemma train_batch_print_freq_0 (epoch : Z) (len i : nat) (input : list Sample)
  (target : list Z) (v : train_vars) (w : World) :
  Args.print_freq (args w) = 0 ->
  wf_batch (state_dict (tr_model v)) (training (tr_model v)) (input, target) = true ->
  counts_nonneg (tr_batch_time v) (tr_losses v) (tr_top1 v) ->
  exists w' : World,
    train_batch epoch len (i, (input, target)) v w = (inl ZeroDivisionError, w').
Proof.
  intros Hpf Hwf (Hbt & Hl & Ht).
  destruct (wf_batch_accuracy _ _ _ _ Hwf) as (prec1 & Hacc & Hin).
  destruct (update_returns (tr_losses v)
              (criterion (forward (state_dict (tr_model v)) (training (tr_model v)) input).1 target)
              (Z.of_nat (List.length input)) Hl ltac:(lia)) as (l' & Hl' & Hcl).
  destruct (update_returns (tr_top1 v) prec1 (Z.of_nat (List.length input))
              Ht ltac:(lia)) as (t' & Ht' & Hct).
  destruct (update_returns (tr_batch_time v)
              (time_at (clock w) - tr_end v)%Q 1 Hbt ltac:(lia))
    as (bt' & Hbt' & Hcbt).
  unfold train_batch.
  destruct (forward _ _ _) as [output sd0]. cbn [fst snd] in Hacc, Hl'.
  rewrite (bind_inr _ _ _ _ _ (lift_inr _ _ w Hacc)). cbv beta.
  rewrite (bind_inr _ _ _ _ _ (lift_inr (first_item [prec1]) prec1 w eq_refl)).
  cbv beta.
  rewrite (bind_inr _ _ _ _ _ (lift_inr _ _ w Hl')). cbv beta.
  rewrite (bind_inr _ _ _ _ _ (lift_inr _ _ w Ht')). cbv beta.
  destruct (sgd_step _ _ _ _) as [sd buf].
  rewrite (bind_inr time_time _ w _ _ eq_refl). cbv beta.
  rewrite (bind_inr _ _ _ _ _ (lift_inr _ _ _ Hbt')). cbv beta.
  rewrite (bind_inr time_time _ _ _ _ eq_refl). cbv beta.
  rewrite (bind_inr (gets args) _ _ _ _ eq_refl). cbv beta.
  cbn [args set_clock]. rewrite Hpf. cbn [Z.eqb].
  eexists. reflexivity.
Qed.

Lemma validate_batch_print_freq_0 (len i : nat) (input : list Sample)
  (target : list Z) (v : val_vars) (w : World) :
  Args.print_freq (args w) = 0 ->
  wf_batch (state_dict (va_model v)) (training (va_model v)) (input, target) = true ->
  counts_nonneg (va_batch_time v) (va_losses v) (va_top1 v) ->
  exists w' : World,
    validate_batch len (i, (input, target)) v w = (inl ZeroDivisionError, w').
Proof.
  intros Hpf Hwf (Hbt & Hl & Ht).
  destruct (wf_batch_accuracy _ _ _ _ Hwf) as (prec1 & Hacc & Hin).
  destruct (update_returns (va_losses v)
              (criterion (forward (state_dict (va_model v)) (training (va_model v)) input).1 target)
              (Z.of_nat (List.length input)) Hl ltac:(lia)) as (l' & Hl' & Hcl).
  destruct (update_returns (va_top1 v) prec1 (Z.of_nat (List.length input))
              Ht ltac:(lia)) as (t' & Ht' & Hct).
  destruct (update_returns (va_batch_time v)
              (time_at (clock w) - va_end v)%Q 1 Hbt ltac:(lia))
    as (bt' & Hbt' & Hcbt).
  unfold validate_batch.
  destruct (forward _ _ _) as [output sd0]. cbn [fst snd] in Hacc, Hl'.
  rewrite (bind_inr _ _ _ _ _ (lift_inr _ _ w Hacc)). cbv beta.
  rewrite (bind_inr _ _ _ _ _ (lift_inr (first_item [prec1]) prec1 w eq_refl)).
  cbv beta.
  rewrite (bind_inr _ _ _ _ _ (lift_inr _ _ w Hl')). cbv beta.
  rewrite (bind_inr _ _ _ _ _ (lift_inr _ _ w Ht')). cbv beta.
  rewrite (bind_inr time_time _ w _ _ eq_refl). cbv beta.
  rewrite (bind_inr _ _ _ _ _ (lift_inr _ _ _ Hbt')). cbv beta.
  rewrite (bind_inr time_time _ _ _ _ eq_refl). cbv beta.
  rewrite (bind_inr (gets args) _ _ _ _ eq_refl). cbv beta.
  cbn [args set_clock]. rewrite Hpf. cbn [Z.eqb].
  eexists. reflexivity.
Qed.

(** X16.  [--print-freq 0].  The test [i % args.print_freq == 0] divides by
    zero: with well-formed batches, [train] raises [ZeroDivisionError] in
    its first batch when the training loader is not empty, and so does
    [validate] with a validation loader that is not empty.  Neither has
    touched a file. *)
Theorem print_freq_zero (model : Model) (optimizer : Optimizer Buffers)
  (epoch : Z) (w : World) :
  Args.print_freq (args w) = 0 ->
  wf_loaders (args w) ->
  (train_loader (args w) epoch ≠ [] ->
   exists w' : World,
     train model optimizer epoch w = (inl ZeroDivisionError, w')
     /\ files w' = files w /\ fs_log w' = fs_log w)
  /\ (val_loader (args w) epoch ≠ [] ->
      exists w' : World,
        validate model epoch w = (inl ZeroDivisionError, w')
        /\ files w' = files w /\ fs_log w' = fs_log w).
Proof.
  intros Hpf Hwf. split; intros Hne.
  - destruct (train_loader (args w) epoch) as [| [input target] rest] eqn:Hl;
      [congruence |].
    destruct (train_batch_print_freq_0 epoch (List.length ((input, target) :: rest))
                0 input target
                (TrainVars (MkModel (state_dict model) (grads model) true)
                   optimizer AverageMeter.reset AverageMeter.reset
                   AverageMeter.reset (time_at (clock w)))
                (set_clock S w) Hpf) as (w' & Hbatch).
    { apply (Hwf _ _ epoch). left. rewrite Hl. left. }
    { apply counts_nonneg_reset. }
    assert (Hrun : train model optimizer epoch w = (inl ZeroDivisionError, w')).
    { unfold train.
      rewrite (bind_inr time_time _ w _ _ eq_refl). cbv beta.
      rewrite (bind_inr (gets args) _ _ _ _ eq_refl). cbv beta.
      cbn [args set_clock]. rewrite Hl.
      apply bind_inl. unfold enumerate. cbn [List.length seq zip zip_with for_each].
      apply bind_inl. exact Hbatch. }
    exists w'. split; [exact Hrun |].
    apply steps_train in Hrun as [Hq _].
    split; [exact (quiet_files _ _ _ Hq) | exact (quiet_fs_log _ _ _ Hq)].
  - destruct (val_loader (args w) epoch) as [| [input target] rest] eqn:Hl;
      [congruence |].
    destruct (validate_batch_print_freq_0 (List.length ((input, target) :: rest))
                0 input target
                (ValVars (MkModel (state_dict model) (grads model) false)
                   AverageMeter.reset AverageMeter.reset
                   AverageMeter.reset (time_at (clock w)))
                (set_clock S w) Hpf) as (w' & Hbatch).
    { apply (Hwf _ _ epoch). right. rewrite Hl. left. }
    { apply counts_nonneg_reset. }
    assert (Hrun : validate model epoch w = (inl ZeroDivisionError, w')).
    { unfold validate. apply bind_inl. unfold validate_loop.
      rewrite (bind_inr time_time _ w _ _ eq_refl). cbv beta.
      rewrite (bind_inr (gets args) _ _ _ _ eq_refl). cbv beta.
      cbn [args set_clock]. rewrite Hl.
      unfold enumerate. cbn [List.length seq zip zip_with for_each].
      apply bind_inl. exact Hbatch. }
    exists w'. split; [exact Hrun |].
    destruct (validate_calm _ _ _ _ _ Hrun) as [[accs Hq] _].
    split; [exact (quiet_files _ _ _ Hq) | exact (quiet_fs_log _ _ _ Hq)].
Qed.

End PrintFreq.

Lemma toy_wf_loaders (a : Args.t) : wf_loaders (H := toy) a.
Proof.
  intros sd mode epoch b Hb.
  assert (Hin : b ∈ toy_batches) by (destruct Hb; assumption).
  apply list_elem_of_In in Hin. simpl in Hin.
  destruct Hin as [<- | [<- | []]]; reflexivity.
Qed.

Lemma print_freq_zero_witness :
  (exists w' : World (H := toy),
     train (H := toy) (fresh_model (H := toy) toy_print_freq_0)
       (SGD (H := toy) 0.1 0.9 true 0.0005) 0
       (initial_world (H := toy) toy_print_freq_0 ∅ ∅)
     = (inl ZeroDivisionError, w'))
  /\ exists w' : World (H := toy),
       validate (H := toy) (fresh_model (H := toy) toy_print_freq_0) 0
         (initial_world (H := toy) toy_print_freq_0 ∅ ∅)
       = (inl ZeroDivisionError, w').
Proof.
  destruct (print_freq_zero (H := toy) (fresh_model (H := toy) toy_print_freq_0)
              (SGD (H := toy) 0.1 0.9 true 0.0005) 0
              (initial_world (H := toy) toy_print_freq_0 ∅ ∅))
    as [Htrain Hval].
  - reflexivity.
  - apply toy_wf_loaders.
  - split.
    + destruct Htrain as (w' & Hrun & _); [discriminate |]. exists w'. exact Hrun.
    + destruct Hval as (w' & Hrun & _); [discriminate |]. exists w'. exact Hrun.
Defined.

(** ** More on validate *)

Section ValidateFacts.

Context `{Framework}.

(** X18.  A validation set without a sample.  The loop does not run, the
    accuracy meter keeps its initial average, and [validate] prints and
    returns 0, with the model in evaluation mode; the arguments, the best
    accuracy and the files are as they were. *)
Theorem validate_empty_loader (model : Model) (epoch : Z) (w : World) :
  val_loader (args w) epoch = [] ->
  tb_ready w ->
  exists w' : World,
    validate model epoch w
    = (inr (0%Q, MkModel (state_dict model) (grads model) false), w')
    /\ stdout w' = stdout w ++ [MsgPrec1 0]
    /\ args w' = args w /\ best_prec1 w' = best_prec1 w /\ files w' = files w.
Proof.
  intros Hl Hready. unfold validate, validate_loop.
  unfold bind at 1. unfold bind at 1.
  cbn [time_time]. unfold bind at 1. cbn [gets args set_clock].
  rewrite Hl. cbn [enumerate List.length seq zip zip_with for_each ret].
  unfold bind at 1. cbn [print modify AverageMeter.avg va_top1
                           AverageMeter.reset].
  unfold bind at 1. cbn [gets args set_stdout set_clock].
  destruct (Args.tensorboard (args w)) eqn:Hflag.
  - destruct (Hready Hflag) as [d Hd].
    unfold bind, log_value. cbn. rewrite Hd. cbn. rewrite Hd.
    eexists. split; [reflexivity |]. cbn. auto.
  - unfold bind, ret. cbn. eexists. split; [reflexivity |]. cbn. auto.
Qed.

End ValidateFacts.

Lemma validate_empty_loader_witness :
  exists w' : World (H := toy_no_validation),
    validate (H := toy_no_validation)
      (fresh_model (H := toy_no_validation) toy_args) 0
      (initial_world (H := toy_no_validation) toy_args ∅ ∅)
    = (inr (0%Q, MkModel (H := toy_no_validation) 0 0 false), w')
    /\ stdout w' = [MsgPrec1 0].
Proof.
  destruct (validate_empty_loader (H := toy_no_validation)
              (fresh_model (H := toy_no_validation) toy_args) 0
              (initial_world (H := toy_no_validation) toy_args ∅ ∅))
    as (w' & Hrun & Hout & _).
  - reflexivity.
  - intros Hflag. discriminate Hflag.
  - exists w'. split; [exact Hrun | exact Hout].
Defined.

(** ** More on the epochs of main *)

Section EpochFacts.

Context `{Framework}.

Lemma adjust_learning_rate_inr (optimizer optimizer' : Optimizer Buffers)
  (epoch : Z) (w w' : World) :
  adjust_learning_rate optimizer epoch w = (inr optimizer', w') ->
  optimizer'
  = MkOptimizer
      (map (fun pg : gmap string hyper =>
              <["lr" := HFloat (Args.lr (args w)
                                * (decay epoch 60 * decay epoch 120
                                   * decay epoch 160))%Q]> pg)
           (param_groups optimizer))
      (buffers optimizer).
Proof.
  unfold adjust_learning_rate, bind, gets, ret, log_value.
  destruct (Args.tensorboard (args w)); [destruct (tb_dir w) |];
    intros [= <- <-]; reflexivity.
Qed.

(** X19.  The rate in force during an epoch.  [main] counts epochs from 0
    and calls [adjust_learning_rate] with [epoch + 1]; neither [train] nor
    [validate] touches the parameter groups afterwards.  So after the body
    of the epoch of index [epoch] the groups are exactly those
    [adjust_learning_rate] leaves for the epoch number [epoch + 1], as many
    as before, and [validate] has left the model in evaluation mode. *)
Theorem epoch_learning_rate (epoch : Z) (model : Model)
  (optimizer : Optimizer Buffers) (w w' : World)
  (s' : Model * Optimizer Buffers) :
  epoch_body epoch (model, optimizer) w = (inr s', w') ->
  exists (optimizer0 : Optimizer Buffers) (w0 : World),
    adjust_learning_rate optimizer (epoch + 1) w = (inr optimizer0, w0)
    /\ param_groups s'.2 = param_groups optimizer0
    /\ List.length (param_groups s'.2) = List.length (param_groups optimizer)
    /\ training s'.1 = false.
Proof.
  unfold epoch_body. intros Hrun.
  invert_bind Hrun as optimizer0 w0 Hadj.
  pose proof (adjust_learning_rate_inr _ _ _ _ _ Hadj) as Hopt.
  invert_bind Hrun as [model1 optimizer1] w1 Htrain.
  apply train_inr in Htrain as (_ & _ & Hgroups).
  invert_bind Hrun as [prec1 model2] w2 Hval.
  apply validate_inr in Hval as (_ & Hmodel & _).
  invert_bind Hrun as best w3 Hbest.
  invert_bind Hrun as [] w4 Hset.
  invert_bind Hrun as best' w5 Hbest'.
  invert_bind Hrun as [] w6 Hsave. injection Hrun as <- _.
  exists optimizer0, w0. split; [exact Hadj |].
  cbn [fst snd]. rewrite Hgroups, Hmodel. cbn [training].
  split; [reflexivity |]. split; [| reflexivity].
  rewrite Hopt. cbn [param_groups]. apply length_map.
Qed.

(** The loop over the epochs leaves the arguments alone. *)
Lemma epoch_loop_args (epochs : list Z) :
  forall (s s' : Model * Optimizer Buffers) (w w' : World),
    epoch_loop epochs s w = (inr s', w') -> args w' = args w.
Proof.
  unfold epoch_loop.
  induction epochs as [| e epochs IH]; intros s s' w w'; simpl.
  - intros [= <- <-]. reflexivity.
  - intros Hrun. invert_bind Hrun as s1 w1 Hbody. destruct s as [model optimizer].
    apply epoch_body_post in Hbody as (_ & _ & _ & _ & _ & Hargs & _).
    apply IH in Hrun. congruence.
Qed.

Lemma py_max2_not_above (prec1 best : Q) :
  ~ (best < prec1)%Q -> (py_max2 prec1 best == best)%Q.
Proof.
  intros Hn. unfold py_max2. destruct (Qltb prec1 best) eqn:Hlt; [reflexivity |].
  assert (~ (prec1 < best)%Q).
  { intros Hlt'. apply Qltb_lt in Hlt'. congruence. }
  lra.
Qed.

Lemma py_max2_above (prec1 best : Q) :
  (best < prec1)%Q -> py_max2 prec1 best = prec1.
Proof.
  intros Hlt. unfold py_max2. destruct (Qltb prec1 best) eqn:Hlt'; [| reflexivity].
  apply Qltb_lt in Hlt'. lra.
Qed.

(** X20.  The best file goes with the best accuracy.  After any number of
    epochs that return, either no epoch was better than the best accuracy
    at the start, and then the best accuracy and the best file are as they
    were; or the best accuracy has gone up and the best file holds a
    record of that accuracy, saved by one of these epochs. *)
Theorem best_file_invariant (epochs : list Z) :
  forall (s s' : Model * Optimizer Buffers) (w w' : World),
    epoch_loop epochs s w = (inr s', w') ->
    let best := best_path (Args.name (args w)) in
    ((best_prec1 w' == best_prec1 w)%Q /\ files w' !! best = files w !! best)
    \/ exists c : Checkpoint,
         files w' !! best = Some (Pickled c)
         /\ (ck_best_prec1 c == best_prec1 w')%Q
         /\ (best_prec1 w < best_prec1 w')%Q
         /\ (ck_epoch c - 1) ∈ epochs.
Proof.
  unfold epoch_loop.
  induction epochs as [| e epochs IH]; intros s s' w w'; simpl.
  - intros [= <- <-]. left. split; reflexivity.
  - intros Hrun. invert_bind Hrun as s1 w1 Hbody. destruct s as [model optimizer].
    apply epoch_body_post in Hbody
      as (prec1 & pre & _ & _ & Hbest & Hargs & _ & _ & _ & Hfiles).
    apply IH in Hrun. rewrite Hargs in Hrun.
    pose proof (checkpoint_path_not_best (Args.name (args w))) as Hne.
    destruct (Qltb (best_prec1 w) prec1) eqn:Hlt.
    + apply Qltb_lt in Hlt.
      rewrite (py_max2_above _ _ Hlt) in Hbest.
      assert (Hfile : files w1 !! best_path (Args.name (args w))
                      = Some (Pickled (MkCheckpoint (e + 1) (state_dict s1.1)
                                         (best_prec1 w1)))).
      { rewrite Hfiles. apply lookup_insert_eq. }
      right. destruct Hrun as [[Heq Hsame] | (c & Hc & Hacc & Hup & Hin)].
      * eexists. split; [rewrite Hsame; exact Hfile |]. cbn [ck_best_prec1 ck_epoch].
        split; [symmetry; exact Heq |].
        split; [rewrite Heq, Hbest; exact Hlt |].
        replace (e + 1 - 1) with e by lia. left.
      * exists c. split; [exact Hc |]. split; [exact Hacc |].
        split; [rewrite Hbest in Hup; lra | right; exact Hin].
    + assert (Hn : ~ (best_prec1 w < prec1)%Q).
      { intros Hlt'. apply Qltb_lt in Hlt'. congruence. }
      pose proof (py_max2_not_above _ _ Hn) as Hsame. rewrite <- Hbest in Hsame.
      assert (Hfile : files w1 !! best_path (Args.name (args w))
                      = files w !! best_path (Args.name (args w))).
      { rewrite Hfiles. simpl. apply lookup_insert_ne. exact Hne. }
      destruct Hrun as [[Heq Hsame'] | (c & Hc & Hacc & Hup & Hin)].
      * left. split; [rewrite Heq; exact Hsame | congruence].
      * right. exists c. split; [exact Hc |]. split; [exact Hacc |].
        split; [rewrite <- Hsame; exact Hup | right; exact Hin].
Qed.


(** X21.  A run with epochs left ends with its last epoch in the
    checkpoint.  When [main], past the resume block, returns with the
    starting epoch below [args.epochs], it has validated once per epoch
    from the starting epoch on, the checkpoint file holds a record whose
    epoch is [args.epochs] and whose best accuracy is the final best
    accuracy, and the last line printed is that best accuracy. *)
Theorem final_checkpoint (model : Model) (w w' : World) :
  Args.start_epoch (args w) < Args.epochs (args w) ->
  main_from model w = (inr tt, w') ->
  (exists c : Checkpoint,
     files w' !! checkpoint_path (Args.name (args w)) = Some (Pickled c)
     /\ ck_epoch c = Args.epochs (args w)
     /\ ck_best_prec1 c = best_prec1 w')
  /\ (exists accs : list Q,
        val_accuracies (stdout w') = val_accuracies (stdout w) ++ accs
        /\ Z.of_nat (List.length accs)
           = Args.epochs (args w) - Args.start_epoch (args w))
  /\ exists out : list msg, stdout w' = out ++ [MsgBestAccuracy (best_prec1 w')].
Proof.
  intros Hlt Hrun. unfold main_from in Hrun.
  invert_bind Hrun as a w0 Hargs. injection Hargs as <- <-.
  invert_bind Hrun as s1 w1 Hloop.
  invert_bind Hrun as best w2 Hbest. injection Hbest as <- <-.
  injection Hrun as <-. cbn [files stdout best_prec1 set_stdout].
  split; [| split].
  - unfold range in Hloop.
    set (n := Z.to_nat (Args.epochs (args w) - Args.start_epoch (args w) - 1)).
    replace (Args.epochs (args w) - Args.start_epoch (args w))
      with (Z.of_nat (S n)) in Hloop by lia.
    rewrite seqZ_S, epoch_loop_app in Hloop.
    invert_bind Hloop as s0 w0 Hfirst.
    apply epoch_loop_args in Hfirst.
    unfold epoch_loop in Hloop. simpl in Hloop.
    invert_bind Hloop as s2 w3 Hbody. injection Hloop as <- <-.
    destruct s0 as [model0 optimizer0].
    apply epoch_body_post in Hbody as (prec1 & pre & _ & _ & _ & _ & _ & _ & _ & Hfiles).
    rewrite Hfirst in Hfiles.
    eexists. split.
    { rewrite Hfiles.
      destruct (Qltb (best_prec1 w0) prec1); simpl;
        [rewrite lookup_insert_ne
           by (intros Heq; symmetry in Heq;
               exact (checkpoint_path_not_best _ Heq)) |];
        apply lookup_insert_eq. }
    cbn [ck_epoch ck_best_prec1]. split; [lia | reflexivity].
  - apply epoch_loop_post in Hloop
      as (accs & (out & Hout & Hacc) & Hlen & _).
    exists accs. split.
    + rewrite Hout, !val_accuracies_app, Hacc. simpl. rewrite app_nil_r.
      reflexivity.
    + rewrite Hlen. unfold range. rewrite length_seqZ. lia.
  - eexists. reflexivity.
Qed.


End EpochFacts.

(** The epoch of index 59 of the toy run: the groups are those of the
    epoch number 60. *)
Lemma epoch_learning_rate_witness :
  exists (s' : Model (H := toy) * Optimizer unit) (w' : World (H := toy))
         (optimizer0 : Optimizer unit) (w0 : World (H := toy)),
    epoch_body (H := toy) 59
      (fresh_model (H := toy) toy_args, SGD (H := toy) 0.1 0.9 true 0.0005)
      (initial_world (H := toy) toy_args ∅ ∅) = (inr s', w')
    /\ adjust_learning_rate (H := toy) (SGD (H := toy) 0.1 0.9 true 0.0005) 60
         (initial_world (H := toy) toy_args ∅ ∅) = (inr optimizer0, w0)
    /\ param_groups s'.2 = param_groups optimizer0.
Proof.
  destruct (epoch_body_returns (H := toy) 59
              (fresh_model (H := toy) toy_args,
               SGD (H := toy) 0.1 0.9 true 0.0005)
              (initial_world (H := toy) toy_args ∅ ∅) toy_runnable)
    as (s' & w' & Hrun & _).
  destruct (epoch_learning_rate (H := toy) _ _ _ _ _ _ Hrun)
    as (o & w0 & Hadj & Hgroups & _).
  exists s', w', o, w0. split; [exact Hrun |]. split; [exact Hadj | exact Hgroups].
Defined.

Lemma best_file_invariant_witness :
  exists (s' : Model (H := toy) * Optimizer unit) (w' : World (H := toy))
         (c : Checkpoint (H := toy)),
    epoch_loop (H := toy) [0; 1; 2]
      (fresh_model (H := toy) toy_args, SGD (H := toy) 0.1 0.9 true 0.0005)
      (initial_world (H := toy) toy_args ∅ ∅) = (inr s', w')
    /\ files w' !! "runs/toy/model_best.pth.tar" = Some (Pickled c)
    /\ (ck_best_prec1 c == best_prec1 w')%Q.
Proof.
  destruct (epoch_loop_returns (H := toy) [0; 1; 2]
              (fresh_model (H := toy) toy_args,
               SGD (H := toy) 0.1 0.9 true 0.0005)
              (initial_world (H := toy) toy_args ∅ ∅) toy_runnable)
    as (s' & w' & Hrun & _).
  destruct (best_file_invariant (H := toy) _ _ _ _ _ Hrun)
    as [[Heq _] | (c & Hc & Hacc & _)].
  - exfalso. revert Heq. clear -Hrun. vm_compute in Hrun.
    injection Hrun as _ <-. vm_compute. discriminate.
  - exists s', w', c. split; [exact Hrun |]. split; [exact Hc | exact Hacc].
Defined.

Lemma final_checkpoint_witness :
  exists (w' : World (H := toy)) (c : Checkpoint (H := toy)),
    main_from (H := toy) (fresh_model (H := toy) toy_args)
      (initial_world (H := toy) toy_args ∅ ∅) = (inr tt, w')
    /\ files w' !! "runs/toy/checkpoint.pth.tar" = Some (Pickled c)
    /\ ck_epoch c = 3.
Proof.
  destruct (main_from_returns (H := toy) (fresh_model (H := toy) toy_args)
              (initial_world (H := toy) toy_args ∅ ∅) toy_runnable)
    as (w' & Hrun).
  destruct (final_checkpoint (H := toy) (fresh_model (H := toy) toy_args)
              (initial_world (H := toy) toy_args ∅ ∅) w')
    as ((c & Hc & Hepoch & _) & _); [simpl; lia | exact Hrun |].
  exists w', c. split; [exact Hrun |]. split; [exact Hc | exact Hepoch].
Defined.


(** ** The progress lines of train *)

Section ProgressLines.

Context `{Framework}.

Lemma train_lines_app (out1 out2 : list msg) :
  train_lines (out1 ++ out2) = train_lines out1 ++ train_lines out2.
Proof. unfold train_lines. apply omap_app. Qed.

(** What a batch of [train] that returns has printed. *)
Lemma train_batch_line (epoch : Z) (len i : nat) (input : list Sample)
  (target : list Z) (v v' : train_vars) (w w' : World) :
  train_batch epoch len (i, (input, target)) v w = (inr v', w') ->
  args w' = args w
  /\ exists out : list msg,
       stdout w' = stdout w ++ out
       /\ List.length out = List.length (train_lines out)
       /\ train_lines out
          = if Z.of_nat i mod Args.print_freq (args w) =? 0
            then [(epoch, i, len)] else [].
Proof.
  unfold train_batch. intros Hrun.
  destruct (forward _ _ _) as [output sd].
  invert_bind Hrun as res w1 Hacc. injection Hacc as _ <-.
  invert_bind Hrun as prec1 w2 Hfirst. injection Hfirst as _ <-.
  invert_bind Hrun as losses w3 Hlosses. injection Hlosses as _ <-.
  invert_bind Hrun as top1 w4 Htop1. injection Htop1 as _ <-.
  destruct (sgd_step _ _ _ _) as [sd' buf].
  invert_bind Hrun as now w5 Hnow. injection Hnow as _ <-.
  invert_bind Hrun as batch_time w6 Hbt. injection Hbt as _ <-.
  invert_bind Hrun as end_ w7 Hend. injection Hend as _ <-.
  invert_bind Hrun as a w8 Hargs. injection Hargs as <- <-.
  invert_bind Hrun as [] w9 Hline. injection Hrun as _ <-.
  cbn [args set_clock] in Hline.
  destruct (Args.print_freq (args w) =? 0); [discriminate Hline |].
  destruct (Z.of_nat i mod Args.print_freq (args w) =? 0).
  - injection Hline as <-. split; [reflexivity |].
    eexists [_]. split; [reflexivity |]. split; reflexivity.
  - injection Hline as <-. split; [reflexivity |].
    exists []. split; [symmetry; apply app_nil_r |]. split; reflexivity.
Qed.

Lemma train_loop_lines (epoch : Z) (len : nat)
  (batches : list (list Sample * list Z)) :
  forall (i : nat) (v v' : train_vars) (w w' : World),
    for_each (train_batch epoch len) (zip (seq i (List.length batches)) batches)
      v w = (inr v', w') ->
    args w' = args w
    /\ exists out : list msg,
         stdout w' = stdout w ++ out
         /\ List.length out = List.length (train_lines out)
         /\ train_lines out
            = map (fun j => (epoch, j, len))
                (filter (fun j => Z.of_nat j mod Args.print_freq (args w) = 0)
                        (seq i (List.length batches))).
Proof.
  induction batches as [| [input target] batches IH]; intros i v v' w w'; simpl.
  - intros [= <- <-]. split; [reflexivity |].
    exists []. split; [symmetry; apply app_nil_r |]. split; reflexivity.
  - intros Hrun. invert_bind Hrun as v1 w1 Hbatch.
    apply train_batch_line in Hbatch as (Hargs1 & out1 & Hout1 & Hlen1 & Hlines1).
    apply IH in Hrun as (Hargs & out & Hout & Hlen & Hlines).
    rewrite Hargs1 in Hlines.
    split; [congruence |].
    exists (out1 ++ out).
    split; [rewrite Hout, Hout1, app_assoc; reflexivity |].
    rewrite train_lines_app, !length_app, Hlines, Hlines1.
    split; [rewrite Hlen, Hlen1, Hlines, Hlines1; reflexivity |].
    destruct (Z.eqb_spec (Z.of_nat i mod Args.print_freq (args w)) 0)
      as [Hz | Hnz].
    + rewrite filter_cons_True by exact Hz. reflexivity.
    + rewrite filter_cons_False by exact Hnz. reflexivity.
Qed.

(** X23.  What [train] prints.  When it returns it has printed progress
    lines and nothing else: one for every batch whose index is a multiple
    of [args.print_freq], in order, each with the epoch and the number of
    batches. *)
Theorem train_progress_lines (model : Model) (optimizer : Optimizer Buffers)
  (epoch : Z) (w w' : World) (r : Model * Optimizer Buffers) :
  train model optimizer epoch w = (inr r, w') ->
  exists out : list msg,
    stdout w' = stdout w ++ out
    /\ List.length out = List.length (train_lines out)
    /\ train_lines out
       = map (fun j => (epoch, j, List.length (train_loader (args w) epoch)))
           (filter (fun j => Z.of_nat j mod Args.print_freq (args w) = 0)
                   (seq 0 (List.length (train_loader (args w) epoch)))).
Proof.
  unfold train. intros Hrun.
  invert_bind Hrun as end_ w1 Htime. injection Htime as <- <-.
  invert_bind Hrun as a w2 Hargs. injection Hargs as <- <-.
  invert_bind Hrun as v w3 Hloop.
  invert_bind Hrun as [] w4 Hlog. injection Hrun as _ <-.
  cbn [args set_clock] in Hloop, Hlog.
  apply train_loop_lines in Hloop as (Hargs & out & Hout & Hlen & Hlines).
  cbn [args stdout set_clock] in Hargs, Hout, Hlines.
  exists out. split; [| split; assumption].
  rewrite <- Hout.
  destruct (Args.tensorboard (args w)).
  - invert_bind Hlog as [] w5 Hlog1.
    unfold log_value in Hlog1, Hlog.
    destruct (tb_dir w3) eqn:Hdir; [| discriminate Hlog1].
    injection Hlog1 as <-.
    cbn [tb_dir set_tb_log] in Hlog. rewrite Hdir in Hlog.
    injection Hlog as <-. reflexivity.
  - injection Hlog as <-. reflexivity.
Qed.

End ProgressLines.

Lemma train_progress_lines_witness :
  exists (r : Model (H := toy) * Optimizer unit) (w' : World (H := toy))
         (out : list msg),
    train (H := toy) (fresh_model (H := toy) toy_args)
      (SGD (H := toy) 0.1 0.9 true 0.0005) 0
      (initial_world (H := toy) toy_args ∅ ∅) = (inr r, w')
    /\ stdout w' = out
    /\ List.length out = 1%nat
    /\ train_lines out = [(0, 0%nat, 2%nat)].
Proof.
  destruct (train_returns (H := toy) (fresh_model (H := toy) toy_args)
              (SGD (H := toy) 0.1 0.9 true 0.0005) 0
              (initial_world (H := toy) toy_args ∅ ∅) toy_runnable)
    as (r & w' & Hrun).
  destruct (train_progress_lines (H := toy) _ _ _ _ _ _ Hrun)
    as (out & Hout & Hlen & Hlines).
  exists r, w', out. split; [exact Hrun |]. split; [exact Hout |].
  split; [rewrite Hlen, Hlines; reflexivity | exact Hlines].
Defined.

(** ** Shapes and slices in accuracy *)

Section AccuracyShapes.

(** X25.  A negative k counts from the largest k.  The slice [correct[:k]]
    with [k < 0] drops the last [-k] of the [maxk] rows: beside a largest
    value [m], an entry [k] with [-m <= k < 0] returns the precision at
    [m + k]. *)
Theorem accuracy_negative_k (output : scores) (target : list Z) (k m : Z) :
  wf_scores output = true ->
  List.length target = List.length (rows output) ->
  target ≠ [] ->
  k < 0 ->
  0 <= m + k ->
  m <= Z.of_nat (ncols output) ->
  exists r r' : Q,
    accuracy output target [k; m] = inr [r; r']
    /\ accuracy output target [m + k; m] = inr [r; r'].
Proof.
  intros Hwf Hlen Hne Hk Hmk Hm.
  rewrite (accuracy_returns output target [m + k; m]); try assumption;
    [| discriminate | repeat constructor; lia].
  cbn [map]. eexists _, _. split; [| reflexivity].
  unfold accuracy. cbn [py_max fold_left res_bind].
  replace (Z.max k m) with m by lia.
  unfold tensor_topk.
  destruct (Z.ltb_spec m 0); [lia |].
  destruct (Z.ltb_spec (Z.of_nat (ncols output)) m); [lia |].
  cbn [orb res_bind].
  unfold expand_target. rewrite (proj2 (Nat.eqb_eq _ _) Hlen). cbn [res_bind].
  destruct (Z.eqb_spec (Z.of_nat (List.length target)) 0) as [Hz | _].
  { destruct target; [congruence | simpl in Hz; lia]. }
  cbn [res_mapM res_bind].
  assert (Hslice :
    forall c : list (list bool),
      List.length c = Z.to_nat m ->
      py_slice_to k c = take (Z.to_nat (m + k)) c).
  { intros c Hc. unfold py_slice_to. destruct (Z.leb_spec 0 k); [lia |].
    rewrite Hc. f_equal. lia. }
  rewrite Hslice.
  2:{ rewrite length_zip_with, length_replicate. unfold transpose.
      rewrite length_map, length_seq. lia. }
  unfold py_slice_to. destruct (Z.leb_spec 0 m); [| lia].
  rewrite !correct_count by (try assumption; lia).
  reflexivity.
Qed.

End AccuracyShapes.

Lemma accuracy_negative_k_witness :
  exists r r' : Q,
    accuracy sample_scores [1; 1; 2] [-1; 3] = inr [r; r']
    /\ accuracy sample_scores [1; 1; 2] [2; 3] = inr [r; r'].
Proof.
  apply (accuracy_negative_k sample_scores [1; 1; 2] (-1) 3).
  - reflexivity.
  - reflexivity.
  - discriminate.
  - lia.
  - lia.
  - simpl. lia.
Defined.

(** * Floating-point values *)

(** ** Rounding

    Bounds on what the operations of [SpecFloat] return, for a format of
    precision [prec] and largest exponent [emax]. *)

Section FloatFacts.

Variables prec emax : Z.
Hypothesis prec_pos : 0 < prec.
Hypothesis emax_large : 2 <= emax.
Hypothesis prec_lt_emax : prec < emax.

Lemma digits2_pos_size (p : positive) : digits2_pos p = Pos.size p.
Proof. induction p as [p IH | p IH |]; simpl; congruence. Qed.

Lemma digits2_pos_bounds (p : positive) :
  2 ^ (Zpos (digits2_pos p) - 1) <= Zpos p < 2 ^ Zpos (digits2_pos p).
Proof.
  rewrite digits2_pos_size. split.
  - pose proof (Pos.size_le p) as Hle.
    assert (HleZ : 2 ^ Zpos (Pos.size p) <= 2 * Zpos p).
    { rewrite <- Pos2Z.inj_pow. change (2 * Zpos p) with (Zpos p~0). lia. }
    replace (Zpos (Pos.size p)) with (Z.succ (Zpos (Pos.size p) - 1)) in HleZ by lia.
    rewrite Z.pow_succ_r in HleZ by lia. lia.
  - pose proof (Pos.size_gt p) as Hgt.
    rewrite <- Pos2Z.inj_pow. lia.
Qed.

Lemma Zdigits2_nonneg (m : Z) : 0 <= Zdigits2 m.
Proof. destruct m; simpl; lia. Qed.

Lemma Zdigits2_lt (m : Z) : 0 <= m -> m < 2 ^ Zdigits2 m.
Proof.
  intros Hm. destruct m as [| p | p]; [simpl; lia | | lia].
  apply digits2_pos_bounds.
Qed.

Lemma Zdigits2_le (m t : Z) : 0 <= m -> 0 <= t -> m < 2 ^ t -> Zdigits2 m <= t.
Proof.
  intros Hm Ht Hlt. destruct m as [| p | p]; [simpl; lia | | lia].
  simpl. pose proof (digits2_pos_bounds p) as [Hlo _].
  destruct (Z_le_gt_dec (Zpos (digits2_pos p)) t) as [Hle | Hgt]; [exact Hle |].
  exfalso.
  assert (2 ^ t <= 2 ^ (Zpos (digits2_pos p) - 1)) by (apply Z.pow_le_mono_r; lia).
  lia.
Qed.

Lemma shr_1_m (mrs : shr_record) :
  0 <= shr_m mrs -> shr_m (shr_1 mrs) = shr_m mrs / 2.
Proof.
  destruct mrs as [m r s]. simpl. intros Hm.
  destruct m as [| [p | p |] | p]; simpl;
    [ reflexivity
    | apply Z.div_unique with (r := 1); lia
    | apply Z.div_unique with (r := 0); lia
    | reflexivity
    | lia ].
Qed.

Lemma iter_shr_1_m (p : positive) :
  forall mrs : shr_record,
    0 <= shr_m mrs ->
    shr_m (SpecFloat.iter_pos shr_1 p mrs) = shr_m mrs / 2 ^ Zpos p.
Proof.
  induction p as [p IH | p IH |]; intros mrs Hm.
  - change (SpecFloat.iter_pos shr_1 p~1 mrs)
      with (SpecFloat.iter_pos shr_1 p (SpecFloat.iter_pos shr_1 p (shr_1 mrs))).
    assert (H1 : 0 <= shr_m (shr_1 mrs)).
    { rewrite shr_1_m by exact Hm. apply Z.div_pos; lia. }
    assert (H2 : 0 <= shr_m (SpecFloat.iter_pos shr_1 p (shr_1 mrs))).
    { rewrite IH by exact H1. apply Z.div_pos; [exact H1 | lia]. }
    rewrite IH, IH, shr_1_m by assumption.
    rewrite !Z.div_div by lia. f_equal.
    replace (Zpos p~1) with (1 + Zpos p + Zpos p) by lia.
    rewrite !Z.pow_add_r by lia. change (2 ^ 1) with 2. lia.
  - change (SpecFloat.iter_pos shr_1 p~0 mrs)
      with (SpecFloat.iter_pos shr_1 p (SpecFloat.iter_pos shr_1 p mrs)).
    assert (H2 : 0 <= shr_m (SpecFloat.iter_pos shr_1 p mrs)).
    { rewrite IH by exact Hm. apply Z.div_pos; [exact Hm | lia]. }
    rewrite IH, IH by assumption.
    rewrite !Z.div_div by lia. f_equal.
    replace (Zpos p~0) with (Zpos p + Zpos p) by lia.
    rewrite !Z.pow_add_r by lia. reflexivity.
  - change (SpecFloat.iter_pos shr_1 1 mrs) with (shr_1 mrs).
    rewrite shr_1_m by exact Hm. reflexivity.
Qed.

Lemma shr_record_of_loc_m (m : Z) (l : location) :
  shr_m (shr_record_of_loc m l) = m.
Proof. destruct l as [| []]; reflexivity. Qed.

Lemma fexp_ge (x : Z) : x - prec <= fexp prec emax x /\ emin prec emax <= fexp prec emax x.
Proof. unfold fexp. lia. Qed.

Lemma div_pow2_lt (m d n : Z) :
  0 <= m -> 0 <= d -> 0 < n -> m < 2 ^ d -> m / 2 ^ n < 2 ^ Z.max (d - n) 0.
Proof.
  intros Hm Hd Hn Hlt.
  assert (Hpow : 0 < 2 ^ n) by (apply Z.pow_pos_nonneg; lia).
  destruct (Z_le_gt_dec d n) as [Hle | Hgt].
  - rewrite Z.max_r by lia. rewrite Z.div_small; [reflexivity |].
    split; [exact Hm |].
    assert (2 ^ d <= 2 ^ n) by (apply Z.pow_le_mono_r; lia). lia.
  - rewrite Z.max_l by lia.
    apply Z.div_lt_upper_bound; [exact Hpow |].
    rewrite <- Z.pow_add_r by lia.
    replace (n + (d - n)) with d by lia. exact Hlt.
Qed.

(** What the shift to the format's exponent leaves. *)
Lemma shr_fexp_spec (m e : Z) (l : location) :
  0 <= m ->
  let r := shr_fexp prec emax m e l in
  0 <= shr_m r.1
  /\ r.2 = Z.max e (fexp prec emax (Zdigits2 m + e))
  /\ shr_m r.1 < 2 ^ prec
  /\ Zdigits2 (shr_m r.1) + r.2 <= Z.max (Zdigits2 m + e) r.2.
Proof.
  intros Hm. unfold shr_fexp, shr.
  pose proof (Zdigits2_nonneg m) as Hd.
  pose proof (Zdigits2_lt m Hm) as Hlt.
  pose proof (fexp_ge (Zdigits2 m + e)) as [Hf1 Hf2].
  assert (Hsmall : fexp prec emax (Zdigits2 m + e) - e <= 0 -> m < 2 ^ prec).
  { intros Hle.
    assert (2 ^ Zdigits2 m <= 2 ^ prec) by (apply Z.pow_le_mono_r; lia). lia. }
  destruct (fexp prec emax (Zdigits2 m + e) - e) as [| p | p] eqn:Hn; cbn [fst snd].
  - rewrite shr_record_of_loc_m.
    split; [exact Hm |]. split; [lia |]. split; [apply Hsmall; lia | lia].
  - assert (Hq : shr_m (SpecFloat.iter_pos shr_1 p (shr_record_of_loc m l)) = m / 2 ^ Zpos p).
    { rewrite iter_shr_1_m by (rewrite shr_record_of_loc_m; exact Hm).
      rewrite shr_record_of_loc_m. reflexivity. }
    rewrite Hq.
    pose proof (div_pow2_lt m (Zdigits2 m) (Zpos p) Hm Hd ltac:(lia) Hlt) as Hdiv.
    assert (H0 : 0 <= m / 2 ^ Zpos p) by (apply Z.div_pos; lia).
    split; [exact H0 |]. split; [lia |]. split.
    + assert (2 ^ Z.max (Zdigits2 m - Zpos p) 0 <= 2 ^ prec)
        by (apply Z.pow_le_mono_r; lia).
      lia.
    + pose proof (Zdigits2_le (m / 2 ^ Zpos p) (Z.max (Zdigits2 m - Zpos p) 0)
                    H0 ltac:(lia) Hdiv).
      lia.
  - rewrite shr_record_of_loc_m.
    split; [exact Hm |]. split; [lia |]. split; [apply Hsmall; lia | lia].
Qed.

Lemma round_nearest_even_bounds (m : Z) (l : location) :
  m <= round_nearest_even m l <= m + 1.
Proof. destruct l as [| []]; simpl; try destruct (Z.even m); lia. Qed.

(** Rounding a non-negative mantissa whose magnitude is at most [K], well
    below the largest exponent: the result is a zero or a finite number of
    the same sign, of magnitude at most one more. *)
Lemma binary_round_aux_bounded (s : bool) (m e : Z) (l : location) (K : Z) :
  0 <= m -> e <= emax - prec -> Zdigits2 m + e <= K -> K + 1 <= emax ->
  binary_round_aux prec emax s m e l = S754_zero s
  \/ exists (m' : positive) (e' : Z),
       binary_round_aux prec emax s m e l = S754_finite s m' e'
       /\ Zpos (digits2_pos m') + e' <= Z.max (Z.max K e) (emin prec emax) + 1.
Proof.
  intros Hm He HK HKmax. unfold binary_round_aux.
  pose proof (shr_fexp_spec m e l Hm) as H1. cbv zeta in H1.
  destruct (shr_fexp prec emax m e l) as [mrs1 e1]. cbn [fst snd] in H1.
  destruct H1 as (H1m & H1e & H1p & H1d).
  set (m1 := round_nearest_even (shr_m mrs1) (loc_of_shr_record mrs1)).
  pose proof (round_nearest_even_bounds (shr_m mrs1) (loc_of_shr_record mrs1)) as Hrne.
  fold m1 in Hrne.
  assert (Hm1 : 0 <= m1) by lia.
  pose proof (shr_fexp_spec m1 e1 loc_Exact Hm1) as H2. cbv zeta in H2.
  destruct (shr_fexp prec emax m1 e1 loc_Exact) as [mrs2 e2]. cbn [fst snd] in H2.
  destruct H2 as (H2m & H2e & H2p & H2d).
  pose proof (Zdigits2_nonneg (shr_m mrs1)) as Hd1.
  assert (Hdm1 : Zdigits2 m1 <= Zdigits2 (shr_m mrs1) + 1).
  { apply Zdigits2_le; [exact Hm1 | lia |].
    pose proof (Zdigits2_lt _ H1m) as Hlt.
    rewrite Z.pow_add_r, Z.pow_1_r by lia. lia. }
  pose proof (fexp_ge (Zdigits2 m + e)) as [Hf1 Hf2].
  pose proof (fexp_ge (Zdigits2 m1 + e1)) as [Hg1 Hg2].
  assert (He1 : e1 <= Z.max (Z.max K e) (emin prec emax) /\ e1 <= emax - prec).
  { rewrite H1e. unfold fexp, emin in *. lia. }
  assert (He2 : e2 <= Z.max (Z.max K e) (emin prec emax) + 1 /\ e2 <= emax - prec).
  { rewrite H2e. unfold fexp, emin in *. lia. }
  destruct (shr_m mrs2) as [| m2 | m2] eqn:Hm2; [left; reflexivity | | lia].
  right. exists m2, e2.
  destruct (Z.leb_spec e2 (emax - prec)) as [_ | Hgt]; [| lia].
  split; [reflexivity |].
  change (Zdigits2 (Zpos m2) + e2 <= Z.max (Z.max K e) (emin prec emax) + 1).
  lia.
Qed.

(** The quotient of two finite numbers, well below the largest exponent. *)
Lemma SFdiv_bounded (sx sy : bool) (mx my : positive) (ex ey : Z) :
  let X := (Zpos (digits2_pos mx) + ex) - (Zpos (digits2_pos my) + ey) in
  X + 2 <= emax ->
  SFdiv prec emax (S754_finite sx mx ex) (S754_finite sy my ey) = S754_zero (xorb sx sy)
  \/ exists (m : positive) (e : Z),
       SFdiv prec emax (S754_finite sx mx ex) (S754_finite sy my ey)
       = S754_finite (xorb sx sy) m e
       /\ Zpos (digits2_pos m) + e <= Z.max (X + 1) (emin prec emax) + 1.
Proof.
  intros X HX. unfold SFdiv, SFdiv_core_binary.
  change (Zdigits2 (Zpos mx)) with (Zpos (digits2_pos mx)).
  change (Zdigits2 (Zpos my)) with (Zpos (digits2_pos my)).
  fold X.
  set (ez := Z.min (fexp prec emax X) (ex - ey)).
  set (sh := ex - ey - ez).
  set (m' := match sh with Zpos _ => Z.shiftl (Zpos mx) sh | Z0 => Zpos mx | Zneg _ => 0 end).
  assert (Hsh : 0 <= sh) by (unfold sh, ez; lia).
  assert (Hm' : m' = Zpos mx * 2 ^ sh).
  { unfold m'. destruct sh as [| p | p] eqn:Hs; [lia | | lia].
    apply Z.shiftl_mul_pow2. lia. }
  pose proof (Z_div_mod m' (Zpos my) ltac:(lia)) as Hdm.
  destruct (Z.div_eucl m' (Zpos my)) as [q r] eqn:Hde.
  destruct Hdm as [Hdm Hr].
  pose proof (digits2_pos_bounds mx) as [_ Hxhi].
  pose proof (digits2_pos_bounds my) as [Hylo _].
  set (dx := Zpos (digits2_pos mx)) in *. set (dy := Zpos (digits2_pos my)) in *.
  assert (Hpsh : 0 < 2 ^ sh) by (apply Z.pow_pos_nonneg; lia).
  assert (Hq0 : 0 <= q) by nia.
  assert (Hqlt : q < 2 ^ Z.max (dx + sh - dy + 1) 0).
  { assert (Hmlt : m' < 2 ^ (dx + sh)).
    { rewrite Hm', Z.pow_add_r by lia. nia. }
    assert (Hqy : q * 2 ^ (dy - 1) <= m') by nia.
    destruct (Z_le_gt_dec (dx + sh - dy + 1) 0) as [Hle | Hgt].
    - rewrite Z.max_r by lia. change (2 ^ 0) with 1.
      assert (2 ^ (dx + sh) <= 2 ^ (dy - 1)) by (apply Z.pow_le_mono_r; lia).
      assert (0 < 2 ^ (dy - 1)) by (apply Z.pow_pos_nonneg; lia).
      nia.
    - rewrite Z.max_l by lia.
      assert (Hsplit : 2 ^ (dx + sh) = 2 ^ (dx + sh - dy + 1) * 2 ^ (dy - 1)).
      { rewrite <- Z.pow_add_r by lia. f_equal. lia. }
      assert (0 < 2 ^ (dy - 1)) by (apply Z.pow_pos_nonneg; lia).
      nia. }
  pose proof (Zdigits2_le q (Z.max (dx + sh - dy + 1) 0) Hq0 ltac:(lia) Hqlt) as Hdq.
  pose proof (fexp_ge X) as [Hf1 Hf2].
  destruct (binary_round_aux_bounded (xorb sx sy) q ez (new_location (Zpos my) r)
              (Z.max (X + 1) (emin prec emax)))
    as [Hz | (m & e & Hfin & Hmag)].
  - exact Hq0.
  - unfold ez, fexp, emin in *. lia.
  - unfold sh, ez, X, fexp, emin in *. lia.
  - unfold emin. lia.
  - left. exact Hz.
  - right. exists m, e. split; [exact Hfin |].
    unfold ez, fexp, emin in *. lia.
Qed.

Lemma digits2_pos_iter_xO (m k : positive) :
  Zpos (digits2_pos (Pos.iter xO m k)) = Zpos (digits2_pos m) + Zpos k.
Proof.
  induction k as [| k IH] using Pos.peano_ind.
  - simpl. lia.
  - rewrite Pos.iter_succ. cbn [digits2_pos]. lia.
Qed.

(** A number that is already in the format is not changed by rounding. *)
Lemma binary_round_aux_canonical (s : bool) (m : positive) (e : Z) :
  fexp prec emax (Zpos (digits2_pos m) + e) = e -> e <= emax - prec ->
  binary_round_aux prec emax s (Zpos m) e loc_Exact = S754_finite s m e.
Proof.
  intros Hcan He. unfold binary_round_aux, shr_fexp.
  cbn [Zdigits2]. rewrite Hcan, Z.sub_diag. cbn [shr shr_record_of_loc shr_m
    loc_of_shr_record round_nearest_even Zdigits2].
  rewrite Hcan, Z.sub_diag. cbn [shr shr_m].
  destruct (Z.leb_spec e (emax - prec)); [reflexivity | lia].
Qed.

(** An integer of at most [prec] bits converts exactly; the magnitude of
    the result is the bit length of the integer. *)
Lemma binary_normalize_small (p : positive) :
  Zpos (digits2_pos p) <= prec ->
  exists (m : positive) (e : Z),
    binary_normalize prec emax (Zpos p) 0 false = S754_finite false m e
    /\ Zpos (digits2_pos m) + e = Zpos (digits2_pos p).
Proof.
  intros Hd. unfold binary_normalize, binary_round, shl_align.
  assert (Hf : fexp prec emax (Zpos (digits2_pos p) + 0) = Zpos (digits2_pos p) - prec).
  { unfold fexp, emin. lia. }
  rewrite Hf.
  destruct (Zpos (digits2_pos p) - prec - 0) as [| k | k] eqn:Hk; [| lia |].
  - exists p, 0. split; [| lia].
    apply binary_round_aux_canonical; [rewrite Hf |]; lia.
  - exists (Pos.iter xO p k), (Zpos (digits2_pos p) - prec).
    pose proof (digits2_pos_iter_xO p k) as Hdig.
    split; [| lia].
    apply binary_round_aux_canonical; [| lia].
    unfold fexp, emin. lia.
Qed.

(** Rounding a finite number of magnitude below the largest exponent. *)
Lemma binary_round_bounded (s : bool) (m : positive) (e : Z) :
  Zpos (digits2_pos m) + e + 1 <= emax ->
  binary_round prec emax s m e = S754_zero s
  \/ exists (m' : positive) (e' : Z),
       binary_round prec emax s m e = S754_finite s m' e'.
Proof.
  intros Hmag. unfold binary_round, shl_align.
  pose proof (fexp_ge (Zpos (digits2_pos m) + e)) as [Hf1 Hf2].
  assert (Hfle : fexp prec emax (Zpos (digits2_pos m) + e) <= emax - prec).
  { unfold fexp, emin. lia. }
  assert (Haux : forall mz ez,
            Zpos (digits2_pos mz) + ez = Zpos (digits2_pos m) + e ->
            ez <= emax - prec ->
            binary_round_aux prec emax s (Zpos mz) ez loc_Exact = S754_zero s
            \/ exists (m' : positive) (e' : Z),
                 binary_round_aux prec emax s (Zpos mz) ez loc_Exact
                 = S754_finite s m' e').
  { intros mz ez Hsame Hez.
    destruct (binary_round_aux_bounded s (Zpos mz) ez loc_Exact
                (Zpos (digits2_pos m) + e))
      as [Hz | (m' & e' & Hfin & _)]; try (cbn [Zdigits2]; lia).
    - left. exact Hz.
    - right. exists m', e'. exact Hfin. }
  destruct (fexp prec emax (Zpos (digits2_pos m) + e) - e) as [| k | k] eqn:Hk.
  - apply Haux; lia.
  - apply Haux; lia.
  - apply Haux.
    + rewrite digits2_pos_iter_xO. lia.
    + exact Hfle.
Qed.

End FloatFacts.

(** ** accuracy on floats: the classes listed *)

Section TopkFacts.
Import Binary.

Variable row : list Q.

(** The first [k] of the classes listed for a larger k are a listing
    for [k]. *)
Lemma take_is_topk (maxk k : nat) (l : list nat) :
  is_topk maxk row l -> (k <= maxk)%nat -> is_topk k row (take k l).
Proof.
  intros [Hlen Hnd Hrange Hsort Hlarge] Hk.
  pose proof (take_drop k l) as Hsplit.
  split.
  - rewrite length_take. lia.
  - eapply sublist_NoDup; [exact Hnd | apply sublist_take].
  - intros j Hj. apply Hrange. eapply subseteq_take; exact Hj.
  - rewrite <- Hsplit in Hsort. eapply StronglySorted_app_1_l; exact Hsort.
  - intros j a Hj Hnot Ha. destruct (decide (j ∈ l)) as [Hin | Hout].
    + rewrite <- Hsplit in Hin, Hsort.
      apply elem_of_app in Hin as [Hin | Hin]; [contradiction |].
      exact (StronglySorted_app_1_elem_of _ _ _ _ _ Hsort Ha Hin).
    + apply Hlarge; [exact Hj | exact Hout | eapply subseteq_take; exact Ha].
Qed.

(** A label that fewer than [k] other classes equal or beat is listed. *)
Lemma sure_listed (k : nat) (l : list nat) (t : Z) :
  is_topk k row l -> surely_in_top_k k row t = true ->
  0 <= t /\ Z.to_nat t ∈ l.
Proof.
  intros [Hlen Hnd Hrange _ Hlarge]. unfold surely_in_top_k.
  rewrite !andb_true_iff, Z.leb_le, !Nat.ltb_lt. intros [[Ht Hlt] Hcount].
  split; [exact Ht |].
  destruct (decide (Z.to_nat t ∈ l)) as [Hin | Hout]; [exact Hin | exfalso].
  assert (Hsub : l ⊆+ filter (fun j : nat =>
                    j ≠ Z.to_nat t
                    /\ Qle_bool (score row (Z.to_nat t)) (score row j) = true)
                   (seq 0 (List.length row))).
  { apply NoDup_submseteq; [exact Hnd |]. intros a Ha.
    apply list_elem_of_filter. split.
    - split; [intros ->; contradiction |].
      apply Qle_bool_iff. apply Hlarge; assumption.
    - apply elem_of_seq. specialize (Hrange a Ha). lia. }
  apply submseteq_length in Hsub. unfold others_at_least in Hcount. lia.
Qed.

(** A label that is listed has fewer than [k] classes above it. *)
Lemma listed_possible (k : nat) (l : list nat) (t : Z) :
  is_topk k row l -> 0 <= t -> Z.to_nat t ∈ l ->
  possibly_in_top_k k row t = true.
Proof.
  intros [Hlen Hnd Hrange _ Hlarge] Ht Hin. unfold possibly_in_top_k.
  rewrite !andb_true_iff, Z.leb_le, !Nat.ltb_lt.
  split; [split; [exact Ht | apply Hrange; exact Hin] |].
  apply elem_of_Permutation in Hin as Hperm. destruct Hperm as [l' Hperm].
  assert (Hsub : filter (fun j : nat =>
                    Qltb (score row (Z.to_nat t)) (score row j) = true)
                   (seq 0 (List.length row)) ⊆+ l').
  { apply NoDup_submseteq; [apply NoDup_filter, NoDup_seq |]. intros j Hj.
    apply list_elem_of_filter in Hj as [Hlt Hj].
    apply Qltb_lt in Hlt. apply elem_of_seq in Hj.
    destruct (decide (j ∈ l)) as [Hjl | Hout].
    - rewrite Hperm in Hjl. apply elem_of_cons in Hjl as [-> | Hjl]; [lra | exact Hjl].
    - pose proof (Hlarge j (Z.to_nat t) ltac:(lia) Hout Hin). lra. }
  apply submseteq_length in Hsub.
  apply Permutation_length in Hperm. simpl in Hperm.
  unfold others_above. lia.
Qed.

End TopkFacts.

Section ListedCount.
Import Binary.

Variable topk_indices : nat -> list Q -> list nat.
Hypothesis topk_indices_valid :
  forall (k : nat) (row : list Q),
    (k <= List.length row)%nat -> is_topk k row (topk_indices k row).

(** The entries of one sample in the first [k] rows of [correct] hold one
    [True] exactly when the label is one of the first [k] classes
    listed. *)
Lemma sample_listed (maxk k : nat) (l : list nat) (t : Z) :
  List.length l = maxk -> NoDup l -> (k <= maxk)%nat ->
  count_true (map (fun c => Z.of_nat (nth c l 0%nat) =? t) (seq 0 k))
  = if listed k l t then 1%nat else 0%nat.
Proof.
  intros Hlen Hnd Hk.
  transitivity
    (count_true
       (map (fun p : nat => Z.of_nat p =? t)
            (map (fun c => nth c l 0%nat) (seq 0 k)))).
  { rewrite map_map. reflexivity. }
  rewrite map_nth_seq by lia.
  rewrite count_matches; [reflexivity |].
  eapply sublist_NoDup; [exact Hnd | apply sublist_take].
Qed.

Lemma listed_by_sample (maxk k : nat) (rows : list (list Q)) :
  (k <= maxk)%nat ->
  Forall (fun r => (maxk <= List.length r)%nat) rows ->
  forall target : list Z,
    sum_list_with
      (fun x : list nat * Z =>
         count_true (map (fun c => Z.of_nat (nth c x.1 0%nat) =? x.2) (seq 0 k)))
      (zip (map (topk_indices maxk) rows) target)
    = count_true
        (zip_with (fun row t => listed k (topk_indices maxk row) t) rows target).
Proof.
  intros Hk. induction 1 as [| row rows Hrow _ IH]; intros target.
  - reflexivity.
  - destruct target as [| t target]; [reflexivity |]. simpl.
    destruct (topk_indices_valid maxk row Hrow) as [Hlen Hnd _ _ _].
    rewrite IH, (sample_listed maxk k) by assumption. reflexivity.
Qed.

(** The number of [True] in the first [k] rows of [correct]. *)
Lemma correct_count_listed (output : scores) (target : list Z) (maxk k : nat) :
  wf_scores output = true ->
  (k <= maxk)%nat -> (maxk <= ncols output)%nat ->
  count_true
    (concat
       (take k
          (zip_with (zip_with (fun (p : nat) (t : Z) => Z.of_nat p =? t))
             (transpose maxk (map (topk_indices maxk) (rows output)))
             (replicate maxk target))))
  = listed_hits topk_indices maxk k output target.
Proof.
  intros Hwf Hk Hmax.
  pose proof (wf_scores_rows output Hwf) as Hrows.
  rewrite correct_rows.
  2:{ apply Forall_fmap. eapply Forall_impl; [exact Hrows |]. simpl.
      intros r Hr. apply topk_indices_valid. lia. }
  rewrite <- fmap_take, take_seq, Nat.min_l by exact Hk.
  rewrite count_true_concat_map, count_swap.
  apply listed_by_sample; [exact Hk |].
  eapply Forall_impl; [exact Hrows |]. simpl. intros r ->. exact Hmax.
Qed.

Lemma count_true_zip_with_le {A B : Type} (f g : A -> B -> bool) (l1 : list A) :
  (forall x y, x ∈ l1 -> f x y = true -> g x y = true) ->
  forall l2 : list B,
    (count_true (zip_with f l1 l2) <= count_true (zip_with g l1 l2))%nat.
Proof.
  induction l1 as [| x l1 IH]; intros Hfg l2; [simpl; lia |].
  destruct l2 as [| y l2]; [simpl; lia |]. simpl.
  assert (IH' : (count_true (zip_with f l1 l2) <= count_true (zip_with g l1 l2))%nat).
  { apply IH. intros x' y' Hx'. apply Hfg. right. exact Hx'. }
  destruct (f x y) eqn:Hf; [rewrite (Hfg x y ltac:(left) Hf); lia |].
  destruct (g x y); lia.
Qed.

(** Whatever the order of equal scores, the count lies between the number
    of labels surely among the [k] highest and the number possibly among
    them. *)
Lemma listed_hits_bounds (output : scores) (target : list Z) (maxk k : nat) :
  wf_scores output = true ->
  (k <= maxk)%nat -> (maxk <= ncols output)%nat ->
  (sure_hits k output target <= listed_hits topk_indices maxk k output target
   <= possible_hits k output target)%nat.
Proof.
  intros Hwf Hk Hmax.
  pose proof (wf_scores_rows output Hwf) as Hrows.
  rewrite Forall_forall in Hrows.
  assert (Htop : forall row, row ∈ rows output ->
            is_topk k row (take k (topk_indices maxk row))).
  { intros row Hrow. apply (take_is_topk row maxk); [| exact Hk].
    apply topk_indices_valid. rewrite (Hrows row Hrow). exact Hmax. }
  unfold sure_hits, listed_hits, possible_hits. split.
  - apply count_true_zip_with_le. intros row t Hrow Hsure.
    unfold listed. apply bool_decide_eq_true.
    exact (sure_listed row k _ t (Htop row Hrow) Hsure).
  - apply count_true_zip_with_le. intros row t Hrow Hlisted.
    unfold listed in Hlisted. apply bool_decide_eq_true in Hlisted as [Ht Hin].
    exact (listed_possible row k _ t (Htop row Hrow) Ht Hin).
Qed.

End ListedCount.

(** ** accuracy on floats: the value *)

Section AccuracyFloat.
Import Binary.

Lemma to_float64_small (n : Z) :
  0 <= n < 2 ^ 53 -> is_finite (to_float64 n) = true.
Proof.
  intros [H0 Hlt]. destruct n as [| p | p]; [reflexivity | | lia].
  destruct (binary_normalize_small 53 1024 ltac:(lia) ltac:(lia) p)
    as (m & e & Hfin & _).
  - exact (Zdigits2_le (Zpos p) 53 H0 ltac:(lia) Hlt).
  - unfold to_float64. rewrite Hfin. reflexivity.
Qed.

(** [100.0 / batch_size] as a float32 is a zero or a positive number. *)
Lemma factor_not_negative (n : Z) :
  0 < n < 2 ^ 53 ->
  to_float32 (div64 (float_of_literal 100) (to_float64 n)) = S754_zero false
  \/ exists (m : positive) (e : Z),
       to_float32 (div64 (float_of_literal 100) (to_float64 n))
       = S754_finite false m e.
Proof.
  intros [H0 Hlt]. destruct n as [| p | p]; [lia | | lia].
  destruct (binary_normalize_small 53 1024 ltac:(lia) ltac:(lia) p)
    as (my & ey & Hy & Hmag).
  { exact (Zdigits2_le (Zpos p) 53 ltac:(lia) ltac:(lia) Hlt). }
  unfold to_float64. rewrite Hy.
  assert (Hundred : float_of_literal 100
                    = S754_finite false 7036874417766400 (-46))
    by (vm_compute; reflexivity).
  rewrite Hundred.
  pose proof (SFdiv_bounded 53 1024 ltac:(lia) ltac:(lia) ltac:(lia)
                false false 7036874417766400 my (-46) ey) as Hdiv.
  cbv zeta in Hdiv.
  change (Zpos (digits2_pos 7036874417766400)) with 53 in Hdiv.
  assert (Hpos : 0 < Zpos (digits2_pos p)) by lia.
  destruct Hdiv as [Hz | (m & e & Hfin & Hm)]; [lia | |].
  - unfold div64. rewrite Hz. left. reflexivity.
  - unfold div64. rewrite Hfin. unfold to_float32.
    apply (binary_round_bounded 24 128 ltac:(lia) ltac:(lia) ltac:(lia)).
    unfold emin in Hm. lia.
Qed.

(** No sample counted: the product is exactly 0.0. *)
Lemma percent32_zero (n : Z) :
  0 < n < 2 ^ 53 -> percent32 0 n = S754_zero false.
Proof.
  intros Hn. unfold percent32.
  destruct (factor_not_negative n Hn) as [-> | (m & e & ->)]; reflexivity.
Qed.

Lemma StronglySorted_weaken {A : Type} (R1 R2 : relation A) (l : list A) :
  (forall x y, R1 x y -> R2 x y) -> StronglySorted R1 l -> StronglySorted R2 l.
Proof.
  intros Himp. induction 1 as [| x l _ IH Hall]; constructor; [exact IH |].
  eapply Forall_impl; [exact Hall | exact (Himp x)].
Qed.

(** Listing equal scores by ascending index is one of the orders the
    library may follow. *)
Lemma topk_row_valid (k : nat) (row : list Q) :
  (k <= List.length row)%nat -> is_topk k row (topk_row k row).
Proof.
  intros Hk. unfold topk_row.
  pose proof (take_drop k (ranking row)) as Hsplit.
  pose proof (ranking_sorted row) as Hsort. rewrite <- Hsplit in Hsort.
  assert (Hle : forall a j, ranks_before row a j -> (score row j <= score row a)%Q).
  { intros a j Hr. apply ranks_before_spec in Hr. lra. }
  split.
  - rewrite length_take, ranking_length. lia.
  - eapply sublist_NoDup; [apply ranking_NoDup | apply sublist_take].
  - intros j Hj. apply ranking_elem. eapply subseteq_take; exact Hj.
  - eapply StronglySorted_weaken; [exact Hle |].
    eapply StronglySorted_app_1_l; exact Hsort.
  - intros j a Hj Hnot Ha. apply Hle.
    apply ranking_elem in Hj. rewrite <- Hsplit in Hj.
    apply elem_of_app in Hj as [Hj | Hj]; [contradiction |].
    exact (StronglySorted_app_1_elem_of _ _ _ _ _ Hsort Ha Hj).
Qed.

Variable topk_indices : nat -> list Q -> list nat.
Hypothesis topk_indices_valid :
  forall (k : nat) (row : list Q),
    (k <= List.length row)%nat -> is_topk k row (topk_indices k row).

Lemma length_correct {A B C : Type} (f : list A -> list B -> C) (maxk : nat)
  (pred : list (list A)) (target : list B) :
  List.length (zip_with f (transpose maxk pred) (replicate maxk target)) = maxk.
Proof.
  rewrite length_zip_with. unfold transpose.
  rewrite length_map, length_seq, length_replicate. lia.
Qed.

(** What [accuracy] returns on a well-formed batch. *)
Lemma accuracy_float_returns (output : scores) (target topk : list Z) (maxk : Z) :
  wf_scores output = true ->
  List.length target = List.length (rows output) ->
  target ≠ [] ->
  Z.of_nat (List.length target) < 2 ^ 53 ->
  py_max topk = inr maxk ->
  Forall (fun k => k <= maxk) topk ->
  0 <= maxk <= Z.of_nat (ncols output) ->
  accuracy topk_indices output target topk
  = inr (map (fun k =>
           percent32
             (listed_hits topk_indices (Z.to_nat maxk)
                (rows_kept (Z.to_nat maxk) k) output target)
             (Z.of_nat (List.length target))) topk).
Proof.
  intros Hwf Hlen Hne Hsmall Hmax Hle Hmaxk. unfold accuracy.
  rewrite Hmax. cbn [res_bind]. unfold tensor_topk.
  destruct (Z.ltb_spec maxk 0); [lia |].
  destruct (Z.ltb_spec (Z.of_nat (ncols output)) maxk); [lia |].
  cbn [orb res_bind].
  unfold expand_target. rewrite Hlen, Nat.eqb_refl. cbn [res_bind].
  apply res_mapM_inr. intros k Hk.
  rewrite <- Hlen.
  unfold float_of_int. rewrite to_float64_small by lia. cbn [res_bind].
  destruct (Z.eqb_spec (Z.of_nat (List.length target)) 0) as [Hz | _].
  { destruct target; [congruence | simpl in Hz; lia]. }
  unfold percent32. do 3 f_equal.
  rewrite Forall_forall in Hle. pose proof (Hle _ Hk) as Hkm.
  unfold py_slice_to, rows_kept.
  destruct (Z.leb_spec 0 k).
  - rewrite Nat.min_l by lia.
    apply correct_count_listed; try assumption; lia.
  - rewrite length_correct.
    apply correct_count_listed; try assumption; lia.
Qed.

Lemma accuracy_float_topk_raises (output : scores) (target topk : list Z) (maxk : Z) :
  py_max topk = inr maxk ->
  maxk < 0 \/ Z.of_nat (ncols output) < maxk ->
  accuracy topk_indices output target topk = inl RuntimeError.
Proof.
  intros Hmax Hout. unfold accuracy. rewrite Hmax. cbn [res_bind].
  unfold tensor_topk.
  destruct (Z.ltb_spec maxk 0); [reflexivity |].
  destruct (Z.ltb_spec (Z.of_nat (ncols output)) maxk); [reflexivity | lia].
Qed.

Lemma rows_kept_le (maxk : nat) (k : Z) : (rows_kept maxk k <= maxk)%nat.
Proof. unfold rows_kept. destruct (0 <=? k); lia. Qed.

Lemma possible_hits_le (k : nat) (output : scores) (target : list Z) :
  (possible_hits k output target <= List.length target)%nat.
Proof.
  unfold possible_hits. etransitivity; [apply count_true_le |].
  rewrite length_zip_with. lia.
Qed.

(** C5.  On a non-empty batch of fewer than 2^24 samples, with as many
    labels as rows of scores, [accuracy] raises [RuntimeError] in [topk]
    when the largest requested k is negative or exceeds the number of
    classes.  Otherwise it returns one float32 per requested k:
    [float32(c) * float32(100.0 / batch_size)], where c counts the samples
    whose label is among the first k classes the library lists for them
    (for a negative k, the largest k plus k).  Whatever order the library
    gives to equal scores, c is at least the number of samples whose label
    fewer than k other classes equal or beat, and at most the number of
    samples whose label fewer than k classes beat.  With no sample counted
    the result is exactly 0.0. *)
Theorem accuracy_top_k (output : scores) (target topk : list Z) :
  wf_scores output = true ->
  List.length target = List.length (rows output) ->
  target ≠ [] ->
  Z.of_nat (List.length target) < 2 ^ 24 ->
  topk ≠ [] ->
  exists maxk : Z,
    py_max topk = inr maxk
    /\ maxk ∈ topk
    /\ Forall (fun k => k <= maxk) topk
    /\ (maxk < 0 \/ Z.of_nat (ncols output) < maxk ->
        accuracy topk_indices output target topk = inl RuntimeError)
    /\ (0 <= maxk <= Z.of_nat (ncols output) ->
        exists counts : list nat,
          accuracy topk_indices output target topk
          = inr (map (fun c => percent32 c (Z.of_nat (List.length target)))
                     counts)
          /\ Forall2
               (fun (k : Z) (c : nat) =>
                  let k' := rows_kept (Z.to_nat maxk) k in
                  c = listed_hits topk_indices (Z.to_nat maxk) k' output target
                  /\ (sure_hits k' output target <= c
                      <= possible_hits k' output target)%nat
                  /\ (c <= List.length target)%nat)
               topk counts
          /\ percent32 0 (Z.of_nat (List.length target)) = S754_zero false).
Proof.
  intros Hwf Hlen Hne Hsmall Htopk.
  destruct (py_max_spec topk Htopk) as (maxk & Hmax & Hle & Hin).
  exists maxk. split; [exact Hmax |]. split; [exact Hin |].
  split; [exact Hle |].
  split; [apply accuracy_float_topk_raises; exact Hmax |].
  intros Hmaxk.
  exists (map (fun k => listed_hits topk_indices (Z.to_nat maxk)
                          (rows_kept (Z.to_nat maxk) k) output target) topk).
  split.
  { rewrite (accuracy_float_returns output target topk maxk); try assumption.
    - rewrite map_map. reflexivity.
    - assert (2 ^ 24 < 2 ^ 53) by reflexivity. lia. }
  split.
  { apply Forall2_fmap_r, Forall_Forall2_diag, Forall_forall.
    intros k _. cbv zeta. split; [reflexivity |].
    pose proof (listed_hits_bounds topk_indices topk_indices_valid output target
                  (Z.to_nat maxk) (rows_kept (Z.to_nat maxk) k) Hwf
                  (rows_kept_le _ _) ltac:(lia)) as Hb.
    split; [exact Hb |].
    pose proof (possible_hits_le (rows_kept (Z.to_nat maxk) k) output target).
    lia. }
  apply percent32_zero.
  assert (Hpos : (0 < List.length target)%nat)
    by (destruct target; [congruence | simpl; lia]).
  assert (2 ^ 24 < 2 ^ 53) by reflexivity. lia.
Qed.

End AccuracyFloat.

(** Three samples without equal scores, k = 1 and k = 2: two of three and
    three of three. *)
Lemma accuracy_top_k_witness :
  Binary.accuracy topk_row distinct_scores [1; 1; 2] [1; 2]
  = inr [Binary.float32_of_literal 66.66666412353516;
         Binary.float32_of_literal 100].
Proof.
  destruct (accuracy_top_k topk_row topk_row_valid distinct_scores [1; 1; 2] [1; 2])
    as (maxk & Hmax & _ & _ & _ & Hret).
  - reflexivity.
  - reflexivity.
  - discriminate.
  - simpl. lia.
  - discriminate.
  - injection Hmax as <-.
    destruct Hret as (counts & Hrun & Hcounts & _); [simpl; lia |].
    rewrite Hrun.
    apply Forall2_cons_inv_l in Hcounts as (c1 & cs & [-> _] & Hcounts & ->).
    apply Forall2_cons_inv_l in Hcounts as (c2 & cs' & [-> _] & Hcounts & ->).
    apply Forall2_nil_inv_l in Hcounts as ->.
    vm_compute. reflexivity.
Defined.

(** The claim as it stands fails in two ways.  The result is a float32
    product: on 45 samples, each with its label as the one highest-scoring
    class, [accuracy] returns 100.00000762939453 and not 100.0, whatever
    the library does with equal scores.  And with equal scores the count
    is not settled by the scores: for one sample with ten equal scores and
    the label 0, the label is possibly, and not surely, among the top 1. *)
Lemma accuracy_full_marks_rounded :
  let output := Scores 2 (repeat [1; 0]%Q 45) in
  let target := repeat 0 45 in
  let tied := Scores 10 [repeat 1%Q 10] in
  (forall topk_indices : nat -> list Q -> list nat,
     (forall (k : nat) (row : list Q),
        (k <= List.length row)%nat ->
        Binary.is_topk k row (topk_indices k row)) ->
     Binary.accuracy topk_indices output target [1]
     = inr [Binary.float32_of_literal 100.00000762939453])
  /\ Binary.sure_hits 1 output target = 45%nat
  /\ Binary.float32_of_literal 100.00000762939453
     ≠ Binary.float32_of_literal 100
  /\ Binary.sure_hits 1 tied [0] = 0%nat
  /\ Binary.possible_hits 1 tied [0] = 1%nat.
Proof.
  cbv zeta.
  split; [| split; [vm_compute; reflexivity |];
            split; [vm_compute; discriminate |];
            split; vm_compute; reflexivity].
  intros topk_indices Hvalid.
  rewrite (accuracy_float_returns topk_indices Hvalid
             (Scores 2 (repeat [1; 0]%Q 45)) (repeat 0 45) [1] 1);
    try reflexivity; [| discriminate | repeat constructor; lia | simpl; lia].
  cbn [map]. change (Binary.rows_kept (Z.to_nat 1) 1) with 1%nat.
  change (Z.to_nat 1) with 1%nat.
  pose proof (listed_hits_bounds topk_indices Hvalid
                (Scores 2 (repeat [1; 0]%Q 45)) (repeat 0 45) 1 1
                eq_refl ltac:(lia) ltac:(simpl; lia)) as [Hlo Hhi].
  assert (Hsure : Binary.sure_hits 1 (Scores 2 (repeat [1; 0]%Q 45)) (repeat 0 45)
                  = 45%nat) by (vm_compute; reflexivity).
  assert (Hposs : Binary.possible_hits 1 (Scores 2 (repeat [1; 0]%Q 45)) (repeat 0 45)
                  = 45%nat) by (vm_compute; reflexivity).
  rewrite Hsure in Hlo. rewrite Hposs in Hhi.
  assert (Hc : Binary.listed_hits topk_indices 1 1
                 (Scores 2 (repeat [1; 0]%Q 45)) (repeat 0 45) = 45%nat) by lia.
  rewrite Hc. vm_compute. reflexivity.
Qed.

(** ** accuracy on floats: the ends of k and a single label *)

Section AccuracyFloatMore.
Import Binary.

Variable topk_indices : nat -> list Q -> list nat.
Hypothesis topk_indices_valid :
  forall (k : nat) (row : list Q),
    (k <= List.length row)%nat -> is_topk k row (topk_indices k row).

Lemma count_true_zip_with_all {A B : Type} (f : A -> B -> bool)
  (l1 : list A) (l2 : list B) :
  Forall2 (fun x y => f x y = true) l1 l2 ->
  count_true (zip_with f l1 l2) = List.length l2.
Proof.
  induction 1 as [| x y l1 l2 Hxy _ IH]; simpl; [reflexivity |].
  rewrite Hxy, IH. reflexivity.
Qed.

Lemma possible_hits_none (output : scores) (target : list Z) :
  possible_hits 0 output target = 0%nat.
Proof.
  unfold possible_hits. apply count_true_none.
  apply Forall_forall. intros b Hb.
  apply elem_of_lookup_zip_with in Hb as (i & row & t & -> & _ & _).
  unfold possibly_in_top_k. apply andb_false_iff. right. reflexivity.
Qed.

Lemma surely_in_top_all (row : list Q) (t : Z) :
  0 <= t < Z.of_nat (List.length row) ->
  surely_in_top_k (List.length row) row t = true.
Proof.
  intros Ht. unfold surely_in_top_k.
  rewrite !andb_true_iff, Z.leb_le, !Nat.ltb_lt.
  split; [split; lia |]. unfold others_at_least.
  pose proof (filter_length_lt
                (fun j : nat =>
                   j ≠ Z.to_nat t
                   /\ Qle_bool (score row (Z.to_nat t)) (score row j) = true)
                (seq 0 (List.length row)) (Z.to_nat t)) as Hlt.
  rewrite length_seq in Hlt. apply Hlt.
  - apply elem_of_seq. lia.
  - intros [Hne _]. congruence.
Qed.

Lemma sure_hits_all (output : scores) (target : list Z) :
  wf_scores output = true ->
  List.length target = List.length (rows output) ->
  Forall (fun t => 0 <= t < Z.of_nat (ncols output)) target ->
  sure_hits (ncols output) output target = List.length target.
Proof.
  intros Hwf Hlen Hlabels. unfold sure_hits. apply count_true_zip_with_all.
  eapply Forall2_of_Foralls;
    [| apply wf_scores_rows; exact Hwf | exact Hlabels | exact Hlen].
  intros row t Hrow Ht. simpl in Hrow. rewrite <- Hrow.
  apply surely_in_top_all. rewrite Hrow. exact Ht.
Qed.

(** X6.  The two ends of k: on a well-formed non-empty batch of fewer than
    2^24 samples whose labels are all class indices,
    [accuracy(output, target, (0, number of classes))] returns exactly 0.0
    for k = 0 and, for k = number of classes, the float32 product
    [float32(B) * float32(100.0 / B)] for the batch size B, whatever the
    order of equal scores. *)
Theorem accuracy_extremes (output : scores) (target : list Z) :
  wf_scores output = true ->
  List.length target = List.length (rows output) ->
  target ≠ [] ->
  Z.of_nat (List.length target) < 2 ^ 24 ->
  Forall (fun t => 0 <= t < Z.of_nat (ncols output)) target ->
  accuracy topk_indices output target [0; Z.of_nat (ncols output)]
  = inr [S754_zero false;
         percent32 (List.length target) (Z.of_nat (List.length target))].
Proof.
  intros Hwf Hlen Hne Hsmall Hlabels.
  assert (Hpos : (0 < List.length target)%nat)
    by (destruct target; [congruence | simpl; lia]).
  assert (H53 : 2 ^ 24 < 2 ^ 53) by reflexivity.
  rewrite (accuracy_float_returns topk_indices topk_indices_valid output target
             [0; Z.of_nat (ncols output)] (Z.of_nat (ncols output)));
    try assumption.
  2:{ lia. }
  2:{ cbn [py_max fold_left]. f_equal. lia. }
  2:{ repeat constructor; lia. }
  2:{ lia. }
  cbn [map]. rewrite Nat2Z.id. unfold rows_kept.
  change (0 <=? 0) with true. cbv iota.
  destruct (Z.leb_spec 0 (Z.of_nat (ncols output))); [| lia].
  rewrite Nat2Z.id, Nat.min_id. change (Z.to_nat 0) with 0%nat.
  rewrite Nat.min_0_l.
  pose proof (listed_hits_bounds topk_indices topk_indices_valid output target
                (ncols output) 0 Hwf ltac:(lia) ltac:(lia)) as [_ H0].
  rewrite possible_hits_none in H0.
  pose proof (listed_hits_bounds topk_indices topk_indices_valid output target
                (ncols output) (ncols output) Hwf ltac:(lia) ltac:(lia))
    as [Hall Hle].
  rewrite sure_hits_all in Hall by assumption.
  pose proof (possible_hits_le (ncols output) output target) as Hposs.
  replace (listed_hits topk_indices (ncols output) 0 output target)
    with 0%nat by lia.
  replace (listed_hits topk_indices (ncols output) (ncols output) output target)
    with (List.length target) by lia.
  rewrite percent32_zero by lia. reflexivity.
Qed.

(** X24.  A single label is broadcast and the value can pass 100: given
    one label for fewer than 2^24 well-formed rows, [accuracy] returns for
    each requested k the float32 product [float32(c) * float32(100.0 / 1)],
    where c is the number of rows that list the label among their first k
    classes; [batch_size] is the number of labels, 1, so the count is not
    divided by the number of rows.  c lies between the number of rows that
    surely and that possibly have the label among their k highest
    scores. *)
Theorem accuracy_single_label (output : scores) (t : Z) (topk : list Z) :
  wf_scores output = true ->
  rows output ≠ [] ->
  Z.of_nat (List.length (rows output)) < 2 ^ 24 ->
  topk ≠ [] ->
  Forall (fun k => 0 <= k <= Z.of_nat (ncols output)) topk ->
  exists counts : list nat,
    accuracy topk_indices output [t] topk
    = inr (map (fun c => percent32 c 1) counts)
    /\ Forall2
         (fun (k : Z) (c : nat) =>
            let labels := replicate (List.length (rows output)) t in
            (sure_hits (Z.to_nat k) output labels <= c
             <= possible_hits (Z.to_nat k) output labels)%nat)
         topk counts.
Proof.
  intros Hwf Hrows Hsmall Htopk Hks.
  destruct (py_max_spec topk Htopk) as (maxk & Hmax & Hle & Hin).
  rewrite Forall_forall in Hks. pose proof (Hks _ Hin) as Hmaxk.
  exists (map (fun k => listed_hits topk_indices (Z.to_nat maxk) (Z.to_nat k)
                          output (replicate (List.length (rows output)) t))
              topk).
  split.
  - unfold accuracy. rewrite Hmax. cbn [res_bind]. unfold tensor_topk.
    destruct (Z.ltb_spec maxk 0); [lia |].
    destruct (Z.ltb_spec (Z.of_nat (ncols output)) maxk); [lia |].
    cbn [orb res_bind].
    assert (Hexp : expand_target [t] (Z.to_nat maxk) (List.length (rows output))
                   = inr (replicate (Z.to_nat maxk)
                            (replicate (List.length (rows output)) t))).
    { unfold expand_target. cbn [List.length].
      destruct (Nat.eqb_spec 1 (List.length (rows output))) as [<- | _];
        reflexivity. }
    rewrite Hexp. cbn [res_bind]. rewrite map_map.
    apply res_mapM_inr. intros k Hk.
    rewrite Forall_forall in Hle.
    pose proof (Hle _ Hk) as Hkm. pose proof (Hks _ Hk) as Hk0.
    unfold py_slice_to. destruct (Z.leb_spec 0 k); [| lia].
    rewrite (correct_count_listed topk_indices topk_indices_valid)
      by (try assumption; lia).
    reflexivity.
  - rewrite Forall_forall in Hle.
    apply Forall2_fmap_r, Forall_Forall2_diag, Forall_forall. intros k Hk.
    pose proof (Hle _ Hk) as Hkm. pose proof (Hks _ Hk) as Hk0.
    cbv zeta.
    apply (listed_hits_bounds topk_indices topk_indices_valid);
      [exact Hwf | lia | lia].
Qed.

End AccuracyFloatMore.

Lemma accuracy_extremes_witness :
  Binary.accuracy topk_row distinct_scores [1; 1; 2] [0; 3]
  = inr [S754_zero false; Binary.float32_of_literal 100].
Proof.
  change (Binary.accuracy topk_row distinct_scores [1; 1; 2]
            [0; Z.of_nat (ncols distinct_scores)]
          = inr [S754_zero false; Binary.float32_of_literal 100]).
  rewrite (accuracy_extremes topk_row topk_row_valid distinct_scores [1; 1; 2]).
  - vm_compute. reflexivity.
  - reflexivity.
  - reflexivity.
  - discriminate.
  - simpl. lia.
  - repeat constructor; simpl; lia.
Defined.

(** Three rows and the single label 1, k = 3: every row lists the label,
    and the value is 300. *)
Lemma accuracy_single_label_witness :
  Binary.accuracy topk_row distinct_scores [1] [3]
  = inr [Binary.float32_of_literal 300].
Proof.
  destruct (accuracy_single_label topk_row topk_row_valid distinct_scores 1 [3])
    as (counts & Hrun & Hcounts).
  - reflexivity.
  - discriminate.
  - simpl. lia.
  - discriminate.
  - repeat constructor; simpl; lia.
  - rewrite Hrun.
    apply Forall2_cons_inv_l in Hcounts as (c & cs & Hc & Hcs & ->).
    apply Forall2_nil_inv_l in Hcs as ->.
    cbv zeta in Hc.
    assert (Hsure : Binary.sure_hits (Z.to_nat 3) distinct_scores
                      (replicate (List.length (rows distinct_scores)) 1) = 3%nat)
      by (vm_compute; reflexivity).
    assert (Hposs : Binary.possible_hits (Z.to_nat 3) distinct_scores
                      (replicate (List.length (rows distinct_scores)) 1) = 3%nat)
      by (vm_compute; reflexivity).
    rewrite Hsure, Hposs in Hc.
    assert (c = 3%nat) as -> by lia.
    vm_compute. reflexivity.
Defined.
